(** * The review-edit loop of the paper generator

    A shallow embedding of the reviewer agent ([src/agents/reviewer.py]),
    the editor agent ([src/agents/editor.py]), the review and paper models
    ([src/models/review.py], [src/models/paper.py]) and of the loop that
    drives them ([src/orchestrator.py], [_stage_review_edit_loop]).

    Conventions of the embedding:
    - Python [int] is [Z]; [len(...)] is a [nat].
    - Python [str] is [string]; a character is a code point below 256.
    - [dict[str, str]] is [gmap string string]; a dict whose iteration
      order is observed is an association list in insertion order.
    - Mutable objects are passed and returned explicitly.  The issue
      objects of a feedback live in [issues]; a reference to one of them is
      its position in that list, so that [issue.resolved = True] through an
      alias is an update of the shared list.
    - The language model, [uuid4()] and [datetime.now()] are collaborators
      read from a world that is threaded through every call; the embedding
      describes the runs in which every collaborator call returns. *)

From Stdlib Require Import ZArith Ascii String List Lia Bool.
From stdpp Require Import base gmap strings list fin_maps pretty.

Local Open Scope string_scope.
Local Open Scope Z_scope.
Local Open Scope list_scope.

(** ** Python string methods used by the agents *)

Module Str.

(** [c.isspace()] for a code point below 256. *)
Definition isspace (c : ascii) : bool :=
  let n := nat_of_ascii c in
  (Nat.leb 9 n && Nat.leb n 13) || (Nat.leb 28 n && Nat.leb n 32)
  || Nat.eqb n 133 || Nat.eqb n 160.

(** [s.startswith(p)] *)
Fixpoint startswith (s p : string) : bool :=
  match p, s with
  | EmptyString, _ => true
  | String _ _, EmptyString => false
  | String a p', String b s' => Ascii.eqb a b && startswith s' p'
  end.

(** [p in s] *)
Fixpoint contains (s p : string) : bool :=
  startswith s p
  || match s with
     | EmptyString => false
     | String _ s' => contains s' p
     end.

Fixpoint lstrip (s : string) : string :=
  match s with
  | EmptyString => EmptyString
  | String c s' => if isspace c then lstrip s' else s
  end.

Fixpoint rstrip (s : string) : string :=
  match s with
  | EmptyString => EmptyString
  | String c s' =>
      match rstrip s' with
      | EmptyString => if isspace c then EmptyString else String c EmptyString
      | r => String c r
      end
  end.

(** [s.strip()] *)
Definition strip (s : string) : string := rstrip (lstrip s).

(** The scan of [s.replace(old, new)] for a non-empty [old]: [skip]
    characters of a match just replaced are still to be passed over. *)
Fixpoint replace_go (old new : string) (skip : nat) (s : string) : string :=
  match s with
  | EmptyString => EmptyString
  | String c s' =>
      match skip with
      | S k => replace_go old new k s'
      | O =>
          if startswith s old
          then new +:+ replace_go old new (String.length old - 1) s'
          else String c (replace_go old new 0 s')
      end
  end.

(** With an empty [old], Python puts [new] around every character. *)
Fixpoint interleave (new s : string) : string :=
  match s with
  | EmptyString => new
  | String c s' => new +:+ String c (interleave new s')
  end.

(** [s.replace(old, new)] *)
Definition replace (s old new : string) : string :=
  match old with
  | EmptyString => interleave new s
  | String _ _ => replace_go old new 0 s
  end.

(** [s.split(sep)] for a one-character separator: never an empty list. *)
Fixpoint split_on (sep : ascii) (s : string) : list string :=
  match s with
  | EmptyString => [EmptyString]
  | String c s' =>
      if Ascii.eqb c sep then EmptyString :: split_on sep s'
      else match split_on sep s' with
           | w :: ws => String c w :: ws
           | [] => [String c EmptyString]
           end
  end.

(** [s.split()]: the maximal runs of characters that are not white space. *)
Fixpoint split (s : string) : list string :=
  match s with
  | EmptyString => []
  | String c s' =>
      if isspace c then split s'
      else match s' with
           | EmptyString => [String c EmptyString]
           | String c' _ =>
               if isspace c' then String c EmptyString :: split s'
               else match split s' with
                    | w :: ws => String c w :: ws
                    | [] => [String c EmptyString]
                    end
           end
  end.

(** [s[:n]] for [n >= 0] *)
Definition slice_to (n : nat) (s : string) : string := String.substring 0 n s.

(** The line feed of ["\n"]. *)
Definition LF : ascii := ascii_of_nat 10.

(** [s.split("\n")] *)
Definition splitlines (s : string) : list string := split_on LF s.

(** [sep.join(parts)] *)
Fixpoint join (sep : string) (parts : list string) : string :=
  match parts with
  | [] => EmptyString
  | [p] => p
  | p :: rest => p +:+ sep +:+ join sep rest
  end.

End Str.

(** ** Paper model ([src/models/paper.py]) *)

Definition UUID := N.
Definition datetime := Z.

Inductive SectionType :=
  | ABSTRACT | INTRODUCTION | LITERATURE_REVIEW | THEORETICAL_FRAMEWORK
  | METHODOLOGY | ANALYSIS | DISCUSSION | CONCLUSION | REFERENCES.

(** Iteration order of [for section_type in SectionType]. *)
Definition SectionType_members : list SectionType :=
  [ABSTRACT; INTRODUCTION; LITERATURE_REVIEW; THEORETICAL_FRAMEWORK;
   METHODOLOGY; ANALYSIS; DISCUSSION; CONCLUSION; REFERENCES].

(** [section_type.value] *)
Definition SectionType_value (s : SectionType) : string :=
  match s with
  | ABSTRACT => "abstract"
  | INTRODUCTION => "introduction"
  | LITERATURE_REVIEW => "literature_review"
  | THEORETICAL_FRAMEWORK => "theoretical_framework"
  | METHODOLOGY => "methodology"
  | ANALYSIS => "analysis"
  | DISCUSSION => "discussion"
  | CONCLUSION => "conclusion"
  | REFERENCES => "references"
  end.

(** [SectionType(name)]: the member with that value, [None] where Python
    raises [ValueError]. *)
Definition SectionType_of_value (name : string) : option SectionType :=
  List.find (fun s => bool_decide (SectionType_value s = name)) SectionType_members.

Inductive DraftStatus := DRAFT | IN_REVIEW | APPROVED.

Record PaperDraft := mkPaperDraft {
  paper_id : UUID;
  session_id : option UUID;
  version : Z;
  sections : gmap string string;
  word_count : Z;
  status : DraftStatus;
  review_cycle : Z;
  created_at : datetime;
  updated_at : datetime;
}.

(** [draft.get_section(section_type)] *)
Definition get_section (d : PaperDraft) (s : SectionType) : string :=
  default "" (sections d !! SectionType_value s).

(** [len(content.split())] *)
Definition count_words (content : string) : Z :=
  Z.of_nat (length (Str.split content)).

(** [sum(len(content.split()) for content in self.sections.values())] *)
Definition total_words (m : gmap string string) : Z :=
  map_fold (fun _ content acc => count_words content + acc) 0 m.

(** [draft._update_word_count()] *)
Definition _update_word_count (d : PaperDraft) : PaperDraft :=
  mkPaperDraft (paper_id d) (session_id d) (version d) (sections d)
    (total_words (sections d)) (status d) (review_cycle d)
    (created_at d) (updated_at d).

(** ** Review model ([src/models/review.py]) *)

Inductive IssueType :=
  | MISSING_CITATION | INCONSISTENCY | VAGUE_CLAIM | FORMAT_ERROR
  | STYLE_ISSUE | GRAMMAR_ERROR | LOGIC_ERROR | INCOMPLETE_ARGUMENT.

Inductive IssueSeverity := CRITICAL | MAJOR | MINOR.

Definition IssueSeverity_eqb (a b : IssueSeverity) : bool :=
  match a, b with
  | CRITICAL, CRITICAL | MAJOR, MAJOR | MINOR, MINOR => true
  | _, _ => false
  end.

Record IssueLocation := mkIssueLocation {
  section : string;
  paragraph : Z;
  text_excerpt : string;
}.

Record ReviewIssue := mkReviewIssue {
  issue_id : UUID;
  issue_type : IssueType;
  severity : IssueSeverity;
  location : IssueLocation;
  description : string;
  suggested_fix : string;
  resolved : bool;
}.

(** [issue.resolved = True] *)
Definition mark_resolved (i : ReviewIssue) : ReviewIssue :=
  mkReviewIssue (issue_id i) (issue_type i) (severity i) (location i)
    (description i) (suggested_fix i) true.

Record ReviewFeedback := mkReviewFeedback {
  feedback_id : UUID;
  draft_id : option UUID;
  cycle : Z;
  issues : list ReviewIssue;
  overall_assessment : string;
  approved : bool;
  feedback_created_at : datetime;
}.

Definition with_issues (f : ReviewFeedback) (l : list ReviewIssue) : ReviewFeedback :=
  mkReviewFeedback (feedback_id f) (draft_id f) (cycle f) l
    (overall_assessment f) (approved f) (feedback_created_at f).

(** [feedback.get_unresolved_issues()] *)
Definition get_unresolved_issues (f : ReviewFeedback) : list ReviewIssue :=
  List.filter (fun i => negb (resolved i)) (issues f).

(** [feedback.has_critical_issues()] *)
Definition has_critical_issues (f : ReviewFeedback) : bool :=
  existsb (fun i => IssueSeverity_eqb (severity i) CRITICAL && negb (resolved i))
    (issues f).

(** ** Collaborators and the effects of an agent call *)

(** What a prompt is built from.  The text sent to the model is an
    f-string over exactly these values, in this order. *)
Inductive Prompt :=
  | ReviewSectionPrompt (s : SectionType) (content : string) (cycle : Z)
  | ConsistencyPrompt (abstract intro conclusion : string)
  | EditSectionPrompt (listed : list ReviewIssue) (content : string).

(** The language model behind [BaseAgent.generate], the source of
    identifiers and the clock. *)
Class Collaborators := {
  World : Type;
  llm_generate : Prompt -> Z -> World -> string * World;
  uuid4 : World -> UUID * World;
  datetime_now : World -> datetime * World;
}.

(** One record per logging call of the source; the arguments are the values
    interpolated in its message. *)
Inductive Message :=
  | StartingReviewCycle (cycle : Z)
  | FirstCycleNoApproval
  | PerformingFinalReview (cycle : Z)
  | EditingIssues (n : nat) (s : SectionType)
  | ApplyingFixes (n : nat)
  | UnknownSectionType (name : string)
  | Progress (stage : string) (percent : Z) (message : string)
  | MaximumReviewCyclesReached.

Inductive Event :=
  | Generate (p : Prompt) (max_tokens : Z)
  | LogInfo (m : Message)
  | LogWarning (m : Message)
  | LogError (m : Message).

(** [success], [data] and [error] of [AgentResult]; [data] is the dict of
    the action, a record here. *)
Record AgentResult (D : Type) := mkAgentResult {
  success : bool;
  data : option D;
  error : option string;
}.
Arguments mkAgentResult {D}.
Arguments success {D}.
Arguments data {D}.
Arguments error {D}.

Section Effects.
Context `{Collaborators}.

(** The world and the events so far, oldest first. *)
Record Env := mkEnv { world : World; trace : list Event }.

Definition M (A : Type) : Type := Env -> A * Env.

Definition ret {A} (a : A) : M A := fun e => (a, e).

Definition bind {A B} (m : M A) (k : A -> M B) : M B :=
  fun e => let (a, e') := m e in k a e'.

Definition emit (ev : Event) : M unit :=
  fun e => (tt, mkEnv (world e) (trace e ++ [ev])).

Definition log_info (m : Message) : M unit := emit (LogInfo m).
Definition log_warning (m : Message) : M unit := emit (LogWarning m).
Definition log_error (m : Message) : M unit := emit (LogError m).

(** [await self.generate(prompt, max_tokens=...)] *)
Definition generate (p : Prompt) (max_tokens : Z) : M string :=
  fun e =>
    let (r, w) := llm_generate p max_tokens (world e) in
    (r, mkEnv w (trace e ++ [Generate p max_tokens])).

Definition fresh_uuid : M UUID :=
  fun e => let (u, w) := uuid4 (world e) in (u, mkEnv w (trace e)).

Definition now : M datetime :=
  fun e => let (t, w) := datetime_now (world e) in (t, mkEnv w (trace e)).

End Effects.

Notation "x <- m ;; k" := (bind m (fun x => k))
  (at level 100, m at level 99, right associativity, only parsing).
Notation "m ;;; k" := (bind m (fun _ => k))
  (at level 100, right associativity, only parsing).

(** [for x in l: s = body(s, x)] *)
Fixpoint for_each `{Collaborators} {A S : Type}
    (l : list A) (body : S -> A -> M S) (s : S) : M S :=
  match l with
  | [] => ret s
  | x :: rest => s' <- body s x ;; for_each rest body s'
  end.

(** [draft.set_section(section_type, content)] *)
Definition set_section `{Collaborators}
    (d : PaperDraft) (s : SectionType) (content : string) : M PaperDraft :=
  let d1 := mkPaperDraft (paper_id d) (session_id d) (version d)
              (<[SectionType_value s := content]> (sections d))
              (word_count d) (status d) (review_cycle d)
              (created_at d) (updated_at d) in
  let d2 := _update_word_count d1 in
  t <- now ;;
  ret (mkPaperDraft (paper_id d2) (session_id d2) (version d2) (sections d2)
         (word_count d2) (status d2) (review_cycle d2) (created_at d2) t).

(** ** Reviewer agent ([src/agents/reviewer.py]) *)

Module Reviewer.

(** The [data] dict returned by [_review] and [_final_review]. *)
Record ReviewData := mkReviewData {
  data_feedback : ReviewFeedback;
  issue_count : nat;
  critical_count : nat;
  major_count : nat;
  minor_count : nat;
  data_approved : bool;
  data_cycle : Z;
}.

(** The [data] dict returned by [_check_resolved_issues]. *)
Record CheckData := mkCheckData {
  total_issues : nat;
  resolved_count : nat;
  remaining : Z;
}.

Definition category_map : gmap string IssueType :=
  list_to_map
    [("MISSING_CITATION", MISSING_CITATION);
     ("INCONSISTENCY", INCONSISTENCY);
     ("VAGUE_CLAIM", VAGUE_CLAIM);
     ("FORMAT_ERROR", FORMAT_ERROR);
     ("STYLE_ISSUE", STYLE_ISSUE);
     ("GRAMMAR_ERROR", GRAMMAR_ERROR);
     ("LOGIC_ERROR", LOGIC_ERROR);
     ("INCOMPLETE_ARGUMENT", INCOMPLETE_ARGUMENT)].

Definition severity_map : gmap string IssueSeverity :=
  list_to_map [("CRITICAL", CRITICAL); ("MAJOR", MAJOR); ("MINOR", MINOR)].

(** The five field markers scanned for in a section review. *)
Definition field_markers : list string :=
  ["ISSUE:"; "SEVERITY:"; "LOCATION:"; "DESCRIPTION:"; "SUGGESTION:"].

(** [len([i for i in issues if i.severity == sev])] *)
Definition count_severity (sev : IssueSeverity) (l : list ReviewIssue) : nat :=
  length (List.filter (fun i => IssueSeverity_eqb (severity i) sev) l).

(** The approval test of [_review] for [cycle >= 2]:
    [len([i for i in issues
          if i.severity in [CRITICAL, MAJOR] and not i.resolved]) == 0] *)
Definition no_critical_major (l : list ReviewIssue) : bool :=
  Nat.eqb
    (length
       (List.filter
          (fun i =>
             (IssueSeverity_eqb (severity i) CRITICAL
              || IssueSeverity_eqb (severity i) MAJOR)
             && negb (resolved i)) l)) 0.

(** [_generate_assessment(draft, issues, cycle)]; the draft is not read. *)
Definition _generate_assessment (l : list ReviewIssue) (cycle : Z) : string :=
  let critical := count_severity CRITICAL l in
  let major := count_severity MAJOR l in
  let minor := count_severity MINOR l in
  let assessment :=
    "Review Cycle " +:+ pretty cycle +:+ " Assessment:

Total Issues Found: " +:+ pretty (length l) +:+ "
- Critical: " +:+ pretty critical +:+ "
- Major: " +:+ pretty major +:+ "
- Minor: " +:+ pretty minor +:+ "

" in
  if Z.eqb cycle 1 then
    assessment +:+ "This is the first review cycle. The paper requires revisions before it can be approved. "
  else if Nat.ltb 0 critical then
    assessment +:+ "The paper has critical issues that must be addressed before approval. "
  else if Nat.ltb 0 major then
    assessment +:+ "The paper has major issues that should be addressed. "
  else
    assessment +:+ "The paper is nearing publication readiness with only minor issues remaining. ".

(** The section text compared by [_check_resolved_issues]:
    [draft.get_section(SectionType(name))
     if name in [s.value for s in SectionType] else ""] *)
Definition section_content (draft : PaperDraft) (name : string) : string :=
  if bool_decide (name ∈ List.map SectionType_value SectionType_members)
  then match SectionType_of_value name with
       | Some s => get_section draft s
       | None => ""
       end
  else "".

(** [issue.location.text_excerpt and
     issue.location.text_excerpt not in section_content] *)
Definition excerpt_gone (draft : PaperDraft) (i : ReviewIssue) : bool :=
  negb (String.eqb (text_excerpt (location i)) "")
  && negb (Str.contains (section_content draft (section (location i)))
             (text_excerpt (location i))).

Section Agent.
Context `{Collaborators}.

(** [_create_issue(data, section_type)] *)
Definition _create_issue (d : gmap string string) (section_type : SectionType)
    : M ReviewIssue :=
  u <- fresh_uuid ;;
  ret (mkReviewIssue u
         (default VAGUE_CLAIM (category_map !! default "" (d !! "category")))
         (default MINOR (severity_map !! default "MINOR" (d !! "severity")))
         (mkIssueLocation (SectionType_value section_type) 0
            (default "" (d !! "location")))
         (default "" (d !! "description"))
         (default "" (d !! "suggestion"))
         false).

(** [if current_issue: issues.append(self._create_issue(...))] *)
Definition flush_issue (section_type : SectionType)
    (current_issue : gmap string string) (l : list ReviewIssue)
    : M (list ReviewIssue) :=
  if bool_decide (current_issue = ∅) then ret l
  else i <- _create_issue current_issue section_type ;; ret (l ++ [i]).

(** The value after a marker: [line.replace(marker, "").strip()] *)
Definition field_value (line marker : string) : string :=
  Str.strip (Str.replace line marker "").

(** One iteration of the loop over the lines of a section review. *)
Definition parse_line (section_type : SectionType)
    (st : gmap string string * list ReviewIssue) (raw : string)
    : M (gmap string string * list ReviewIssue) :=
  let (current_issue, l) := st in
  let line := Str.strip raw in
  if Str.startswith line "ISSUE:" then
    l' <- flush_issue section_type current_issue l ;;
    ret ({["category" := field_value line "ISSUE:"]}, l')
  else if Str.startswith line "SEVERITY:" then
    ret (<["severity" := field_value line "SEVERITY:"]> current_issue, l)
  else if Str.startswith line "LOCATION:" then
    ret (<["location" := field_value line "LOCATION:"]> current_issue, l)
  else if Str.startswith line "DESCRIPTION:" then
    ret (<["description" := field_value line "DESCRIPTION:"]> current_issue, l)
  else if Str.startswith line "SUGGESTION:" then
    ret (<["suggestion" := field_value line "SUGGESTION:"]> current_issue, l)
  else ret st.

(** The parsing half of [_review_section]: from the model's response to
    the issues of the section. *)
Definition parse_issues (section_type : SectionType) (response : string)
    : M (list ReviewIssue) :=
  if negb (Str.contains response "NO_ISSUES") then
    st <- for_each (Str.splitlines response) (parse_line section_type) (∅, []) ;;
    flush_issue section_type (fst st) (snd st)
  else ret [].

(** [_review_section(section_type, content, cycle)] *)
Definition _review_section (section_type : SectionType) (content : string)
    (cycle : Z) : M (list ReviewIssue) :=
  response <- generate
    (ReviewSectionPrompt section_type (Str.slice_to 5000 content) cycle) 2000 ;;
  parse_issues section_type response.

(** One iteration of the loop over the lines of a consistency check. *)
Definition consistency_line (l : list ReviewIssue) (line : string)
    : M (list ReviewIssue) :=
  if Str.startswith line "INCONSISTENCY:" then
    u <- fresh_uuid ;;
    ret (l ++ [mkReviewIssue u INCONSISTENCY MAJOR
                 (mkIssueLocation "cross-section" 0 "")
                 (field_value line "INCONSISTENCY:") "" false])
  else ret l.

(** [_check_consistency(draft)] *)
Definition _check_consistency (draft : PaperDraft) : M (list ReviewIssue) :=
  let intro := Str.slice_to 1000 (get_section draft INTRODUCTION) in
  let conclusion := Str.slice_to 1000 (get_section draft CONCLUSION) in
  let abstract := get_section draft ABSTRACT in
  response <- generate (ConsistencyPrompt abstract intro conclusion) 1000 ;;
  if Str.contains response "INCONSISTENCY:" then
    for_each (Str.splitlines response) consistency_line []
  else ret [].

(** The loop [for section_type in SectionType] of [_review]. *)
Definition review_sections (draft : PaperDraft) (cycle : Z)
    : M (list ReviewIssue) :=
  for_each SectionType_members
    (fun l section_type =>
       let content := get_section draft section_type in
       if negb (String.eqb content "") then
         section_issues <- _review_section section_type content cycle ;;
         ret (l ++ section_issues)
       else ret l)
    [].

(** [_review(draft, cycle)]: the result and the draft, whose
    [review_cycle] it sets. *)
Definition _review (draft : PaperDraft) (c : Z)
    : M (AgentResult ReviewData * PaperDraft) :=
  log_info (StartingReviewCycle c) ;;;
  fid <- fresh_uuid ;;
  t <- now ;;
  l1 <- review_sections draft c ;;
  consistency_issues <- _check_consistency draft ;;
  let l := l1 ++ consistency_issues in
  let assessment := _generate_assessment l c in
  ok <- (if Z.ltb c 2
         then log_info FirstCycleNoApproval ;;; ret false
         else ret (no_critical_major l)) ;;
  let feedback := mkReviewFeedback fid (Some (paper_id draft)) c l assessment ok t in
  let draft' := mkPaperDraft (paper_id draft) (session_id draft) (version draft)
                  (sections draft) (word_count draft) (status draft) c
                  (created_at draft) (updated_at draft) in
  ret (mkAgentResult true
         (Some (mkReviewData feedback (length l)
                  (count_severity CRITICAL l) (count_severity MAJOR l)
                  (count_severity MINOR l) ok c))
         None,
       draft').

(** [_check_resolved_issues(draft, previous_feedback)]: the result and
    the feedback, whose issues it marks. *)
Definition _check_resolved_issues (draft : PaperDraft)
    (previous_feedback : ReviewFeedback)
    : M (AgentResult CheckData * ReviewFeedback) :=
  let l := issues previous_feedback in
  let l' := (fun i => if excerpt_gone draft i then mark_resolved i else i) <$> l in
  let n := length (List.filter (excerpt_gone draft) l) in
  ret (mkAgentResult true
         (Some (mkCheckData (length l) n (Z.of_nat (length l) - Z.of_nat n)))
         None,
       with_issues previous_feedback l').

(** [_final_review(draft, cycle)] *)
Definition _final_review (draft : PaperDraft) (c : Z)
    : M (AgentResult ReviewData * PaperDraft) :=
  log_info (PerformingFinalReview c) ;;;
  r <- _review draft c ;;
  let (result, draft') := r in
  match success result, data result with
  | true, Some d =>
      let feedback := data_feedback d in
      let feedback' :=
        if negb (has_critical_issues feedback) && Z.leb 2 c
        then mkReviewFeedback (feedback_id feedback) (draft_id feedback)
               (cycle feedback) (issues feedback)
               (overall_assessment feedback +:+ "

FINAL REVIEW: Paper approved for finalization.")
               true (feedback_created_at feedback)
        else feedback in
      ret (mkAgentResult true
             (Some (mkReviewData feedback' (issue_count d) (critical_count d)
                      (major_count d) (minor_count d) (approved feedback')
                      (data_cycle d)))
             (error result),
           draft')
  | _, _ => ret (result, draft')
  end.

End Agent.

End Reviewer.

(** ** Editor agent ([src/agents/editor.py]) *)

Module Editor.

(** The [data] dict returned by [_edit_section]. *)
Record EditData := mkEditData {
  edited_section : string;
  issues_fixed : nat;
  edited_word_count : Z;
}.

(** The [data] dict returned by [_apply_all_fixes]. *)
Record ApplyData := mkApplyData {
  data_draft : PaperDraft;
  sections_edited : list string;
  total_issues_fixed : nat;
  draft_version : Z;
  ready_for_review : bool;
}.

(** The key of the sort in [_apply_all_fixes]:
    [{CRITICAL: 0, MAJOR: 1, MINOR: 2}.get(x.severity, 3)] *)
Definition severity_rank (s : IssueSeverity) : nat :=
  match s with CRITICAL => 0 | MAJOR => 1 | MINOR => 2 end.

(** The key of the issue object behind a reference. *)
Definition rank_of (store : list ReviewIssue) (r : nat) : nat :=
  match store !! r with
  | Some i => severity_rank (severity i)
  | None => 3
  end.

(** [list.sort(key=...)] is stable: an element goes in front of the
    first one of the sorted rest whose key is not smaller. *)
Fixpoint insert_by {A} (key : A -> nat) (x : A) (l : list A) : list A :=
  match l with
  | [] => [x]
  | y :: l' =>
      if Nat.leb (key x) (key y) then x :: l else y :: insert_by key x l'
  end.

Definition sort_by {A} (key : A -> nat) (l : list A) : list A :=
  foldr (insert_by key) [] l.

(** [issues_by_section[section].append(issue)], with a new key put last
    as the insertion order of a dict has it. *)
Fixpoint group_add (name : string) (r : nat) (groups : list (string * list nat))
    : list (string * list nat) :=
  match groups with
  | [] => [(name, [r])]
  | (k, refs) :: rest =>
      if String.eqb k name then (k, refs ++ [r]) :: rest
      else (k, refs) :: group_add name r rest
  end.

(** The first loop of [_apply_all_fixes]: the unresolved issues, by
    reference, grouped by [issue.location.section]. *)
Definition group_by_section (store : list ReviewIssue) : list (string * list nat) :=
  fold_left
    (fun groups (ri : nat * ReviewIssue) =>
       if negb (resolved (snd ri))
       then group_add (section (location (snd ri))) (fst ri) groups
       else groups)
    (combine (seq 0 (length store)) store)
    [].

(** The second loop: [section_issues.sort(key=...)] on every group. *)
Definition sort_groups (store : list ReviewIssue) (groups : list (string * list nat))
    : list (string * list nat) :=
  List.map (fun g => (fst g, sort_by (rank_of store) (snd g))) groups.

(** The issue objects behind a list of references. *)
Definition deref (store : list ReviewIssue) (refs : list nat) : list ReviewIssue :=
  omap (fun r => store !! r) refs.

(** [for issue in issues: issue.resolved = True] *)
Definition resolve_all (refs : list nat) (store : list ReviewIssue)
    : list ReviewIssue :=
  fold_left (fun st r => alter mark_resolved r st) refs store.

(** What the third loop of [_apply_all_fixes] carries. *)
Record EditState := mkEditState {
  cur_draft : PaperDraft;
  cur_store : list ReviewIssue;
  cur_sections_edited : list string;
  cur_issues_fixed : nat;
}.

Section Agent.
Context `{Collaborators}.

(** [_edit_section(draft, section_type, issues)]; [issues] is a list of
    references into [store]. *)
Definition _edit_section (draft : PaperDraft) (section_type : SectionType)
    (refs : list nat) (store : list ReviewIssue)
    : M (AgentResult EditData * PaperDraft * list ReviewIssue) :=
  log_info (EditingIssues (length refs) section_type) ;;;
  let content := get_section draft section_type in
  if String.eqb content "" then
    ret (mkAgentResult false None
           (Some ("Section " +:+ SectionType_value section_type +:+ " is empty")),
         draft, store)
  else
    edited_content <- generate (EditSectionPrompt (deref store refs) content)
                        (count_words content * 2) ;;
    draft' <- set_section draft section_type edited_content ;;
    let store' := resolve_all refs store in
    ret (mkAgentResult true
           (Some (mkEditData (SectionType_value section_type) (length refs)
                    (count_words edited_content)))
           None,
         draft', store').

(** The body of [for section_str, issues in issues_by_section.items()]. *)
Definition edit_group (st : EditState) (g : string * list nat) : M EditState :=
  let (section_str, refs) := g in
  match SectionType_of_value section_str with
  | Some section_type =>
      r <- _edit_section (cur_draft st) section_type refs (cur_store st) ;;
      let '(result, draft', store') := r in
      if success result then
        ret (mkEditState draft' store'
               (cur_sections_edited st ++ [section_str])
               (cur_issues_fixed st + length refs)%nat)
      else
        ret (mkEditState draft' store'
               (cur_sections_edited st) (cur_issues_fixed st))
  | None =>
      log_error (UnknownSectionType section_str) ;;; ret st
  end.

(** [_apply_all_fixes(draft, feedback)]: the result, the draft and the
    feedback whose issue objects were marked. *)
Definition _apply_all_fixes (draft : PaperDraft) (feedback : ReviewFeedback)
    : M (AgentResult ApplyData * PaperDraft * ReviewFeedback) :=
  log_info (ApplyingFixes (length (issues feedback))) ;;;
  let store := issues feedback in
  let issues_by_section := sort_groups store (group_by_section store) in
  st <- for_each issues_by_section edit_group (mkEditState draft store [] 0) ;;
  let d := cur_draft st in
  let draft' := mkPaperDraft (paper_id d) (session_id d) (version d + 1)
                  (sections d) (word_count d) (status d) (review_cycle d)
                  (created_at d) (updated_at d) in
  ret (mkAgentResult true
         (Some (mkApplyData draft' (cur_sections_edited st)
                  (cur_issues_fixed st) (version draft') true))
         None,
       draft', with_issues feedback (cur_store st)).

End Agent.

End Editor.

(** ** The review-edit loop ([src/orchestrator.py]) *)

Module Orchestrator.

Inductive WorkflowStage :=
  | INIT | TOPIC_REFINEMENT | SOURCE_DISCOVERY | SOURCE_SUMMARIZATION
  | RESEARCH_PLANNING | BODY_WRITING | INTRO_CONCLUSION | REVIEW | EDITING
  | FINAL_REVIEW | EXPORT | COMPLETED | FAILED.

(** The fields of [WorkflowState] that the loop reads or writes; the
    state holds a draft when the loop starts.  [update_stage] also reports
    the stage to the session, which belongs to the persistence layer. *)
Record WorkflowState := mkWorkflowState {
  current_stage : WorkflowStage;
  draft : PaperDraft;
  feedback : option ReviewFeedback;
  state_review_cycle : Z;
}.

(** The [paper] part of the configuration. *)
Record PaperConfig := mkPaperConfig {
  min_review_cycles : Z;
  max_review_cycles : Z;
}.

(** How a stage ends: it returns, or an exception leaves it. *)
Inductive Outcome (A : Type) :=
  | Returned (a : A)
  | Raised (exn : string).
Arguments Returned {A}.
Arguments Raised {A}.

(** [range(1, max_cycles + 1)] *)
Definition cycle_range (max_cycles : Z) : list Z :=
  List.map Z.of_nat (seq 1 (Z.to_nat max_cycles)).

Section Loop.
Context `{Collaborators}.

(** [self._report_progress(stage, progress, message)]: the line it logs.
    The progress callback belongs to the caller and is not part of the
    loop. *)
Definition _report_progress (stage : string) (percent : Z) (message : string)
    : M unit :=
  log_info (Progress stage percent message).

(** The body of [for cycle in range(1, max_cycles + 1)] and the
    iterations after it; a [break] returns without them. *)
Fixpoint review_edit_cycles (min_cycles : Z) (cycles : list Z)
    (st : WorkflowState) : M (Outcome WorkflowState) :=
  match cycles with
  | [] => ret (Returned st)
  | c :: rest =>
      let st := mkWorkflowState REVIEW (draft st) (feedback st) c in
      _report_progress "review" (70 + c * 5) ("Review cycle " +:+ pretty c) ;;;
      r <- Reviewer._review (draft st) c ;;
      let (review_result, d1) := r in
      let st := mkWorkflowState (current_stage st) d1 (feedback st)
                  (state_review_cycle st) in
      if success review_result then
        match data review_result with
        | None => ret (Raised "AttributeError")
        | Some rd =>
            let fb := Reviewer.data_feedback rd in
            let st := mkWorkflowState (current_stage st) (draft st) (Some fb)
                        (state_review_cycle st) in
            _report_progress "review" (72 + c * 5)
              ("Found " +:+ pretty (Reviewer.issue_count rd) +:+ " issues") ;;;
            if Reviewer.data_approved rd && Z.leb min_cycles c then
              _report_progress "review" 90 "Paper approved" ;;;
              ret (Returned st)
            else
              let st := mkWorkflowState EDITING (draft st) (feedback st)
                          (state_review_cycle st) in
              _report_progress "editing" (75 + c * 5)
                ("Editing cycle " +:+ pretty c) ;;;
              e <- Editor._apply_all_fixes (draft st) fb ;;
              let '(edit_result, d2, fb') := e in
              let st := mkWorkflowState (current_stage st) d2 (Some fb')
                          (state_review_cycle st) in
              if success edit_result then
                match data edit_result with
                | None => ret (Raised "AttributeError")
                | Some ed =>
                    let st := mkWorkflowState (current_stage st)
                                (Editor.data_draft ed) (feedback st)
                                (state_review_cycle st) in
                    _report_progress "editing" (78 + c * 5)
                      ("Fixed " +:+ pretty (Editor.total_issues_fixed ed)
                       +:+ " issues") ;;;
                    review_edit_cycles min_cycles rest st
                end
              else review_edit_cycles min_cycles rest st
        end
      else review_edit_cycles min_cycles rest st
  end.

(** [_stage_review_edit_loop()] *)
Definition _stage_review_edit_loop (config : PaperConfig) (st : WorkflowState)
    : M (Outcome WorkflowState) :=
  let max_cycles := max_review_cycles config in
  let min_cycles := min_review_cycles config in
  o <- review_edit_cycles min_cycles (cycle_range max_cycles) st ;;
  match o with
  | Raised exn => ret (Raised exn)
  | Returned st' =>
      (if match feedback st' with
          | None => true
          | Some fb => negb (approved fb)
          end
       then log_warning MaximumReviewCyclesReached
       else ret tt) ;;;
      ret (Returned st')
  end.

End Loop.

End Orchestrator.


(** ** A scripted collaborator, for running the agents on concrete inputs *)

(** The model answers with the next reply of a script (the empty text once
    the script is over); identifiers and clock readings count up. *)
Record Script := mkScript {
  replies : list string;
  next_uuid : N;
  clock : Z;
}.

Definition scripted : Collaborators :=
  {| World := Script;
     llm_generate := fun _ _ w =>
       (hd "" (replies w), mkScript (tl (replies w)) (next_uuid w) (clock w));
     uuid4 := fun w =>
       (next_uuid w, mkScript (replies w) (next_uuid w + 1)%N (clock w));
     datetime_now := fun w =>
       (clock w, mkScript (replies w) (next_uuid w) (clock w + 1)) |}.

(** The start of a run against a script. *)
Definition start (script : list string) : @Env scripted :=
  @mkEnv scripted (mkScript script 0%N 0) [].

(** A draft with the given sections, as the writing stages hand it over. *)
Definition draft_of (l : list (string * string)) : PaperDraft :=
  mkPaperDraft 0%N None 1 (list_to_map l) (total_words (list_to_map l)) DRAFT 0 0 0.

(** An unresolved issue as the reviewer creates it. *)
Definition issue_at (name : string) (sev : IssueSeverity) (excerpt what : string)
    : ReviewIssue :=
  mkReviewIssue 0%N VAGUE_CLAIM sev (mkIssueLocation name 0 excerpt) what "" false.

Definition feedback_of (c : Z) (l : list ReviewIssue) (ok : bool) : ReviewFeedback :=
  mkReviewFeedback 0%N None c l "" ok 0.

(** ** The vocabulary of the claims *)

(** An issue that stands in the way of a standard approval: critical or
    major, and not resolved. *)
Definition blocks_approval (i : ReviewIssue) : Prop :=
  (severity i = CRITICAL \/ severity i = MAJOR) /\ resolved i = false.

(** An issue that stands in the way of a final approval. *)
Definition unresolved_critical (i : ReviewIssue) : Prop :=
  severity i = CRITICAL /\ resolved i = false.

(** The text [excerpt] occurs verbatim in [content]. *)
Definition found_verbatim (excerpt content : string) : Prop :=
  exists pre post, content = pre +:+ excerpt +:+ post.

(** The number of whitespace-separated words of a text, counted where they
    start: at a character that is not white space and that comes first or
    after white space. *)
Fixpoint word_starts (after_space : bool) (s : string) : nat :=
  match s with
  | EmptyString => 0
  | String c s' =>
      if Str.isspace c then word_starts true s'
      else ((if after_space then 1 else 0) + word_starts false s')%nat
  end.

(** The sum, over all sections of a draft, of the number of words of the
    section's current content. *)
Definition sum_of_section_words (d : PaperDraft) : Z :=
  foldr Z.add 0
    ((fun kv => Z.of_nat (word_starts true kv.2)) <$> map_to_list (sections d)).

(** The issues of severity [sev], in the order of [l]. *)
Definition of_severity (sev : IssueSeverity) (l : list ReviewIssue)
    : list ReviewIssue :=
  List.filter (fun i => IssueSeverity_eqb (severity i) sev) l.

(** Severity first, the order of [l] otherwise: all critical issues, then
    all major ones, then all minor ones. *)
Definition by_severity (l : list ReviewIssue) : list ReviewIssue :=
  of_severity CRITICAL l ++ of_severity MAJOR l ++ of_severity MINOR l.

(** The unresolved issues located in the section called [name], in the
    order of [l]. *)
Definition unresolved_in (name : string) (l : list ReviewIssue)
    : list ReviewIssue :=
  List.filter
    (fun i => negb (resolved i) && String.eqb (section (location i)) name) l.

(** The references filed under [name] in a grouping. *)
Definition group_refs (name : string) (groups : list (string * list nat))
    : list nat :=
  match List.find (fun g => String.eqb g.1 name) groups with
  | Some g => g.2
  | None => []
  end.

(** A group is rewritten when its name is a section kind and the draft has
    text for that section. *)
Definition rewritten (draft : PaperDraft) (name : string) : bool :=
  match SectionType_of_value name with
  | Some s => negb (String.eqb (get_section draft s) "")
  | None => false
  end.

(** The issue at position [k] belongs to a group that is rewritten. *)
Definition touched (draft : PaperDraft) (groups : list (string * list nat))
    (k : nat) : bool :=
  existsb (fun g => rewritten draft g.1 && bool_decide (k ∈ g.2)) groups.

(** What the editor logs and asks the model for one group: an error for a
    name that is no section kind; otherwise the announcement of the edit
    and, when the section has text, one rewrite request listing the issues
    of the group. *)
Definition group_events (draft : PaperDraft) (store : list ReviewIssue)
    (g : string * list nat) : list Event :=
  match SectionType_of_value g.1 with
  | None => [LogError (UnknownSectionType g.1)]
  | Some s =>
      LogInfo (EditingIssues (length g.2) s)
      :: (if String.eqb (get_section draft s) "" then []
          else [Generate
                  (EditSectionPrompt (Editor.deref store g.2) (get_section draft s))
                  (count_words (get_section draft s) * 2)])
  end.

(** Every reference of every group points to an issue located in the
    section that names the group. *)
Definition owned (store : list ReviewIssue) (groups : list (string * list nat))
    : Prop :=
  forall name refs, (name, refs) ∈ groups ->
  forall k, k ∈ refs ->
  exists i, store !! k = Some i /\ section (location i) = name.

(** The number of resolved issues. *)
Definition resolved_count (l : list ReviewIssue) : nat :=
  length (List.filter resolved l).

(** The name under which the model is asked to report an issue type. *)
Definition IssueType_name (t : IssueType) : string :=
  match t with
  | MISSING_CITATION => "MISSING_CITATION"
  | INCONSISTENCY => "INCONSISTENCY"
  | VAGUE_CLAIM => "VAGUE_CLAIM"
  | FORMAT_ERROR => "FORMAT_ERROR"
  | STYLE_ISSUE => "STYLE_ISSUE"
  | GRAMMAR_ERROR => "GRAMMAR_ERROR"
  | LOGIC_ERROR => "LOGIC_ERROR"
  | INCOMPLETE_ARGUMENT => "INCOMPLETE_ARGUMENT"
  end.

(** The name under which the model is asked to report a severity. *)
Definition IssueSeverity_name (sev : IssueSeverity) : string :=
  match sev with
  | CRITICAL => "CRITICAL"
  | MAJOR => "MAJOR"
  | MINOR => "MINOR"
  end.

(** An issue as the reviewer files it for the section under review:
    located in that section, without a paragraph number, unresolved. *)
Definition filed_under (s : SectionType) (i : ReviewIssue) : Prop :=
  section (location i) = SectionType_value s /\
  paragraph (location i) = 0 /\
  resolved i = false.

(** The issue was built from the fields [d] of a marker block: a
    recognised category or severity name is taken, anything else, or none,
    gives the default. *)
Definition built_from (d : gmap string string) (i : ReviewIssue) : Prop :=
  (forall t, (exists c, d !! "category" = Some c /\ IssueType_name t = c) ->
             issue_type i = t) /\
  ((forall t, d !! "category" <> Some (IssueType_name t)) ->
   issue_type i = VAGUE_CLAIM) /\
  (forall sev, (exists c, d !! "severity" = Some c /\ IssueSeverity_name sev = c) ->
               severity i = sev) /\
  ((forall sev, d !! "severity" <> Some (IssueSeverity_name sev)) ->
   severity i = MINOR) /\
  text_excerpt (location i) = default "" (d !! "location") /\
  description i = default "" (d !! "description") /\
  suggested_fix i = default "" (d !! "suggestion").

(** The agent calls of the loop, as the log shows them: [_review] starts
    by logging its cycle number, [_apply_all_fixes] by logging the number
    of issues it received. *)
Inductive AgentCall :=
  | ReviewCall (c : Z)
  | EditCall.

Definition agent_call (ev : Event) : option AgentCall :=
  match ev with
  | LogInfo (StartingReviewCycle c) => Some (ReviewCall c)
  | LogInfo (ApplyingFixes _) => Some EditCall
  | _ => None
  end.

Definition agent_calls (evs : list Event) : list AgentCall :=
  omap agent_call evs.

(** The warning of the loop has been logged. *)
Definition warned (evs : list Event) : bool :=
  existsb
    (fun ev =>
       match ev with
       | LogWarning MaximumReviewCyclesReached => true
       | _ => false
       end)
    evs.

(** The calls of a run over [cycles]: a review and an edit per cycle,
    except that a run that converged ends with a review. *)
Fixpoint expected_calls (cycles : list Z) (converged : bool) : list AgentCall :=
  match cycles with
  | [] => []
  | c :: rest =>
      match rest with
      | [] => ReviewCall c :: (if converged then [] else [EditCall])
      | _ :: _ => ReviewCall c :: EditCall :: expected_calls rest converged
      end
  end.

(** The cycle numbers of the reviews among some agent calls, in order. *)
Definition review_cycles_of (calls : list AgentCall) : list Z :=
  omap (fun call => match call with ReviewCall c => Some c | EditCall => None end)
    calls.

(** A computation that is silent for the loop: it starts no agent and logs
    no warning. *)
Definition silent `{Collaborators} {A : Type} (m : M A) : Prop :=
  forall e, exists evs,
    trace (m e).2 = trace e ++ evs /\ agent_calls evs = [] /\ warned evs = false.

(** The feedback in the result of a review action, when it carries one. *)
Definition feedback_in (r : AgentResult Reviewer.ReviewData) : option ReviewFeedback :=
  Reviewer.data_feedback <$> data r.

(** ** The marker blocks of a section review *)

(** The field marker a line of a section review starts with, once
    stripped. *)
Definition marker_of (raw : string) : option string :=
  List.find (fun m => Str.startswith (Str.strip raw) m) Reviewer.field_markers.

(** A marker line of a reply: its marker and its value, which is the
    stripped line without the text of the marker, stripped again. *)
Definition marker_entry (raw : string) : option (string * string) :=
  (fun m => (m, Str.strip (Str.replace (Str.strip raw) m ""))) <$> marker_of raw.

(** The marker lines of a reply, in order. *)
Definition marker_entries (response : string) : list (string * string) :=
  omap marker_entry (Str.splitlines response).

(** The marker lines cut into blocks in front of every [ISSUE:] line;
    [current] is the block being read. *)
Fixpoint blocks_from (current : list (string * string))
    (entries : list (string * string)) : list (list (string * string)) :=
  match entries with
  | [] => match current with [] => [] | _ => [current] end
  | mv :: rest =>
      if String.eqb mv.1 "ISSUE:"
      then match current with [] => [] | _ => [current] end
           ++ blocks_from [mv] rest
      else blocks_from (current ++ [mv]) rest
  end.

(** The marker blocks of a reply. *)
Definition marker_blocks (response : string) : list (list (string * string)) :=
  blocks_from [] (marker_entries response).

(** The field a marker fills. *)
Definition field_key (marker : string) : string :=
  if String.eqb marker "ISSUE:" then "category"
  else if String.eqb marker "SEVERITY:" then "severity"
  else if String.eqb marker "LOCATION:" then "location"
  else if String.eqb marker "DESCRIPTION:" then "description"
  else "suggestion".

(** The fields of a block: where a field has several lines, the last one
    counts. *)
Definition block_fields (block : list (string * string)) : gmap string string :=
  list_to_map (reverse ((fun mv => (field_key mv.1, mv.2)) <$> block)).

(** The value of the last line of a block for a field. *)
Definition last_value (key : string) (block : list (string * string))
    : option string :=
  snd <$> last (List.filter (fun mv => String.eqb (field_key mv.1) key) block).

(** ** Scenarios *)

(** A review that reports two major issues. *)
Definition two_major_issues : string :=
  "ISSUE: MISSING_CITATION
SEVERITY: MAJOR
LOCATION: X
DESCRIPTION: the claim has no source
SUGGESTION: cite one
---
ISSUE: VAGUE_CLAIM
SEVERITY: MAJOR
LOCATION: X
DESCRIPTION: the claim is vague
SUGGESTION: say what is meant".

(** A review that reports one critical issue. *)
Definition one_critical_issue : string :=
  "ISSUE: LOGIC_ERROR
SEVERITY: CRITICAL
LOCATION: the argument
DESCRIPTION: the conclusion does not follow
SUGGESTION: rework the argument".

(** The first scenario of the specification: two major issues at cycle 1,
    none at cycle 2. *)
Definition converging_script : list string :=
  [two_major_issues; "NO_ISSUES: fine"; "CONSISTENT: aligned";
   "X revised";
   "NO_ISSUES: fine"; "NO_ISSUES: fine"; "CONSISTENT: aligned"].

(** The second scenario: a critical issue in the introduction at every
    cycle. *)
Definition stubborn_script : list string :=
  [one_critical_issue; "NO_ISSUES: fine"; "CONSISTENT: aligned"; "X1";
   one_critical_issue; "NO_ISSUES: fine"; "CONSISTENT: aligned"; "X2";
   one_critical_issue; "NO_ISSUES: fine"; "CONSISTENT: aligned"; "X3"].

(** What a run of the loop leaves: the version of the draft, the text of
    the introduction, the approval and the resolved flags of the feedback
    kept, the agent calls and whether the warning was logged. *)
Definition loop_summary (min_cycles max_cycles : Z) (script : list string)
    : option (Z * string * option bool * list bool) * list AgentCall * bool :=
  let r := @Orchestrator._stage_review_edit_loop scripted
             (Orchestrator.mkPaperConfig min_cycles max_cycles)
             (Orchestrator.mkWorkflowState Orchestrator.INIT
                (draft_of [("introduction", "X"); ("conclusion", "Y")]) None 0)
             (start script) in
  (match r.1 with
   | Orchestrator.Returned st' =>
       Some (version (Orchestrator.draft st'),
             get_section (Orchestrator.draft st') INTRODUCTION,
             approved <$> Orchestrator.feedback st',
             match Orchestrator.feedback st' with
             | Some fb => resolved <$> issues fb
             | None => []
             end)
   | Orchestrator.Raised _ => None
   end,
   agent_calls (trace r.2), warned (trace r.2)).

(** A feedback with issues of severities minor, critical, major, minor in
    the introduction, and one issue of the consistency check. *)
Definition mixed_feedback : ReviewFeedback :=
  feedback_of 1
    [issue_at "introduction" MINOR "a" "first minor";
     issue_at "introduction" CRITICAL "b" "critical";
     issue_at "cross-section" MAJOR "" "contradiction";
     issue_at "introduction" MAJOR "c" "major";
     issue_at "introduction" MINOR "d" "second minor"]
    false.

(** The descriptions of the issues listed in the rewrite requests of a
    trace, request by request. *)
Definition listed_in (evs : list Event) : list (list string) :=
  omap
    (fun ev =>
       match ev with
       | Generate (EditSectionPrompt listed _) _ => Some (description <$> listed)
       | _ => None
       end)
    evs.

(** ** The single edits of the editor ([src/agents/editor.py]) *)

(** What the prompts of the single edits are built from. *)
Inductive EditorPrompt :=
  | EditIssuePrompt (issue : ReviewIssue) (content : string)
  | AddCitationsPrompt (citations : list (string * string * string))
      (content : string)
  | ImproveClarityPrompt (content : string).

(** The model as the single edits ask it; it answers in the world of the
    other collaborators. *)
Class SingleEditModel `{Collaborators} := {
  llm_edit : EditorPrompt -> Z -> World -> string * World;
}.

Module EditorActions.

(** The [data] dict returned by [_edit_issue]; [issue_id] is rendered with
    [str] in the source. *)
Record IssueEditData := mkIssueEditData {
  issue_section : string;
  edited_issue_id : UUID;
  edited : bool;
  issue_word_count : Z;
}.

(** The [data] dict returned by [add_citations]. *)
Record CitationData := mkCitationData {
  citation_section : string;
  citations_added : nat;
}.

(** The [data] dict returned by [improve_clarity]. *)
Record ClarityData := mkClarityData {
  clarity_section : string;
  improved : bool;
  clarity_word_count : Z;
}.

Section Agent.
Context `{SingleEditModel}.

(** [await self.generate(prompt, max_tokens=...)] for the prompts of the
    single edits. *)
Definition generate_edit (p : EditorPrompt) (max_tokens : Z) : M string :=
  fun e =>
    let (r, w) := llm_edit p max_tokens (world e) in
    (r, mkEnv w (trace e)).

(** [_edit_issue(draft, issue)]: the result, the draft and the issue
    object, which it marks. *)
Definition _edit_issue (draft : PaperDraft) (issue : ReviewIssue)
    : M (AgentResult IssueEditData * PaperDraft * ReviewIssue) :=
  if String.eqb (section (location issue)) "" then
    ret (mkAgentResult false None (Some "Issue has no section specified"),
         draft, issue)
  else
    match SectionType_of_value (section (location issue)) with
    | None =>
        ret (mkAgentResult false None
               (Some ("Invalid section: " +:+ section (location issue))),
             draft, issue)
    | Some section_type =>
        let content := get_section draft section_type in
        if String.eqb content "" then
          ret (mkAgentResult false None
                 (Some ("Section " +:+ SectionType_value section_type
                        +:+ " is empty")),
               draft, issue)
        else
          edited_content <- generate_edit (EditIssuePrompt issue content)
                              (count_words content * 2) ;;
          draft' <- set_section draft section_type edited_content ;;
          ret (mkAgentResult true
                 (Some (mkIssueEditData (SectionType_value section_type)
                          (issue_id issue) true (count_words edited_content)))
                 None,
               draft', mark_resolved issue)
    end.

(** [add_citations(draft, section_type, citations_to_add)] *)
Definition add_citations (draft : PaperDraft) (section_type : SectionType)
    (citations_to_add : list (gmap string string))
    : M (AgentResult CitationData * PaperDraft) :=
  let content := get_section draft section_type in
  let citations :=
    (fun c : gmap string string =>
       (default "" (c !! "location"), default "" (c !! "claim"),
        default "" (c !! "citation"))) <$> citations_to_add in
  edited_content <- generate_edit (AddCitationsPrompt citations content)
                      (count_words content * 2) ;;
  draft' <- set_section draft section_type edited_content ;;
  ret (mkAgentResult true
         (Some (mkCitationData (SectionType_value section_type)
                  (length citations_to_add)))
         None,
       draft').

(** [improve_clarity(draft, section_type)] *)
Definition improve_clarity (draft : PaperDraft) (section_type : SectionType)
    : M (AgentResult ClarityData * PaperDraft) :=
  let content := get_section draft section_type in
  edited_content <- generate_edit (ImproveClarityPrompt content)
                      (count_words content * 2) ;;
  draft' <- set_section draft section_type edited_content ;;
  ret (mkAgentResult true
         (Some (mkClarityData (SectionType_value section_type) true
                  (count_words edited_content)))
         None,
       draft').

End Agent.

End EditorActions.

(** ** More string operations *)

Module Text.

Definition is_upper (c : ascii) : bool :=
  let n := nat_of_ascii c in Nat.leb 65 n && Nat.leb n 90.

Definition is_lower (c : ascii) : bool :=
  let n := nat_of_ascii c in Nat.leb 97 n && Nat.leb n 122.

Definition to_upper (c : ascii) : ascii :=
  if is_lower c then ascii_of_nat (nat_of_ascii c - 32) else c.

Definition to_lower (c : ascii) : ascii :=
  if is_upper c then ascii_of_nat (nat_of_ascii c + 32) else c.

(** [s.title()] on ASCII text: a letter that follows a letter is put in
    lower case, any other letter in upper case. *)
Fixpoint title_go (previous_is_cased : bool) (s : string) : string :=
  match s with
  | EmptyString => EmptyString
  | String c s' =>
      if is_upper c || is_lower c then
        String (if previous_is_cased then to_lower c else to_upper c)
          (title_go true s')
      else String c (title_go false s')
  end.

Definition title (s : string) : string := title_go false s.

(** [c.lower()] for a code point below 256: the letters [A] to [Z], and
    the capital letters of Latin-1 from U+00C0 to U+00DE but the
    multiplication sign U+00D7. *)
Definition lower_char (c : ascii) : ascii :=
  let n := nat_of_ascii c in
  if (Nat.leb 65 n && Nat.leb n 90)
     || (Nat.leb 192 n && Nat.leb n 222 && negb (Nat.eqb n 215))
  then ascii_of_nat (n + 32) else c.

(** [s.lower()] *)
Fixpoint lower (s : string) : string :=
  match s with
  | EmptyString => EmptyString
  | String c s' => String (lower_char c) (lower s')
  end.

End Text.

(** ** The full text of a draft ([src/models/paper.py]) *)

(** ["\n\n"] *)
Definition blank_line : string := String Str.LF (String Str.LF EmptyString).

(** [section_type.value.replace('_', ' ').title()] *)
Definition section_heading (s : SectionType) : string :=
  Text.title (Str.replace (SectionType_value s) "_" " ").

(** [f"## {heading}\n\n{content}"] *)
Definition section_block (s : SectionType) (content : string) : string :=
  "## " +:+ section_heading s +:+ blank_line +:+ content.

(** [draft.get_full_text()] *)
Definition get_full_text (d : PaperDraft) : string :=
  let section_order :=
    [ABSTRACT; INTRODUCTION; LITERATURE_REVIEW; THEORETICAL_FRAMEWORK;
     METHODOLOGY; ANALYSIS; DISCUSSION; CONCLUSION; REFERENCES] in
  let parts :=
    fold_left
      (fun parts section_type =>
         let content := get_section d section_type in
         if negb (String.eqb content "")
         then parts ++ [section_block section_type content]
         else parts)
      section_order [] in
  Str.join blank_line parts.

(** ** Sources and their deduplication
    ([src/models/source.py], [src/agents/source_finder.py]) *)

Module Sources.

Inductive SourceType := ARXIV | WEB | BOOK | JOURNAL.

Inductive CredibilityRating := HIGH | MEDIUM | LOW.

(** The dataclass [Source]; its [id] is [source_id] here.
    [relevance_score] is a float in the source; nothing modelled here
    computes with it, so its type is left open. *)
Record Source (Score : Type) := mkSource {
  source_id : UUID;
  session_id : option UUID;
  title : string;
  authors : list string;
  year : option Z;
  url : string;
  doi : option string;
  abstract : string;
  full_text : option string;
  summary : string;
  source_type : SourceType;
  relevance_score : Score;
  credibility_rating : CredibilityRating;
  is_accessible : bool;
  retrieved_at : datetime;
  journal_name : option string;
  volume : option string;
  issue : option string;
  pages : option string;
  publisher : option string;
}.
Arguments title {Score}.
Arguments url {Score}.

Section Deduplication.
Context {Score : Type}.

(** [source.url.lower().strip()] *)
Definition url_key (source : Source Score) : string :=
  Str.strip (Text.lower (url source)).

(** [source.title.lower().strip()[:50]] *)
Definition title_key (source : Source Score) : string :=
  Str.slice_to 50 (Str.strip (Text.lower (title source))).

(** The body of the loop of [_deduplicate_sources], on [seen_urls],
    [seen_titles] and [unique]. *)
Definition dedup_step
    (st : gset string * gset string * list (Source Score))
    (source : Source Score)
    : gset string * gset string * list (Source Score) :=
  let '(seen_urls, seen_titles, unique) := st in
  if bool_decide (url_key source ∉ seen_urls)
     && bool_decide (title_key source ∉ seen_titles)
  then ({[url_key source]} ∪ seen_urls, {[title_key source]} ∪ seen_titles,
        unique ++ [source])
  else st.

(** [_deduplicate_sources(sources)] *)
Definition _deduplicate_sources (sources : list (Source Score))
    : list (Source Score) :=
  (fold_left dedup_step sources (∅, ∅, [])).2.

End Deduplication.

(** The lines of [_generate_search_queries] after the model's reply:
    [queries = [q.strip() for q in response.split("\n") if q.strip()]],
    the topic put first when it is not among them, and [queries[:5]]. *)
Definition stripped_lines (response : string) : list string :=
  omap (fun q => if negb (String.eqb (Str.strip q) "")
                 then Some (Str.strip q) else None)
    (Str.splitlines response).

Definition search_queries (topic response : string) : list string :=
  let queries := stripped_lines response in
  let queries :=
    if bool_decide (topic ∈ queries) then queries else topic :: queries in
  take 5 queries.

End Sources.

(** ** Dictionaries: [to_dict] and [from_dict]
    ([src/models/review.py], [src/models/paper.py]) *)

(** The values of a dictionary.  Numbers are integers: none of the fields
    read here is declared a float. *)
#[warnings="-register-all"]
Inductive PyVal :=
  | PyNone
  | PyBool (b : bool)
  | PyInt (n : Z)
  | PyStr (s : string)
  | PyList (l : list PyVal)
  | PyDict (d : list (string * PyVal)).

(** [data.get(key)]: the value under [key], if any. *)
Definition py_get (data : list (string * PyVal)) (key : string) : option PyVal :=
  snd <$> List.find (fun kv => String.eqb (fst kv) key) data.

(** The truth value of [v], as [if v] tests it. *)
Definition truthy (v : PyVal) : bool :=
  match v with
  | PyNone => false
  | PyBool b => b
  | PyInt n => negb (Z.eqb n 0)
  | PyStr s => negb (String.eqb s "")
  | PyList l => match l with [] => false | _ => true end
  | PyDict d => match d with [] => false | _ => true end
  end.

Inductive Exn :=
  | KeyError (key : string)
  | ValueError
  | TypeError
  | AttributeError.

(** What a [from_dict] comes to: the object, every field holding a value
    of the type the dataclass declares; an exception; or, without any
    exception, an object one of whose fields holds a value of another
    type, which the records here do not represent. *)
Inductive Loaded (A : Type) :=
  | Built (a : A)
  | Raised (exn : Exn)
  | Untyped.
Arguments Built {A}.
Arguments Raised {A}.
Arguments Untyped {A}.

(** The text forms of the library types: [str(u)] and [UUID(s)],
    [t.isoformat()] and [datetime.fromisoformat(s)], [None] where Python
    raises [ValueError].  A rendering is never empty and reads back as the
    value rendered. *)
Class Renderings := {
  uuid_str : UUID -> string;
  uuid_of_str : string -> option UUID;
  isoformat : datetime -> string;
  fromisoformat : string -> option datetime;
  uuid_of_str_str : forall u, uuid_of_str (uuid_str u) = Some u;
  uuid_str_nonempty : forall u, uuid_str u <> "";
  fromisoformat_isoformat : forall t, fromisoformat (isoformat t) = Some t;
  isoformat_nonempty : forall t, isoformat t <> "";
}.

Definition IssueType_members : list IssueType :=
  [MISSING_CITATION; INCONSISTENCY; VAGUE_CLAIM; FORMAT_ERROR;
   STYLE_ISSUE; GRAMMAR_ERROR; LOGIC_ERROR; INCOMPLETE_ARGUMENT].

(** [issue_type.value] *)
Definition IssueType_value (t : IssueType) : string :=
  match t with
  | MISSING_CITATION => "missing_citation"
  | INCONSISTENCY => "inconsistency"
  | VAGUE_CLAIM => "vague_claim"
  | FORMAT_ERROR => "format_error"
  | STYLE_ISSUE => "style_issue"
  | GRAMMAR_ERROR => "grammar_error"
  | LOGIC_ERROR => "logic_error"
  | INCOMPLETE_ARGUMENT => "incomplete_argument"
  end.

(** [IssueType(name)] *)
Definition IssueType_of_value (name : string) : option IssueType :=
  List.find (fun t => String.eqb (IssueType_value t) name) IssueType_members.

(** [severity.value] *)
Definition IssueSeverity_value (s : IssueSeverity) : string :=
  match s with CRITICAL => "critical" | MAJOR => "major" | MINOR => "minor" end.

(** [IssueSeverity(name)] *)
Definition IssueSeverity_of_value (name : string) : option IssueSeverity :=
  List.find (fun s => String.eqb (IssueSeverity_value s) name)
    [CRITICAL; MAJOR; MINOR].

(** [status.value] *)
Definition DraftStatus_value (s : DraftStatus) : string :=
  match s with DRAFT => "draft" | IN_REVIEW => "in_review" | APPROVED => "approved" end.

(** [DraftStatus(name)] *)
Definition DraftStatus_of_value (name : string) : option DraftStatus :=
  List.find (fun s => String.eqb (DraftStatus_value s) name)
    [DRAFT; IN_REVIEW; APPROVED].

Module Dicts.

(** A field that keeps the value it is given, whatever its type; a truth
    value where an integer is declared counts as a value of another
    type. *)
Definition typed_str (v : PyVal) : Loaded string :=
  match v with PyStr s => Built s | _ => Untyped end.

Definition typed_int (v : PyVal) : Loaded Z :=
  match v with PyInt n => Built n | _ => Untyped end.

Definition typed_bool (v : PyVal) : Loaded bool :=
  match v with PyBool b => Built b | _ => Untyped end.

(** A [dict[str, str]] field. *)
Definition typed_sections (v : PyVal) : Loaded (gmap string string) :=
  match v with
  | PyDict d =>
      match mapM (fun kv : string * PyVal =>
                    match snd kv with
                    | PyStr s => Some (fst kv, s)
                    | _ => None
                    end) d with
      | Some l => Built (list_to_map l)
      | None => Untyped
      end
  | _ => Untyped
  end.

(** [E(v)] for an enumeration [E] of strings: [ValueError] unless [v] is
    the value of a member. *)
Definition load_enum {E : Type} (of_value : string -> option E) (v : PyVal)
    : Loaded E :=
  match v with
  | PyStr s => match of_value s with
               | Some x => Built x
               | None => Raised ValueError
               end
  | _ => Raised ValueError
  end.

Section Load.
Context `{Collaborators} `{Renderings}.

(** [UUID(v)]: [None] is no argument at all, any other value that is no
    string has no [replace]. *)
Definition load_uuid (v : PyVal) : Loaded UUID :=
  match v with
  | PyStr s => match uuid_of_str s with
               | Some u => Built u
               | None => Raised ValueError
               end
  | PyNone => Raised TypeError
  | _ => Raised AttributeError
  end.

(** [datetime.fromisoformat(v)] *)
Definition load_datetime (v : PyVal) : Loaded datetime :=
  match v with
  | PyStr s => match fromisoformat s with
               | Some t => Built t
               | None => Raised ValueError
               end
  | _ => Raised TypeError
  end.

(** The arguments of a constructor call are evaluated from left to
    right: an exception ends the evaluation, a value of another type than
    declared does not. *)
Definition lap {A B : Type} (mf : M (Loaded (A -> B))) (ma : M (Loaded A))
    : M (Loaded B) :=
  f <- mf ;;
  match f with
  | Raised exn => ret (Raised exn)
  | Built f' =>
      a <- ma ;;
      ret (match a with
           | Built a' => Built (f' a')
           | Raised exn => Raised exn
           | Untyped => Untyped
           end)
  | Untyped =>
      a <- ma ;;
      ret (match a with
           | Raised exn => Raised exn
           | _ => Untyped
           end)
  end.

Local Notation "f <*> a" := (lap f a) (at level 50, left associativity).

(** [UUID(data[key]) if data.get(key) else uuid4()] *)
Definition uuid_or_fresh (data : list (string * PyVal)) (key : string)
    : M (Loaded UUID) :=
  match py_get data key with
  | Some v => if truthy v then ret (load_uuid v)
              else u <- fresh_uuid ;; ret (Built u)
  | None => u <- fresh_uuid ;; ret (Built u)
  end.

(** [UUID(data[key]) if data.get(key) else None] *)
Definition uuid_or_none (data : list (string * PyVal)) (key : string)
    : M (Loaded (option UUID)) :=
  match py_get data key with
  | Some v => if truthy v
              then ret (match load_uuid v with
                        | Built u => Built (Some u)
                        | Raised exn => Raised exn
                        | Untyped => Untyped
                        end)
              else ret (Built None)
  | None => ret (Built None)
  end.

(** [datetime.fromisoformat(data[key]) if data.get(key) else datetime.now()] *)
Definition datetime_or_now (data : list (string * PyVal)) (key : string)
    : M (Loaded datetime) :=
  match py_get data key with
  | Some v => if truthy v then ret (load_datetime v)
              else t <- now ;; ret (Built t)
  | None => t <- now ;; ret (Built t)
  end.

(** [[f(x) for x in l]] *)
Fixpoint load_list {A : Type} (f : PyVal -> M (Loaded A)) (l : list PyVal)
    : M (Loaded (list A)) :=
  match l with
  | [] => ret (Built [])
  | x :: rest => ret (Built cons) <*> f x <*> load_list f rest
  end.

(** [IssueLocation.to_dict()] *)
Definition IssueLocation_to_dict (loc : IssueLocation) : PyVal :=
  PyDict [("section", PyStr (section loc));
          ("paragraph", PyInt (paragraph loc));
          ("text_excerpt", PyStr (text_excerpt loc))].

(** [IssueLocation.from_dict(data)] *)
Definition IssueLocation_from_dict (data : list (string * PyVal))
    : M (Loaded IssueLocation) :=
  ret (Built mkIssueLocation)
  <*> ret (match py_get data "section" with
           | Some v => typed_str v
           | None => Raised (KeyError "section")
           end)
  <*> ret (typed_int (default (PyInt 0) (py_get data "paragraph")))
  <*> ret (typed_str (default (PyStr "") (py_get data "text_excerpt"))).

(** [ReviewIssue.to_dict()] *)
Definition ReviewIssue_to_dict (i : ReviewIssue) : PyVal :=
  PyDict [("id", PyStr (uuid_str (issue_id i)));
          ("issue_type", PyStr (IssueType_value (issue_type i)));
          ("severity", PyStr (IssueSeverity_value (severity i)));
          ("location", IssueLocation_to_dict (location i));
          ("description", PyStr (description i));
          ("suggested_fix", PyStr (suggested_fix i));
          ("resolved", PyBool (resolved i))].

(** [ReviewIssue.from_dict(data)] *)
Definition ReviewIssue_from_dict (data : list (string * PyVal))
    : M (Loaded ReviewIssue) :=
  ret (Built mkReviewIssue)
  <*> uuid_or_fresh data "id"
  <*> ret (load_enum IssueType_of_value
             (default (PyStr "vague_claim") (py_get data "issue_type")))
  <*> ret (load_enum IssueSeverity_of_value
             (default (PyStr "minor") (py_get data "severity")))
  <*> match default (PyDict [("section", PyStr "")]) (py_get data "location") with
      | PyDict d => IssueLocation_from_dict d
      | _ => ret (Raised TypeError)
      end
  <*> ret (typed_str (default (PyStr "") (py_get data "description")))
  <*> ret (typed_str (default (PyStr "") (py_get data "suggested_fix")))
  <*> ret (typed_bool (default (PyBool false) (py_get data "resolved"))).

(** [ReviewFeedback.to_dict()] *)
Definition ReviewFeedback_to_dict (f : ReviewFeedback) : PyVal :=
  PyDict [("id", PyStr (uuid_str (feedback_id f)));
          ("draft_id", match draft_id f with
                       | Some u => PyStr (uuid_str u)
                       | None => PyNone
                       end);
          ("cycle", PyInt (cycle f));
          ("issues", PyList (ReviewIssue_to_dict <$> issues f));
          ("overall_assessment", PyStr (overall_assessment f));
          ("approved", PyBool (approved f));
          ("created_at", PyStr (isoformat (feedback_created_at f)))].

(** [ReviewIssue.from_dict(i)] on an element of the list of issues: a
    value that is no dict has no [get]. *)
Definition issue_of_element (v : PyVal) : M (Loaded ReviewIssue) :=
  match v with
  | PyDict d => ReviewIssue_from_dict d
  | _ => ret (Raised AttributeError)
  end.

(** [[ReviewIssue.from_dict(i) for i in v]]: a dict or a string is
    iterated over its keys or characters, which are no dicts; [None], a
    number or a truth value cannot be iterated. *)
Definition issues_of (v : PyVal) : M (Loaded (list ReviewIssue)) :=
  match v with
  | PyList l => load_list issue_of_element l
  | PyDict [] | PyStr EmptyString => ret (Built [])
  | PyDict (_ :: _) | PyStr (String _ _) => ret (Raised AttributeError)
  | PyNone | PyBool _ | PyInt _ => ret (Raised TypeError)
  end.

(** [ReviewFeedback.from_dict(data)] *)
Definition ReviewFeedback_from_dict (data : list (string * PyVal))
    : M (Loaded ReviewFeedback) :=
  ret (Built mkReviewFeedback)
  <*> uuid_or_fresh data "id"
  <*> uuid_or_none data "draft_id"
  <*> ret (typed_int (default (PyInt 1) (py_get data "cycle")))
  <*> issues_of (default (PyList []) (py_get data "issues"))
  <*> ret (typed_str (default (PyStr "") (py_get data "overall_assessment")))
  <*> ret (typed_bool (default (PyBool false) (py_get data "approved")))
  <*> datetime_or_now data "created_at".

(** [PaperDraft.to_dict()]; the dict of sections is the draft's own. *)
Definition PaperDraft_to_dict (d : PaperDraft) : PyVal :=
  PyDict [("id", PyStr (uuid_str (paper_id d)));
          ("session_id", match session_id d with
                         | Some u => PyStr (uuid_str u)
                         | None => PyNone
                         end);
          ("version", PyInt (version d));
          ("sections",
           PyDict ((fun kv : string * string => (fst kv, PyStr (snd kv)))
                   <$> map_to_list (sections d)));
          ("word_count", PyInt (word_count d));
          ("status", PyStr (DraftStatus_value (status d)));
          ("review_cycle", PyInt (review_cycle d));
          ("created_at", PyStr (isoformat (created_at d)));
          ("updated_at", PyStr (isoformat (updated_at d)))].

(** [PaperDraft.from_dict(data)] *)
Definition PaperDraft_from_dict (data : list (string * PyVal))
    : M (Loaded PaperDraft) :=
  ret (Built mkPaperDraft)
  <*> ret (match py_get data "id" with
           | Some v => load_uuid v
           | None => Raised (KeyError "id")
           end)
  <*> uuid_or_none data "session_id"
  <*> ret (typed_int (default (PyInt 1) (py_get data "version")))
  <*> ret (typed_sections (default (PyDict []) (py_get data "sections")))
  <*> ret (typed_int (default (PyInt 0) (py_get data "word_count")))
  <*> ret (load_enum DraftStatus_of_value
             (default (PyStr "draft") (py_get data "status")))
  <*> ret (typed_int (default (PyInt 0) (py_get data "review_cycle")))
  <*> datetime_or_now data "created_at"
  <*> datetime_or_now data "updated_at".

End Load.

End Dicts.

(** Renderings to run the dictionaries on: tally marks after a letter or
    a sign. *)
Fixpoint tally (n : nat) : string :=
  match n with
  | O => EmptyString
  | S n' => String "1" (tally n')
  end.

Definition tally_renderings : Renderings :=
  {| uuid_str := fun u => String "u" (tally (N.to_nat u));
     uuid_of_str := fun s =>
       match s with
       | String "u" rest => Some (N.of_nat (String.length rest))
       | _ => None
       end;
     isoformat := fun t =>
       String (if Z.ltb t 0 then "-" else "+")%char (tally (Z.abs_nat t));
     fromisoformat := fun s =>
       match s with
       | String "-" rest => Some (- Z.of_nat (String.length rest))
       | String "+" rest => Some (Z.of_nat (String.length rest))
       | _ => None
       end;
     uuid_of_str_str := ltac:(
       intros u;
       assert (Hlen : forall n, String.length (tally n) = n)
         by (induction n; simpl; congruence);
       cbv beta iota zeta; rewrite Hlen; f_equal; apply N2Nat.id);
     uuid_str_nonempty := ltac:(discriminate);
     fromisoformat_isoformat := ltac:(
       intros t;
       assert (Hlen : forall n, String.length (tally n) = n)
         by (induction n; simpl; congruence);
       cbv beta iota zeta; destruct (Z.ltb_spec t 0); cbv beta iota zeta;
       rewrite Hlen; f_equal; lia);
     isoformat_nonempty := ltac:(discriminate) |}.

(** ** Scripted runs of the further code *)

(** The single edits against a script: the model answers with the next
    reply. *)
Definition scripted_edits : @SingleEditModel scripted :=
  @Build_SingleEditModel scripted
    (fun _ _ (w : Script) =>
       (hd "" (replies w), mkScript (tl (replies w)) (next_uuid w) (clock w))).

(** A web source with the given address and title. *)
Definition source_at (address name : string) : Sources.Source unit :=
  Sources.mkSource unit 0%N None name [] None address None "" None ""
    Sources.WEB tt Sources.MEDIUM true 0 None None None None None.

(** A reply of six queries, the topic last. *)
Definition six_queries : string :=
  "graph kernels
  kernel methods for graphs

learning on graphs
graph similarity
structured data
graphs".

(** ** Vocabulary of the further properties *)

(** A finding of the consistency check, as [_check_consistency] files it. *)
Definition consistency_finding (i : ReviewIssue) : Prop :=
  issue_type i = INCONSISTENCY /\ severity i = MAJOR /\
  location i = mkIssueLocation "cross-section" 0 "" /\
  suggested_fix i = "" /\ resolved i = false.

(** The lines of a consistency reply that report a finding: the marker
    comes first on the line, the line is not stripped. *)
Definition inconsistency_lines (response : string) : list string :=
  List.filter (fun line => Str.startswith line "INCONSISTENCY:")
    (Str.splitlines response).

(** The model's reply to the consistency prompt of [draft], asked in the
    world of [e]. *)
Definition consistency_reply `{Collaborators} (draft : PaperDraft) (e : Env)
    : string :=
  (llm_generate
     (ConsistencyPrompt (get_section draft ABSTRACT)
        (Str.slice_to 1000 (get_section draft INTRODUCTION))
        (Str.slice_to 1000 (get_section draft CONCLUSION)))
     1000 (world e)).1.

(** The model's reply to the review prompt for the section [s] of [draft]
    at cycle [c], asked in the world of [e]. *)
Definition section_reply `{Collaborators} (draft : PaperDraft) (c : Z)
    (s : SectionType) (e : Env) : string :=
  (llm_generate
     (ReviewSectionPrompt s (Str.slice_to 5000 (get_section draft s)) c)
     2000 (world e)).1.

(** Where a review at cycle [c] files an issue: under a section kind that
    has text in the draft, with the fields of a marker block of the
    model's reply for that section, or at the cross-section location of a
    consistency finding. *)
Definition located_by_review `{Collaborators} (draft : PaperDraft) (c : Z)
    (i : ReviewIssue) : Prop :=
  (exists s, filed_under s i /\ get_section draft s <> ""
             /\ exists e1 b, b ∈ marker_blocks (section_reply draft c s e1)
                             /\ built_from (block_fields b) i)
  \/ consistency_finding i.

Definition at_cross_section (i : ReviewIssue) : bool :=
  String.eqb (section (location i)) "cross-section".

(** The markers of the lines of a response, in order. *)
Definition marker_lines (response : string) : list string :=
  omap marker_of (Str.splitlines response).

(** The number of [ISSUE:] markers in a list of markers. *)
Definition issue_markers (ms : list string) : nat :=
  length (List.filter (String.eqb "ISSUE:") ms).

(** [feedback.get_critical_issues()] ([src/models/review.py]) *)
Definition get_critical_issues (f : ReviewFeedback) : list ReviewIssue :=
  List.filter (fun i => IssueSeverity_eqb (severity i) CRITICAL) (issues f).

(** [feedback.get_major_issues()] *)
Definition get_major_issues (f : ReviewFeedback) : list ReviewIssue :=
  List.filter (fun i => IssueSeverity_eqb (severity i) MAJOR) (issues f).

(** Whether the block being collected holds a field: [if current_issue]. *)
Definition pending (current_issue : gmap string string) : nat :=
  if bool_decide (current_issue = ∅) then 0%nat else 1%nat.

(** What a pass of fixes does to an issue: it is marked resolved when its
    section is a section kind that has text in the draft. *)
Definition resolve_where_rewritten (draft : PaperDraft) (i : ReviewIssue)
    : ReviewIssue :=
  if rewritten draft (section (location i)) then mark_resolved i else i.

(** The unresolved issues a pass of fixes has the model address. *)
Definition addressed (draft : PaperDraft) (l : list ReviewIssue)
    : list ReviewIssue :=
  List.filter
    (fun i => negb (resolved i) && rewritten draft (section (location i))) l.

(** [draft.version += 1] *)
Definition bump_version (d : PaperDraft) : PaperDraft :=
  mkPaperDraft (paper_id d) (session_id d) (version d + 1) (sections d)
    (word_count d) (status d) (review_cycle d) (created_at d) (updated_at d).

Definition is_generate (ev : Event) : bool :=
  match ev with Generate _ _ => true | _ => false end.

(** [draft.review_cycle = cycle] *)
Definition set_review_cycle (d : PaperDraft) (c : Z) : PaperDraft :=
  mkPaperDraft (paper_id d) (session_id d) (version d) (sections d)
    (word_count d) (status d) c (created_at d) (updated_at d).

(** The draft after [set_section(s, content)] at time [t]. *)
Definition section_set (d : PaperDraft) (s : SectionType) (content : string)
    (t : datetime) : PaperDraft :=
  mkPaperDraft (paper_id d) (session_id d) (version d)
    (<[SectionType_value s := content]> (sections d))
    (total_words (<[SectionType_value s := content]> (sections d)))
    (status d) (review_cycle d) (created_at d) t.

(** What the review-edit loop can do to a draft: rewrite a section that
    has text, bump the version, set the review cycle. *)
Definition loop_invariant (P : PaperDraft -> Prop) : Prop :=
  (forall d s content t, get_section d s <> "" -> P d -> P (section_set d s content t))
  /\ (forall d, P d -> P (bump_version d))
  /\ (forall d c, P d -> P (set_review_cycle d c)).

(** The word count is the number of words of the sections. *)
Definition counted (d : PaperDraft) : Prop :=
  word_count d = total_words (sections d).

(** What a draft keeps of the draft [d0] it comes from: its identity, its
    status, its section keys, and no text where [d0] had none. *)
Definition same_paper (d0 d : PaperDraft) : Prop :=
  paper_id d = paper_id d0 /\ session_id d = session_id d0 /\
  status d = status d0 /\ created_at d = created_at d0 /\
  dom (sections d) = dom (sections d0) /\
  forall s, get_section d0 s = "" -> get_section d s = "".

(** The text [s] ends with [suffix]. *)
Definition ends_with (s suffix : string) : Prop :=
  exists pre, s = pre +:+ suffix.

(** The request to the model behind an event, if it is one. *)
Definition request_of (ev : Event) : option (Prompt * Z) :=
  match ev with
  | Generate p max_tokens => Some (p, max_tokens)
  | _ => None
  end.

(** The section kinds of a draft that have text, in the order of the
    kinds. *)
Definition populated (draft : PaperDraft) : list SectionType :=
  List.filter (fun s => negb (String.eqb (get_section draft s) ""))
    SectionType_members.

(** What a review at cycle [c] asks about the section [s]. *)
Definition section_request (draft : PaperDraft) (c : Z) (s : SectionType)
    : Event :=
  Generate (ReviewSectionPrompt s (Str.slice_to 5000 (get_section draft s)) c) 2000.

(** What a review asks about the consistency of a draft. *)
Definition consistency_request (draft : PaperDraft) : Event :=
  Generate
    (ConsistencyPrompt (get_section draft ABSTRACT)
       (Str.slice_to 1000 (get_section draft INTRODUCTION))
       (Str.slice_to 1000 (get_section draft CONCLUSION)))
    1000.

(** * Properties *)

(** Name the result of the next collaborator call or sub-computation. *)
Ltac run_step :=
  match goal with
  | |- context [match ?m with pair _ _ => _ end] =>
      let x := fresh "x" in
      let e := fresh "e" in
      destruct m as [x e] eqn:?; simpl
  end.

Lemma severity_eqb_eq (a b : IssueSeverity) :
  IssueSeverity_eqb a b = true <-> a = b.
Proof. destruct a, b; simpl; split; congruence. Qed.

Lemma length_filter_zero {A} (p : A -> bool) (l : list A) :
  Nat.eqb (length (List.filter p l)) 0 = true <->
  forall x, x ∈ l -> p x = false.
Proof.
  rewrite Nat.eqb_eq. induction l as [|a l IH]; simpl.
  - split; [intros _ x Hx; inversion Hx | reflexivity].
  - destruct (p a) eqn:Hpa; simpl.
    + split; [discriminate|].
      intros Hall. specialize (Hall a (list_elem_of_here a l)). congruence.
    + rewrite IH. split.
      * intros Hall x Hx. apply elem_of_cons in Hx as [->|Hx]; auto.
      * intros Hall x Hx. apply Hall. by apply list_elem_of_further.
Qed.

Lemma no_critical_major_spec (l : list ReviewIssue) :
  Reviewer.no_critical_major l = true <->
  forall i, i ∈ l -> ~ blocks_approval i.
Proof.
  unfold Reviewer.no_critical_major. rewrite length_filter_zero.
  split; intros Hall i Hi.
  - specialize (Hall i Hi). intros [[Hs|Hs] Hr]; rewrite Hs, Hr in Hall; discriminate.
  - destruct (_ && _) eqn:Hb; [|reflexivity].
    exfalso. apply (Hall i Hi).
    apply andb_true_iff in Hb as [Hs Hr]. apply negb_true_iff in Hr.
    apply orb_true_iff in Hs. split; [|exact Hr].
    destruct Hs as [Hs|Hs]; apply severity_eqb_eq in Hs; auto.
Qed.

Lemma has_critical_issues_spec (f : ReviewFeedback) :
  has_critical_issues f = false <->
  forall i, i ∈ issues f -> ~ unresolved_critical i.
Proof.
  unfold has_critical_issues, unresolved_critical.
  induction (issues f) as [|a l IH]; simpl.
  - split; [intros _ i Hi; inversion Hi | reflexivity].
  - rewrite orb_false_iff, IH. split.
    + intros [Ha Hl] i Hi. apply elem_of_cons in Hi as [->|Hi]; [|by apply Hl].
      intros [Hs Hr]. rewrite Hs, Hr in Ha. discriminate.
    + intros Hall. split.
      * destruct (_ && _) eqn:Hb; [|reflexivity].
        exfalso. apply (Hall a (list_elem_of_here a l)).
        apply andb_true_iff in Hb as [Hs Hr].
        apply severity_eqb_eq in Hs. apply negb_true_iff in Hr. done.
      * intros i Hi. apply Hall. by apply list_elem_of_further.
Qed.

Lemma blocks_of_unresolved_critical (i : ReviewIssue) :
  unresolved_critical i -> blocks_approval i.
Proof. intros [Hs Hr]. split; auto. Qed.

(** ** Strings *)

Lemma append_cons (a : ascii) (s t : string) :
  String a s +:+ t = String a (s +:+ t).
Proof. reflexivity. Qed.

Lemma append_nil_l (s : string) : "" +:+ s = s.
Proof. reflexivity. Qed.

Lemma append_nil_r (s : string) : s +:+ "" = s.
Proof. induction s as [|a s IH]; [done|]. by rewrite append_cons, IH. Qed.

Lemma append_assoc (a b c : string) : (a +:+ b) +:+ c = a +:+ (b +:+ c).
Proof.
  induction a as [|x a IH]; [done|]. by rewrite !append_cons, IH.
Qed.

Lemma append_eq_nil (a b : string) : a +:+ b = "" -> a = "" /\ b = "".
Proof. destruct a; [by rewrite append_nil_l|]. rewrite append_cons. discriminate. Qed.

Lemma startswith_nil (s : string) : Str.startswith s "" = true.
Proof. by destruct s. Qed.

Lemma startswith_spec (s p : string) :
  Str.startswith s p = true <-> exists post, s = p +:+ post.
Proof.
  revert s. induction p as [|a p IH]; intros s; simpl.
  - rewrite startswith_nil. split; [intros _; by exists s|done].
  - destruct s as [|b s].
    + simpl. split; [done|]. intros [post Hpost]. rewrite append_cons in Hpost. discriminate.
    + simpl. rewrite andb_true_iff, Ascii.eqb_eq, IH. split.
      * intros [-> [post ->]]. by exists post.
      * intros [post Hpost]. rewrite append_cons in Hpost.
        injection Hpost as -> ->. eauto.
Qed.

Lemma contains_empty (p : string) :
  Str.contains "" p = Str.startswith "" p.
Proof. simpl. apply orb_false_r. Qed.

Lemma contains_cons (c : ascii) (s p : string) :
  Str.contains (String c s) p
  = Str.startswith (String c s) p || Str.contains s p.
Proof. reflexivity. Qed.

Lemma contains_spec (s p : string) :
  Str.contains s p = true <-> found_verbatim p s.
Proof.
  unfold found_verbatim. induction s as [|c s IH].
  - rewrite contains_empty, startswith_spec. split.
    + intros [post Hpost]. by exists "", post.
    + intros (pre & post & Heq). symmetry in Heq.
      apply append_eq_nil in Heq as [-> Heq].
      apply append_eq_nil in Heq as [-> ->]. by exists "".
  - rewrite contains_cons, orb_true_iff, IH, startswith_spec. split.
    + intros [[post Hpost]|(pre & post & ->)].
      * by exists "", post.
      * by exists (String c pre), post.
    + intros ([|c' pre] & post & Heq).
      * left. by exists post.
      * right. rewrite append_cons in Heq. injection Heq as -> ->. eauto.
Qed.

Lemma contains_nil (s : string) : Str.contains s "" = true.
Proof. destruct s; simpl; by rewrite ?startswith_nil. Qed.

Lemma contains_in_nil (p : string) : p <> "" -> Str.contains "" p = false.
Proof. destruct p; [done|reflexivity]. Qed.

Lemma split_space (c : ascii) (s : string) :
  Str.isspace c = true -> Str.split (String c s) = Str.split s.
Proof. intros Hc. simpl. by rewrite Hc. Qed.

Lemma split_word (c : ascii) (s : string) :
  Str.isspace c = false ->
  Str.split (String c s)
  = match s with
    | EmptyString => [String c EmptyString]
    | String c' _ =>
        if Str.isspace c' then String c EmptyString :: Str.split s
        else match Str.split s with
             | w :: ws => String c w :: ws
             | [] => [String c EmptyString]
             end
    end.
Proof. intros Hc. simpl. rewrite Hc. by destruct s. Qed.

Lemma word_starts_cons (b : bool) (c : ascii) (s : string) :
  word_starts b (String c s)
  = if Str.isspace c then word_starts true s
    else ((if b then 1 else 0) + word_starts false s)%nat.
Proof. reflexivity. Qed.

(** [s.split()] has one word per word start. *)
Lemma split_word_starts (s : string) :
  length (Str.split s) = word_starts true s /\
  word_starts false s
  = (length (Str.split s)
     - match s with
       | EmptyString => 0
       | String c _ => if Str.isspace c then 0 else 1
       end)%nat.
Proof.
  induction s as [|c s [IHa IHb]]; [done|].
  rewrite !word_starts_cons. destruct (Str.isspace c) eqn:Hc.
  - rewrite split_space by done. lia.
  - rewrite split_word by done. destruct s as [|c' s']; [simpl; lia|].
    destruct (Str.isspace c') eqn:Hc'.
    + cbn [length]. lia.
    + destruct (Str.split (String c' s')) as [|w ws]; cbn [length] in *; lia.
Qed.

Lemma count_words_word_starts (content : string) :
  count_words content = Z.of_nat (word_starts true content).
Proof. unfold count_words. by rewrite (proj1 (split_word_starts content)). Qed.

Lemma total_words_sum (m : gmap string string) :
  total_words m
  = foldr Z.add 0 ((fun kv => Z.of_nat (word_starts true kv.2)) <$> map_to_list m).
Proof.
  unfold total_words. rewrite map_fold_foldr.
  induction (map_to_list m) as [|[k v] l IH]; [done|].
  simpl. by rewrite IH, count_words_word_starts.
Qed.

Lemma total_words_insert (m : gmap string string) (k content : string) :
  total_words (<[k := content]> m)
  = count_words content + total_words (delete k m).
Proof.
  unfold total_words. rewrite <- insert_delete_eq.
  rewrite map_fold_insert_L; [done| |apply lookup_delete_eq].
  intros. lia.
Qed.

Lemma found_verbatim_cons (c : ascii) (t s : string) :
  found_verbatim t s -> found_verbatim t (String c s).
Proof. intros (pre & post & ->). by exists (String c pre), post. Qed.

Lemma found_verbatim_trans (a b c : string) :
  found_verbatim a b -> found_verbatim b c -> found_verbatim a c.
Proof.
  intros (pre & post & ->) (pre' & post' & ->).
  exists (pre' +:+ pre), (post +:+ post'). by rewrite !append_assoc.
Qed.

(** The pieces of [s.split(sep)] are pieces of [s]; the first is its start. *)
Lemma split_on_pieces (sep : ascii) (s : string) :
  exists w ws post,
    Str.split_on sep s = w :: ws /\ s = w +:+ post /\
    forall line, line ∈ ws -> found_verbatim line s.
Proof.
  induction s as [|c s (w & ws & post & Hsplit & Hs & Hws)]; simpl.
  - exists "", [], "". split_and!; try done. intros line Hin.
    by apply elem_of_nil in Hin.
  - rewrite Hsplit. destruct (Ascii.eqb c sep).
    + exists "", (w :: ws), (String c s). split_and!; try done.
      intros line Hin. apply found_verbatim_cons.
      apply elem_of_cons in Hin as [->|Hin]; [|by apply Hws].
      exists "", post. by rewrite append_nil_l.
    + exists (String c w), ws, post. split_and!; try done.
      * by rewrite append_cons, <- Hs.
      * intros line Hin. by apply found_verbatim_cons, Hws.
Qed.

Lemma splitlines_found (s line : string) :
  line ∈ Str.splitlines s -> found_verbatim line s.
Proof.
  unfold Str.splitlines.
  destruct (split_on_pieces Str.LF s) as (w & ws & post & -> & Hs & Hws).
  intros Hin. apply elem_of_cons in Hin as [->|Hin]; [|by apply Hws].
  exists "", post. by rewrite append_nil_l.
Qed.

Lemma lstrip_suffix (s : string) : exists pre, s = pre +:+ Str.lstrip s.
Proof.
  induction s as [|c s [pre IH]]; simpl.
  - by exists "".
  - destruct (Str.isspace c).
    + exists (String c pre). by rewrite append_cons, <- IH.
    + by exists "".
Qed.

Lemma rstrip_prefix (s : string) : exists post, s = Str.rstrip s +:+ post.
Proof.
  induction s as [|c s [post IH]]; simpl.
  - by exists "".
  - destruct (Str.rstrip s) as [|c' r].
    + rewrite append_nil_l in IH. subst post.
      destruct (Str.isspace c); [by exists (String c s)|by exists s].
    + exists post. by rewrite append_cons, <- IH.
Qed.

Lemma strip_found (s : string) : found_verbatim (Str.strip s) s.
Proof.
  unfold Str.strip.
  destruct (lstrip_suffix s) as [pre Hpre].
  destruct (rstrip_prefix (Str.lstrip s)) as [post Hpost].
  exists pre, post. by rewrite <- Hpost.
Qed.

(** A line whose stripped text starts with a marker comes from a response
    that contains the marker. *)
Lemma marker_line_found (response line marker : string) :
  line ∈ Str.splitlines response ->
  Str.startswith (Str.strip line) marker = true ->
  found_verbatim marker response.
Proof.
  intros Hline Hstart. apply startswith_spec in Hstart as [post Hpost].
  apply (found_verbatim_trans _ (Str.strip line)).
  - exists "", post. by rewrite append_nil_l.
  - apply (found_verbatim_trans _ line); [apply strip_found|].
    by apply splitlines_found.
Qed.

(** ** Section names *)

Lemma SectionType_of_value_value (s : SectionType) :
  SectionType_of_value (SectionType_value s) = Some s.
Proof. by destruct s. Qed.

Lemma SectionType_of_value_Some (name : string) (s : SectionType) :
  SectionType_of_value name = Some s -> SectionType_value s = name.
Proof.
  unfold SectionType_of_value. intros Hfind.
  apply find_some in Hfind as [_ Heq]. by apply bool_decide_eq_true in Heq.
Qed.

Lemma section_content_known (draft : PaperDraft) (s : SectionType) :
  Reviewer.section_content draft (SectionType_value s) = get_section draft s.
Proof.
  unfold Reviewer.section_content. rewrite SectionType_of_value_value.
  rewrite bool_decide_eq_true_2; [done|].
  apply list_elem_of_In, in_map. destruct s; simpl; tauto.
Qed.

Lemma section_content_unknown (draft : PaperDraft) (name : string) :
  SectionType_of_value name = None ->
  Reviewer.section_content draft name = "".
Proof.
  unfold Reviewer.section_content. intros ->. by destruct (bool_decide _).
Qed.

Lemma found_verbatim_nil (content : string) : found_verbatim "" content.
Proof. by exists "", content. Qed.

Lemma excerpt_gone_true (draft : PaperDraft) (i : ReviewIssue) :
  Reviewer.excerpt_gone draft i = true <->
  ~ found_verbatim (text_excerpt (location i))
      (Reviewer.section_content draft (section (location i))).
Proof.
  unfold Reviewer.excerpt_gone.
  rewrite andb_true_iff, !negb_true_iff, String.eqb_neq.
  rewrite <- contains_spec, not_true_iff_false. split; [tauto|].
  intros Hno. split; [|done]. intros Hnil. rewrite Hnil, contains_nil in Hno.
  discriminate.
Qed.

(** ** The stable sort *)

Section Sorting.
Context {A : Type} (key : A -> nat).

Lemma insert_by_app (x : A) (l1 l2 : list A) :
  Forall (fun y => (key y < key x)%nat) l1 ->
  Forall (fun y => (key x <= key y)%nat) l2 ->
  Editor.insert_by key x (l1 ++ l2) = l1 ++ x :: l2.
Proof.
  intros Hlt Hle. induction Hlt as [|y l1 Hy _ IH]; simpl.
  - destruct Hle as [|y l2 Hy _]; simpl; [done|].
    by rewrite (proj2 (Nat.leb_le _ _) Hy).
  - rewrite (proj2 (Nat.leb_gt _ _) Hy). by rewrite IH.
Qed.

Lemma Forall_filter_key (k : nat) (l : list A) :
  Forall (fun y => key y = k) (List.filter (fun y => Nat.eqb (key y) k) l).
Proof.
  apply List.Forall_forall. intros y Hy.
  apply filter_In in Hy as [_ Hy]. by apply Nat.eqb_eq.
Qed.

(** With keys below three, the sort is the elements of key 0, then those
    of key 1, then those of key 2, each in their original order. *)
Lemma sort_by_three (l : list A) :
  Forall (fun y => (key y < 3)%nat) l ->
  Editor.sort_by key l
  = List.filter (fun y => Nat.eqb (key y) 0) l
    ++ List.filter (fun y => Nat.eqb (key y) 1) l
    ++ List.filter (fun y => Nat.eqb (key y) 2) l.
Proof.
  induction 1 as [|x l Hx _ IH]; [done|].
  change (Editor.sort_by key (x :: l))
    with (Editor.insert_by key x (Editor.sort_by key l)).
  rewrite IH. clear IH.
  pose proof (Forall_filter_key 0 l) as H0.
  pose proof (Forall_filter_key 1 l) as H1.
  pose proof (Forall_filter_key 2 l) as H2.
  simpl List.filter.
  destruct (key x) as [|[|[|n]]] eqn:Hk; [| | |lia]; simpl Nat.eqb; cbv iota.
  - apply (insert_by_app x []); [constructor|].
    rewrite Hk. apply List.Forall_forall. intros; lia.
  - apply insert_by_app.
    + rewrite Hk. eapply Forall_impl; [exact H0|]. simpl. intros; lia.
    + rewrite Hk. apply Forall_app. split.
      * eapply Forall_impl; [exact H1|]. simpl. intros; lia.
      * eapply Forall_impl; [exact H2|]. simpl. intros; lia.
  - rewrite !app_assoc. rewrite <- (app_assoc _ _ (x :: _)).
    rewrite app_assoc. apply insert_by_app.
    + rewrite Hk. apply Forall_app. split.
      * eapply Forall_impl; [exact H0|]. simpl. intros; lia.
      * eapply Forall_impl; [exact H1|]. simpl. intros; lia.
    + rewrite Hk. eapply Forall_impl; [exact H2|]. simpl. intros; lia.
Qed.

Lemma insert_by_Forall (P : A -> Prop) (x : A) (l : list A) :
  P x -> Forall P l -> Forall P (Editor.insert_by key x l).
Proof.
  intros Hx. induction 1 as [|y l Hy Hl IH]; simpl.
  - by constructor.
  - destruct (Nat.leb _ _); repeat constructor; auto.
Qed.

Lemma sort_by_Forall (P : A -> Prop) (l : list A) :
  Forall P l -> Forall P (Editor.sort_by key l).
Proof.
  induction 1 as [|x l Hx Hl IH]; [constructor|].
  by apply insert_by_Forall.
Qed.

Lemma insert_by_Permutation (x : A) (l : list A) :
  Editor.insert_by key x l ≡ₚ x :: l.
Proof.
  induction l as [|y l IH]; simpl; [done|].
  destruct (Nat.leb _ _); [done|]. rewrite IH. apply Permutation_swap.
Qed.

Lemma sort_by_Permutation (l : list A) : Editor.sort_by key l ≡ₚ l.
Proof.
  induction l as [|x l IH]; [done|].
  change (Editor.sort_by key (x :: l))
    with (Editor.insert_by key x (Editor.sort_by key l)).
  by rewrite insert_by_Permutation, IH.
Qed.

End Sorting.

(** Sorting references by the key of what they point to is sorting what
    they point to. *)
Section SortingReferences.
Context {A B : Type} (g : A -> option B) (key : B -> nat).

Lemma insert_by_omap (r : A) (y : B) (l : list A) :
  g r = Some y ->
  Forall (fun r' => is_Some (g r')) l ->
  omap g
    (Editor.insert_by
       (fun r => match g r with Some y => key y | None => 3%nat end) r l)
  = Editor.insert_by key y (omap g l).
Proof.
  intros Hr. induction 1 as [|r' l [y' Hr'] _ IH]; simpl.
  - by rewrite Hr.
  - rewrite Hr, Hr'.
    destruct (Nat.leb (key y) (key y')) eqn:Hle; simpl; rewrite ?Hr, ?Hr', ?Hle;
      [done|].
    f_equal. exact IH.
Qed.

Lemma sort_by_omap (l : list A) :
  Forall (fun r => is_Some (g r)) l ->
  omap g
    (Editor.sort_by
       (fun r => match g r with Some y => key y | None => 3%nat end) l)
  = Editor.sort_by key (omap g l).
Proof.
  induction 1 as [|r l [y Hr] Hl IH]; [done|].
  change (Editor.sort_by ?k (r :: l))
    with (Editor.insert_by k r (Editor.sort_by k l)).
  rewrite (insert_by_omap r y) by (done || by apply sort_by_Forall).
  simpl. by rewrite Hr, IH.
Qed.

End SortingReferences.

Lemma sort_by_severity (l : list ReviewIssue) :
  Editor.sort_by (fun i => Editor.severity_rank (severity i)) l = by_severity l.
Proof.
  rewrite sort_by_three.
  - unfold by_severity, of_severity. f_equal; [|f_equal];
      apply filter_ext; intros i; by destruct (severity i).
  - apply List.Forall_forall. intros i _. destruct (severity i); simpl; lia.
Qed.

(** The issues behind a sorted group are the issues behind the group,
    severity first. *)
Lemma deref_sorted (store : list ReviewIssue) (refs : list nat) :
  Forall (fun r => is_Some (store !! r)) refs ->
  Editor.deref store (Editor.sort_by (Editor.rank_of store) refs)
  = by_severity (Editor.deref store refs).
Proof.
  intros Hrefs. unfold Editor.deref.
  rewrite <- sort_by_severity.
  by rewrite <- (sort_by_omap (fun r => store !! r)
                   (fun i => Editor.severity_rank (severity i))).
Qed.

(** ** Grouping by section *)

Lemma group_refs_add (name name' : string) (r : nat)
    (groups : list (string * list nat)) :
  group_refs name' (Editor.group_add name r groups)
  = if String.eqb name name' then group_refs name' groups ++ [r]
    else group_refs name' groups.
Proof.
  unfold group_refs. induction groups as [|[k refs] rest IH]; simpl.
  - by destruct (String.eqb name name').
  - destruct (String.eqb k name) eqn:Hk; simpl.
    + apply String.eqb_eq in Hk as ->. by destruct (String.eqb name name').
    + destruct (String.eqb k name') eqn:Hk'; [|exact IH].
      apply String.eqb_eq in Hk' as ->. by rewrite String.eqb_sym, Hk.
Qed.

Lemma group_add_keys (name : string) (r : nat)
    (groups : list (string * list nat)) (k : string) :
  k ∈ (Editor.group_add name r groups).*1 <-> k = name \/ k ∈ groups.*1.
Proof.
  induction groups as [|[k' refs] rest IH]; simpl.
  - rewrite list_elem_of_singleton, elem_of_nil. tauto.
  - destruct (String.eqb k' name) eqn:Hk; simpl.
    + apply String.eqb_eq in Hk as ->. rewrite elem_of_cons. tauto.
    + rewrite !elem_of_cons, IH. tauto.
Qed.

Lemma group_add_NoDup (name : string) (r : nat)
    (groups : list (string * list nat)) :
  NoDup groups.*1 -> NoDup (Editor.group_add name r groups).*1.
Proof.
  induction groups as [|[k refs] rest IH]; simpl; intros Hnd.
  - apply NoDup_singleton.
  - apply NoDup_cons in Hnd as [Hk Hrest].
    destruct (String.eqb k name) eqn:Hkn; simpl.
    + by apply NoDup_cons.
    + apply NoDup_cons. split; [|by apply IH].
      rewrite group_add_keys. apply String.eqb_neq in Hkn. tauto.
Qed.

Lemma group_refs_member (name : string) (refs : list nat)
    (groups : list (string * list nat)) :
  NoDup groups.*1 -> (name, refs) ∈ groups -> group_refs name groups = refs.
Proof.
  unfold group_refs. induction groups as [|[k refs'] rest IH]; simpl; intros Hnd Hin.
  - by apply elem_of_nil in Hin.
  - apply NoDup_cons in Hnd as [Hk Hrest].
    apply elem_of_cons in Hin as [Heq|Hin].
    + injection Heq as -> ->. by rewrite String.eqb_refl.
    + destruct (String.eqb k name) eqn:Hkn; [|by apply IH].
      apply String.eqb_eq in Hkn as ->. exfalso. apply Hk.
      apply list_elem_of_fmap. by exists (name, refs).
Qed.

(** The step of the grouping loop. *)
Lemma group_fold (name : string) (l : list (nat * ReviewIssue))
    (groups : list (string * list nat)) :
  let step := fun (groups : list (string * list nat)) (ri : nat * ReviewIssue) =>
    if negb (resolved ri.2)
    then Editor.group_add (section (location ri.2)) ri.1 groups
    else groups in
  group_refs name (fold_left step l groups)
  = group_refs name groups
    ++ (List.filter
          (fun ri : nat * ReviewIssue =>
             negb (resolved ri.2) && String.eqb (section (location ri.2)) name)
          l).*1 /\
  (NoDup groups.*1 -> NoDup (fold_left step l groups).*1).
Proof.
  intros step. revert groups.
  induction l as [|[r i] l IH]; intros groups; simpl.
  - by rewrite app_nil_r.
  - destruct (IH (step groups (r, i))) as [IHrefs IHnd].
    rewrite IHrefs. clear IHrefs.
    assert (Hstep : step groups (r, i)
                    = if negb (resolved i)
                      then Editor.group_add (section (location i)) r groups
                      else groups) by reflexivity.
    destruct (resolved i); simpl in *.
    + rewrite Hstep in *. done.
    + rewrite Hstep in *. split.
      * rewrite group_refs_add.
        destruct (String.eqb (section (location i)) name); simpl; [|done].
        by rewrite <- app_assoc.
      * intros Hnd. apply IHnd. by apply group_add_NoDup.
Qed.

(** The positions of a list, paired with its elements, seen from a list
    that it ends. *)
Lemma elem_of_indexed (pre store : list ReviewIssue) (r : nat) (i : ReviewIssue) :
  (r, i) ∈ combine (seq (length pre) (length store)) store <->
  (length pre <= r)%nat /\ (pre ++ store) !! r = Some i.
Proof.
  revert pre. induction store as [|x rest IH]; intros pre; simpl.
  - rewrite elem_of_nil, app_nil_r. split; [done|].
    intros [Hle Hr]. apply lookup_lt_Some in Hr. lia.
  - rewrite elem_of_cons.
    specialize (IH (pre ++ [x])). rewrite length_app in IH. simpl in IH.
    rewrite <- (Nat.add_1_r (length pre)), IH, <- app_assoc. simpl.
    split.
    + intros [Heq|[Hle Hr]]; [|split; [lia|done]].
      injection Heq as -> ->. split; [lia|]. by rewrite list_lookup_middle.
    + intros [Hle Hr].
      destruct (decide (r = length pre)) as [->|Hne].
      * left. rewrite list_lookup_middle in Hr by done. congruence.
      * right. split; [lia|done].
Qed.

Lemma deref_indexed (p : ReviewIssue -> bool) (pre store : list ReviewIssue) :
  omap (fun r => (pre ++ store) !! r)
    (List.filter (fun ri : nat * ReviewIssue => p ri.2)
       (combine (seq (length pre) (length store)) store)).*1
  = List.filter p store.
Proof.
  revert pre. induction store as [|x rest IH]; intros pre; [done|].
  specialize (IH (pre ++ [x])). rewrite length_app, <- app_assoc in IH.
  simpl in IH. rewrite Nat.add_1_r in IH.
  simpl. destruct (p x); simpl; [|exact IH].
  rewrite list_lookup_middle by done. f_equal. exact IH.
Qed.

Lemma group_refs_nonempty (name : string) (groups : list (string * list nat)) :
  group_refs name groups <> [] -> (name, group_refs name groups) ∈ groups.
Proof.
  unfold group_refs. destruct (List.find _ groups) as [[k refs]|] eqn:Hfind; [|done].
  intros _. apply find_some in Hfind as [Hin Hk]. simpl in *.
  apply String.eqb_eq in Hk as ->. by apply list_elem_of_In.
Qed.

(** The groups of [group_by_section]: one per section name, holding the
    positions of the unresolved issues located there, in feedback order. *)
Lemma group_by_section_spec (store : list ReviewIssue) :
  NoDup (Editor.group_by_section store).*1 /\
  forall name,
    Editor.deref store (group_refs name (Editor.group_by_section store))
    = unresolved_in name store /\
    (forall r, r ∈ group_refs name (Editor.group_by_section store) <->
               exists i, store !! r = Some i /\ resolved i = false /\
                         section (location i) = name).
Proof.
  unfold Editor.group_by_section. split.
  - apply (group_fold "" (combine (seq 0 (length store)) store) []). constructor.
  - intros name.
    rewrite (proj1 (group_fold name (combine (seq 0 (length store)) store) [])).
    change (group_refs name []) with (@nil nat). rewrite app_nil_l. split.
    + apply (deref_indexed
               (fun i => negb (resolved i) && String.eqb (section (location i)) name)
               [] store).
    + intros r. rewrite list_elem_of_fmap. split.
      * intros ([r' i] & -> & Hin). simpl.
        apply list_elem_of_In, filter_In in Hin as [Hin Hp].
        apply list_elem_of_In, (elem_of_indexed [] store) in Hin as [_ Hr].
        simpl in *. apply andb_true_iff in Hp as [Hres Hsec].
        apply negb_true_iff in Hres. apply String.eqb_eq in Hsec. eauto.
      * intros (i & Hr & Hres & Hsec). exists (r, i). split; [done|].
        apply list_elem_of_In, filter_In. split.
        -- apply list_elem_of_In, (elem_of_indexed [] store). simpl. split; [lia|done].
        -- simpl. rewrite Hres, Hsec, String.eqb_refl. done.
Qed.

Lemma group_fold_resolved (l : list (nat * ReviewIssue))
    (groups : list (string * list nat)) :
  (forall ri, ri ∈ l -> resolved ri.2 = true) ->
  fold_left
    (fun (groups : list (string * list nat)) (ri : nat * ReviewIssue) =>
       if negb (resolved ri.2)
       then Editor.group_add (section (location ri.2)) ri.1 groups
       else groups)
    l groups
  = groups.
Proof.
  revert groups. induction l as [|ri l IH]; intros groups Hall; [done|]. simpl.
  rewrite (Hall ri) by apply list_elem_of_here. simpl.
  apply IH. intros ri' Hin. apply Hall. by apply list_elem_of_further.
Qed.

Lemma group_by_section_resolved (store : list ReviewIssue) :
  List.filter (fun i => negb (resolved i)) store = [] ->
  Editor.group_by_section store = [].
Proof.
  intros Hnone. unfold Editor.group_by_section.
  apply group_fold_resolved.
  intros [r i] Hin. apply list_elem_of_In, in_combine_r in Hin. simpl.
  destruct (resolved i) eqn:Hres; [done|].
  assert (Hi : In i (List.filter (fun i => negb (resolved i)) store)).
  { apply filter_In. by rewrite Hres. }
  rewrite Hnone in Hi. destruct Hi.
Qed.

Lemma with_issues_same (f : ReviewFeedback) : with_issues f (issues f) = f.
Proof. by destruct f. Qed.

Lemma resolved_count_mono (l l' : list ReviewIssue) :
  Forall2 (fun i i' => resolved i = true -> resolved i' = true) l l' ->
  (resolved_count l <= resolved_count l')%nat.
Proof.
  unfold resolved_count. induction 1 as [|i i' l l' Hi _ IH]; [done|]. simpl.
  destruct (resolved i) eqn:Hres.
  - rewrite Hi by done. simpl. lia.
  - destruct (resolved i'); simpl; lia.
Qed.

(** ** Marking issues through references *)

Lemma mark_resolved_idemp (i : ReviewIssue) :
  mark_resolved (mark_resolved i) = mark_resolved i.
Proof. reflexivity. Qed.

Lemma resolve_all_lookup (refs : list nat) (store : list ReviewIssue) (k : nat) :
  Editor.resolve_all refs store !! k
  = (if bool_decide (k ∈ refs) then mark_resolved else id) <$> store !! k.
Proof.
  unfold Editor.resolve_all. revert store.
  induction refs as [|r refs IH]; intros store; simpl.
  - by destruct (store !! k).
  - rewrite IH. destruct (decide (k = r)) as [->|Hne].
    + rewrite list_lookup_alter_eq.
      rewrite (bool_decide_eq_true_2 (r ∈ r :: refs)) by apply list_elem_of_here.
      destruct (store !! r); simpl; [|done]. by destruct (bool_decide _).
    + rewrite list_lookup_alter_ne by congruence.
      destruct (bool_decide (k ∈ refs)) eqn:Hk.
      * apply bool_decide_eq_true in Hk.
        rewrite bool_decide_eq_true_2; [done|]. by apply list_elem_of_further.
      * apply bool_decide_eq_false in Hk.
        rewrite bool_decide_eq_false_2; [done|].
        rewrite elem_of_cons. tauto.
Qed.

Lemma resolve_all_length (refs : list nat) (store : list ReviewIssue) :
  length (Editor.resolve_all refs store) = length store.
Proof.
  unfold Editor.resolve_all. revert store.
  induction refs as [|r refs IH]; intros store; simpl; [done|].
  by rewrite IH, length_alter.
Qed.

(** ** The tables of the parser *)

Lemma category_map_spec (c : string) (t : IssueType) :
  Reviewer.category_map !! c = Some t <-> IssueType_name t = c.
Proof.
  split.
  - intros Hc. apply elem_of_list_to_map_2 in Hc.
    repeat (apply elem_of_cons in Hc as [Hc|Hc]; [by injection Hc as -> ->|]).
    by apply elem_of_nil in Hc.
  - intros <-. by destruct t.
Qed.

Lemma severity_map_spec (c : string) (sev : IssueSeverity) :
  Reviewer.severity_map !! c = Some sev <-> IssueSeverity_name sev = c.
Proof.
  split.
  - intros Hc. apply elem_of_list_to_map_2 in Hc.
    repeat (apply elem_of_cons in Hc as [Hc|Hc]; [by injection Hc as -> ->|]).
    by apply elem_of_nil in Hc.
  - intros <-. by destruct sev.
Qed.

Section DraftFacts.
Context `{Collaborators}.

Lemma set_section_result (draft : PaperDraft) (s : SectionType) (content : string)
    (e : Env) :
  exists t w,
    set_section draft s content e =
      (mkPaperDraft (paper_id draft) (session_id draft) (version draft)
         (<[SectionType_value s := content]> (sections draft))
         (total_words (<[SectionType_value s := content]> (sections draft)))
         (status draft) (review_cycle draft) (created_at draft) t,
       mkEnv w (trace e)).
Proof.
  unfold set_section, bind, now, ret. simpl.
  destruct (datetime_now (world e)) as [t w]. eauto.
Qed.

(** C5. After [set_section draft s content], the stored [word_count] is
    the sum over all sections of the draft, as they are after the write, of
    the number of whitespace-separated words of the section's content,
    whatever count was stored before: the new content's words plus the
    words of the other sections.  The section written reads back as
    [content]. *)
Theorem set_section_recomputes_word_count
    (draft : PaperDraft) (s : SectionType) (content : string) (e : Env) :
  let d' := (set_section draft s content e).1 in
  word_count d' = sum_of_section_words d' /\
  word_count d'
  = count_words content
    + total_words (delete (SectionType_value s) (sections draft)) /\
  count_words content = Z.of_nat (word_starts true content) /\
  get_section d' s = content /\
  sections d' = <[SectionType_value s := content]> (sections draft).
Proof.
  destruct (set_section_result draft s content e) as (t & w & ->). simpl.
  unfold sum_of_section_words, get_section. simpl. split_and!.
  - apply total_words_sum.
  - apply total_words_insert.
  - apply count_words_word_starts.
  - by rewrite lookup_insert_eq.
  - reflexivity.
Qed.

End DraftFacts.

Section EditorFacts.
Context `{Collaborators}.

(** [_edit_section] on a section without text: a failure, nothing written. *)
Lemma edit_section_empty (draft : PaperDraft) (s : SectionType) (refs : list nat)
    (store : list ReviewIssue) (e : Env) :
  get_section draft s = "" ->
  Editor._edit_section draft s refs store e
  = (mkAgentResult false None
       (Some ("Section " +:+ SectionType_value s +:+ " is empty")),
     draft, store,
     mkEnv (world e) (trace e ++ [LogInfo (EditingIssues (length refs) s)])).
Proof.
  intros Hempty. unfold Editor._edit_section, bind, log_info, emit, ret. simpl.
  by rewrite Hempty.
Qed.

(** [_edit_section] on a section with text: one request to the model, the
    section replaced by the answer, every listed issue marked. *)
Lemma edit_section_rewrites (draft : PaperDraft) (s : SectionType)
    (refs : list nat) (store : list ReviewIssue) (e : Env) :
  get_section draft s <> "" ->
  exists edited t w,
    Editor._edit_section draft s refs store e
    = (mkAgentResult true
         (Some (Editor.mkEditData (SectionType_value s) (length refs)
                  (count_words edited)))
         None,
       mkPaperDraft (paper_id draft) (session_id draft) (version draft)
         (<[SectionType_value s := edited]> (sections draft))
         (total_words (<[SectionType_value s := edited]> (sections draft)))
         (status draft) (review_cycle draft) (created_at draft) t,
       Editor.resolve_all refs store,
       mkEnv w
         (trace e
          ++ [LogInfo (EditingIssues (length refs) s);
              Generate
                (EditSectionPrompt (Editor.deref store refs) (get_section draft s))
                (count_words (get_section draft s) * 2)])).
Proof.
  intros Htext. apply String.eqb_neq in Htext.
  unfold Editor._edit_section, bind, log_info, emit, ret, generate. simpl.
  rewrite Htext. simpl.
  destruct (llm_generate _ _ (world e)) as [edited w1].
  match goal with
  | |- context [set_section ?d ?s ?c ?e1] =>
      destruct (set_section_result d s c e1) as (t & w2 & ->)
  end.
  exists edited, t, w2. simpl. by rewrite <- app_assoc.
Qed.

(** What one iteration of the editing loop does. *)
Lemma edit_group_run (st : Editor.EditState) (name : string) (refs : list nat)
    (e : Env) :
  let r := Editor.edit_group st (name, refs) e in
  trace r.2 = trace e ++ group_events (Editor.cur_draft st) (Editor.cur_store st) (name, refs) /\
  version (Editor.cur_draft r.1) = version (Editor.cur_draft st) /\
  (forall s, SectionType_value s <> name ->
             get_section (Editor.cur_draft r.1) s = get_section (Editor.cur_draft st) s) /\
  (forall k, Editor.cur_store r.1 !! k
             = (if rewritten (Editor.cur_draft st) name && bool_decide (k ∈ refs)
                then mark_resolved else id) <$> Editor.cur_store st !! k) /\
  length (Editor.cur_store r.1) = length (Editor.cur_store st).
Proof.
  unfold Editor.edit_group, group_events, rewritten. simpl.
  destruct (SectionType_of_value name) as [s|] eqn:Hname.
  - unfold bind.
    destruct (decide (get_section (Editor.cur_draft st) s = "")) as [Hempty|Htext].
    + rewrite (edit_section_empty _ _ _ _ _ Hempty). simpl.
      rewrite Hempty. simpl. split_and!; try done.
      intros k. by destruct (_ !! k).
    + destruct (edit_section_rewrites _ s refs (Editor.cur_store st) e Htext)
        as (edited & t & w & ->). simpl.
      apply String.eqb_neq in Htext. rewrite Htext. simpl.
      split_and!; try done.
      * intros s' Hs'. unfold get_section. simpl.
        rewrite lookup_insert_ne; [done|].
        apply SectionType_of_value_Some in Hname. congruence.
      * intros k. apply resolve_all_lookup.
      * apply resolve_all_length.
  - unfold bind, log_error, emit, ret. simpl. split_and!; try done.
    intros k. by destruct (_ !! k).
Qed.

Lemma omap_ext_in {A B} (f g : A -> option B) (l : list A) :
  (forall x, x ∈ l -> f x = g x) -> omap f l = omap g l.
Proof.
  induction l as [|x l IH]; intros Hfg; [done|]. simpl.
  rewrite (Hfg x) by apply list_elem_of_here.
  assert (IH' : omap f l = omap g l).
  { apply IH. intros y Hy. apply Hfg. by apply list_elem_of_further. }
  destruct (g x); [f_equal|]; exact IH'.
Qed.

Lemma flat_map_ext_in {A B} (f g : A -> list B) (l : list A) :
  (forall x, x ∈ l -> f x = g x) -> flat_map f l = flat_map g l.
Proof.
  induction l as [|x l IH]; intros Hfg; [done|]. simpl.
  rewrite (Hfg x) by apply list_elem_of_here.
  rewrite IH; [done|]. intros y Hy. apply Hfg. by apply list_elem_of_further.
Qed.

Lemma existsb_ext_in {A} (f g : A -> bool) (l : list A) :
  (forall x, x ∈ l -> f x = g x) -> existsb f l = existsb g l.
Proof.
  induction l as [|x l IH]; intros Hfg; [done|]. simpl.
  rewrite (Hfg x) by apply list_elem_of_here.
  rewrite IH; [done|]. intros y Hy. apply Hfg. by apply list_elem_of_further.
Qed.

(** A group reads only the text of its own section and the issues behind
    its own references. *)
Lemma group_events_ext (d d' : PaperDraft) (store store' : list ReviewIssue)
    (g : string * list nat) :
  (forall s, SectionType_value s = g.1 -> get_section d' s = get_section d s) ->
  (forall k, k ∈ g.2 -> store' !! k = store !! k) ->
  group_events d' store' g = group_events d store g.
Proof.
  intros Hd Hstore. unfold group_events.
  destruct (SectionType_of_value g.1) as [s|] eqn:Hname; [|done].
  rewrite (Hd s) by by apply SectionType_of_value_Some.
  unfold Editor.deref. by rewrite (omap_ext_in _ (fun r => store !! r) g.2).
Qed.

Lemma rewritten_ext (d d' : PaperDraft) (name : string) :
  (forall s, SectionType_value s = name -> get_section d' s = get_section d s) ->
  rewritten d' name = rewritten d name.
Proof.
  intros Hd. unfold rewritten.
  destruct (SectionType_of_value name) as [s|] eqn:Hname; [|done].
  by rewrite (Hd s) by by apply SectionType_of_value_Some.
Qed.

(** The editing loop over groups with distinct names whose references
    point into their own sections: what it logs and asks, and what it
    leaves of the draft and of the issues. *)
Lemma edit_groups_run (groups : list (string * list nat)) (st : Editor.EditState)
    (e : Env) :
  NoDup groups.*1 ->
  owned (Editor.cur_store st) groups ->
  let r := for_each groups Editor.edit_group st e in
  trace r.2
  = trace e
    ++ flat_map (group_events (Editor.cur_draft st) (Editor.cur_store st)) groups /\
  version (Editor.cur_draft r.1) = version (Editor.cur_draft st) /\
  (forall s, SectionType_value s ∉ groups.*1 ->
             get_section (Editor.cur_draft r.1) s = get_section (Editor.cur_draft st) s) /\
  (forall k, Editor.cur_store r.1 !! k
             = (if touched (Editor.cur_draft st) groups k
                then mark_resolved else id) <$> Editor.cur_store st !! k) /\
  length (Editor.cur_store r.1) = length (Editor.cur_store st).
Proof.
  revert st e. induction groups as [|[name refs] rest IH]; intros st e Hnd Hown.
  - simpl. rewrite app_nil_r. split_and!; try done.
    intros k. by destruct (_ !! k).
  - apply NoDup_cons in Hnd as [Hname Hrest].
    cbn [for_each]. unfold bind.
    pose proof (edit_group_run st name refs e) as Hstep.
    destruct (Editor.edit_group st (name, refs) e) as [st1 e1]. simpl in Hstep.
    destruct Hstep as (Htr1 & Hv1 & Hsec1 & Hst1 & Hlen1).
    assert (Hother : forall name' refs', (name', refs') ∈ rest ->
              (forall s, SectionType_value s = name' ->
                 get_section (Editor.cur_draft st1) s
                 = get_section (Editor.cur_draft st) s) /\
              (forall k, k ∈ refs' ->
                 Editor.cur_store st1 !! k = Editor.cur_store st !! k)).
    { intros name' refs' Hin.
      assert (Hne : name' <> name).
      { intros ->. apply Hname. apply list_elem_of_fmap. by exists (name, refs'). }
      split.
      - intros s Hs. apply Hsec1. congruence.
      - intros k Hk. rewrite Hst1.
        destruct (Hown name' refs' (list_elem_of_further _ _ _ Hin) k Hk)
          as (i & Hi & Hsec).
        rewrite (bool_decide_eq_false_2 (k ∈ refs)).
        + rewrite andb_false_r. by destruct (_ !! k).
        + intros Hk'.
          destruct (Hown name refs (list_elem_of_here _ _) k Hk')
            as (i' & Hi' & Hsec').
          congruence. }
    assert (Hown1 : owned (Editor.cur_store st1) rest).
    { intros name' refs' Hin k Hk.
      destruct (Hown name' refs' (list_elem_of_further _ _ _ Hin) k Hk)
        as (i & Hi & Hsec).
      rewrite (proj2 (Hother name' refs' Hin) k Hk). eauto. }
    specialize (IH st1 e1 Hrest Hown1).
    destruct (for_each rest Editor.edit_group st1 e1) as [st2 e2]. simpl in *.
    destruct IH as (Htr2 & Hv2 & Hsec2 & Hst2 & Hlen2).
    split_and!.
    + rewrite Htr2, Htr1, <- app_assoc. f_equal. f_equal.
      apply flat_map_ext_in. intros [name' refs'] Hin.
      destruct (Hother name' refs' Hin) as [Hd Hs].
      by apply group_events_ext.
    + congruence.
    + intros s Hs. rewrite not_elem_of_cons in Hs. destruct Hs as [Hs1 Hs2].
      rewrite Hsec2 by done. by apply Hsec1.
    + intros k. rewrite Hst2, Hst1.
      assert (Ht : touched (Editor.cur_draft st1) rest k
                   = touched (Editor.cur_draft st) rest k).
      { apply existsb_ext_in. intros [name' refs'] Hin. simpl. f_equal.
        apply rewritten_ext. apply (Hother name' refs' Hin). }
      rewrite Ht. clear Ht.
      change (touched (Editor.cur_draft st) ((name, refs) :: rest) k)
        with (rewritten (Editor.cur_draft st) name && bool_decide (k ∈ refs)
              || touched (Editor.cur_draft st) rest k).
      destruct (Editor.cur_store st !! k) as [i|]; simpl; [|done].
      destruct (rewritten _ name && _), (touched _ rest k); simpl; reflexivity.
    + congruence.
Qed.

Lemma sort_groups_keys (store : list ReviewIssue)
    (groups : list (string * list nat)) :
  (Editor.sort_groups store groups).*1 = groups.*1.
Proof.
  unfold Editor.sort_groups.
  induction groups as [|[k refs] l IH]; [done|]. simpl. f_equal. exact IH.
Qed.

(** The groups that [_apply_all_fixes] edits. *)
Lemma sorted_groups_spec (store : list ReviewIssue) :
  let groups := Editor.sort_groups store (Editor.group_by_section store) in
  NoDup groups.*1 /\
  owned store groups /\
  (forall name refs, (name, refs) ∈ groups ->
     Editor.deref store refs = by_severity (unresolved_in name store) /\
     refs ≡ₚ group_refs name (Editor.group_by_section store)) /\
  (forall name, group_refs name (Editor.group_by_section store) <> [] ->
     exists refs, (name, refs) ∈ groups).
Proof.
  intros groups. subst groups.
  destruct (group_by_section_spec store) as [Hnd Hspec].
  pose proof (sort_groups_keys store (Editor.group_by_section store)) as Hkeys.
  assert (Hmem : forall name refs,
            (name, refs) ∈ Editor.sort_groups store (Editor.group_by_section store) ->
            refs = Editor.sort_by (Editor.rank_of store)
                     (group_refs name (Editor.group_by_section store))).
  { intros name refs Hin. unfold Editor.sort_groups in Hin.
    apply list_elem_of_In, in_map_iff in Hin as ([k refs0] & Heq & Hin).
    simpl in Heq. injection Heq as -> <-.
    apply list_elem_of_In in Hin.
    by rewrite (group_refs_member _ _ _ Hnd Hin). }
  split_and!.
  - by rewrite Hkeys.
  - intros name refs Hin k Hk. rewrite (Hmem name refs Hin) in Hk.
    rewrite sort_by_Permutation in Hk.
    apply (proj2 (Hspec name)) in Hk as (i & Hi & _ & Hsec). eauto.
  - intros name refs Hin. rewrite (Hmem name refs Hin). split.
    + rewrite deref_sorted; [by rewrite (proj1 (Hspec name))|].
      apply List.Forall_forall. intros r Hr.
      apply list_elem_of_In, (proj2 (Hspec name)) in Hr as (i & Hi & _).
      by exists i.
    + apply sort_by_Permutation.
  - intros name Hne. apply group_refs_nonempty in Hne.
    exists (Editor.sort_by (Editor.rank_of store)
              (group_refs name (Editor.group_by_section store))).
    unfold Editor.sort_groups. apply list_elem_of_In, in_map_iff.
    exists (name, group_refs name (Editor.group_by_section store)).
    split; [done|]. by apply list_elem_of_In.
Qed.

(** [_apply_all_fixes] in one statement: what it returns, what it logs and
    asks, and which issues it marks. *)
Lemma apply_all_fixes_run (draft : PaperDraft) (fb : ReviewFeedback) (e : Env) :
  let groups := Editor.sort_groups (issues fb) (Editor.group_by_section (issues fb)) in
  exists d' store' edited fixed e',
    Editor._apply_all_fixes draft fb e
    = (mkAgentResult true
         (Some (Editor.mkApplyData d' edited fixed (version draft + 1) true))
         None,
       d', with_issues fb store', e') /\
    version d' = version draft + 1 /\
    trace e'
    = trace e ++ LogInfo (ApplyingFixes (length (issues fb)))
              :: flat_map (group_events draft (issues fb)) groups /\
    (forall k, store' !! k
               = (if touched draft groups k then mark_resolved else id)
                 <$> issues fb !! k) /\
    length store' = length (issues fb) /\
    (groups = [] -> d' = mkPaperDraft (paper_id draft) (session_id draft)
                           (version draft + 1) (sections draft) (word_count draft)
                           (status draft) (review_cycle draft)
                           (created_at draft) (updated_at draft)
                    /\ edited = [] /\ store' = issues fb).
Proof.
  intros groups.
  destruct (sorted_groups_spec (issues fb)) as (Hnd & Hown & _).
  fold groups in Hnd, Hown.
  unfold Editor._apply_all_fixes, bind, log_info, emit, ret. simpl. fold groups.
  match goal with
  | |- context [for_each groups Editor.edit_group ?st ?e1] =>
      pose proof (edit_groups_run groups st e1 Hnd Hown) as Hrun;
      destruct (for_each groups Editor.edit_group st e1) as [st' e'] eqn:Hloop
  end.
  simpl in Hrun. destruct Hrun as (Htr & Hv & _ & Hst & Hlen).
  do 5 eexists. split; [rewrite <- Hv; reflexivity|]. simpl.
  split_and!; try done.
  - by rewrite Hv.
  - by rewrite Htr, <- app_assoc.
  - intros Hgroups. rewrite Hgroups in Hloop. simpl in Hloop.
    unfold ret in Hloop. injection Hloop as <- <-. done.
Qed.

(** An issue that no rewritten group refers to is left as it was. *)
Lemma untouched_outside_rewritten (draft : PaperDraft) (store : list ReviewIssue)
    (groups : list (string * list nat)) (k : nat) (i : ReviewIssue) :
  owned store groups ->
  store !! k = Some i ->
  rewritten draft (section (location i)) = false ->
  touched draft groups k = false.
Proof.
  intros Hown Hk Hnot. unfold touched.
  destruct (existsb _ groups) eqn:Hex; [|done].
  apply existsb_exists in Hex as ([name refs] & Hin & Hg). simpl in Hg.
  apply andb_true_iff in Hg as [Hrw Hmem]. apply bool_decide_eq_true in Hmem.
  apply list_elem_of_In in Hin.
  destruct (Hown name refs Hin k Hmem) as (i' & Hk' & Hsec).
  assert (i' = i) as -> by congruence. congruence.
Qed.

(** An issue that is already resolved is in no group. *)
Lemma untouched_resolved (draft : PaperDraft) (store : list ReviewIssue)
    (k : nat) (i : ReviewIssue) :
  store !! k = Some i ->
  resolved i = true ->
  touched draft (Editor.sort_groups store (Editor.group_by_section store)) k
  = false.
Proof.
  intros Hk Hres. unfold touched.
  destruct (existsb _ _) eqn:Hex; [|done].
  apply existsb_exists in Hex as ([name refs] & Hin & Hg). simpl in Hg.
  apply andb_true_iff in Hg as [_ Hmem]. apply bool_decide_eq_true in Hmem.
  apply list_elem_of_In in Hin.
  destruct (sorted_groups_spec store) as (_ & _ & Hspec & _).
  rewrite (proj2 (Hspec name refs Hin)) in Hmem.
  destruct (group_by_section_spec store) as [_ Hgroups].
  apply (proj2 (Hgroups name)) in Hmem as (i' & Hk' & Hres' & _).
  congruence.
Qed.

(** An unresolved issue belongs to the group named after its section. *)
Lemma unresolved_has_group (store : list ReviewIssue) (k : nat) (i : ReviewIssue) :
  store !! k = Some i ->
  resolved i = false ->
  exists refs,
    (section (location i), refs)
      ∈ Editor.sort_groups store (Editor.group_by_section store) /\
    k ∈ refs.
Proof.
  intros Hk Hres.
  destruct (group_by_section_spec store) as [_ Hspec].
  destruct (sorted_groups_spec store) as (_ & _ & Hmem & Hex).
  assert (Hin : k ∈ group_refs (section (location i)) (Editor.group_by_section store)).
  { apply (proj2 (Hspec _)). eauto. }
  destruct (Hex (section (location i))) as [refs Hrefs].
  { intros Hnil. rewrite Hnil in Hin. by apply elem_of_nil in Hin. }
  exists refs. split; [done|].
  by rewrite (proj2 (Hmem _ _ Hrefs)).
Qed.

Lemma in_group_events (draft : PaperDraft) (store : list ReviewIssue)
    (groups : list (string * list nat)) (name : string) (refs : list nat)
    (ev : Event) :
  (name, refs) ∈ groups ->
  ev ∈ group_events draft store (name, refs) ->
  ev ∈ flat_map (group_events draft store) groups.
Proof.
  intros Hin Hev. apply list_elem_of_In, in_flat_map.
  exists (name, refs). split; by apply list_elem_of_In.
Qed.

(** C6. Every rewrite request that [_apply_all_fixes] sends lists the
    unresolved issues of one section kind that has text, critical ones
    first, then major, then minor, each class in feedback order, and every
    such section with an unresolved issue gets its request.  On four
    issues of severities minor, critical, major, minor the sort gives the
    order critical, major, first minor, second minor. *)
Theorem apply_all_fixes_lists_issues_by_severity
    (draft : PaperDraft) (fb : ReviewFeedback) (e : Env) :
  exists evs,
    trace (Editor._apply_all_fixes draft fb e).2 = trace e ++ evs /\
    (forall listed content max_tokens,
       Generate (EditSectionPrompt listed content) max_tokens ∈ evs ->
       exists s,
         listed = by_severity (unresolved_in (SectionType_value s) (issues fb)) /\
         content = get_section draft s /\ content <> "") /\
    (forall s,
       get_section draft s <> "" ->
       unresolved_in (SectionType_value s) (issues fb) <> [] ->
       Generate
         (EditSectionPrompt
            (by_severity (unresolved_in (SectionType_value s) (issues fb)))
            (get_section draft s))
         (count_words (get_section draft s) * 2) ∈ evs) /\
    (forall a b c d,
       severity a = MINOR -> severity b = CRITICAL ->
       severity c = MAJOR -> severity d = MINOR ->
       Editor.sort_by (fun i => Editor.severity_rank (severity i)) [a; b; c; d]
       = [b; c; a; d] /\
       by_severity [a; b; c; d] = [b; c; a; d]).
Proof.
  destruct (apply_all_fixes_run draft fb e)
    as (d' & store' & edited & fixed & e' & -> & _ & Htr & _).
  destruct (sorted_groups_spec (issues fb)) as (_ & _ & Hmem & Hex).
  destruct (group_by_section_spec (issues fb)) as [_ Hspec].
  eexists. split; [exact Htr|]. split_and!.
  - intros listed content mt Hev.
    apply elem_of_cons in Hev as [Hev|Hev]; [discriminate|].
    apply list_elem_of_In, in_flat_map in Hev as ([name refs] & Hin & Hev).
    apply list_elem_of_In in Hin. destruct (Hmem name refs Hin) as [Hderef _].
    unfold group_events in Hev. simpl in Hev.
    destruct (SectionType_of_value name) as [s|] eqn:Hname.
    + apply SectionType_of_value_Some in Hname as <-.
      destruct Hev as [Hev|Hev]; [discriminate|].
      destruct (String.eqb_spec (get_section draft s) "") as [Hempty|Htext].
      * destruct Hev.
      * destruct Hev as [Hev|[]]. injection Hev as <- <- <-.
        exists s. by rewrite Hderef.
    + destruct Hev as [Hev|[]]. discriminate.
  - intros s Htext Hsome.
    destruct (Hex (SectionType_value s)) as [refs Hin].
    { intros Hnil. apply Hsome.
      rewrite <- (proj1 (Hspec (SectionType_value s))). by rewrite Hnil. }
    apply list_elem_of_further. eapply in_group_events; [exact Hin|].
    unfold group_events. simpl. rewrite SectionType_of_value_value.
    apply String.eqb_neq in Htext. rewrite Htext.
    rewrite (proj1 (Hmem _ _ Hin)).
    apply list_elem_of_further, list_elem_of_here.
  - intros a b c d Ha Hb Hc Hd. unfold by_severity, of_severity, Editor.sort_by.
    do 4 (simpl; rewrite ?Ha, ?Hb, ?Hc, ?Hd). done.
Qed.

(** C8. [_apply_all_fixes] always succeeds and raises the version.  The
    issues of the batch are the unresolved ones; an issue that is already
    resolved is left as it was.  An unresolved issue whose section name is
    no section kind (such as the synthetic name of the consistency check)
    is left as it was, and an error naming that section is logged.  An
    unresolved issue located in a section kind is still handed to
    [_edit_section]: the edit of that section is announced, and the issue
    is marked resolved when the section has text and left as it was when
    the section is empty. *)
Theorem apply_all_fixes_skips_unknown_sections
    (draft : PaperDraft) (fb : ReviewFeedback) (e : Env) :
  let r := Editor._apply_all_fixes draft fb e in
  let fb' := r.1.2 in
  exists evs,
    trace r.2 = trace e ++ evs /\
    success r.1.1.1 = true /\
    version r.1.1.2 = version draft + 1 /\
    (forall k i,
       issues fb !! k = Some i -> resolved i = false ->
       SectionType_of_value (section (location i)) = None ->
       issues fb' !! k = Some i /\
       LogError (UnknownSectionType (section (location i))) ∈ evs) /\
    (forall k i s,
       issues fb !! k = Some i -> resolved i = false ->
       section (location i) = SectionType_value s ->
       (exists n, LogInfo (EditingIssues n s) ∈ evs) /\
       (get_section draft s <> "" -> issues fb' !! k = Some (mark_resolved i)) /\
       (get_section draft s = "" -> issues fb' !! k = Some i)) /\
    (forall k i,
       issues fb !! k = Some i -> resolved i = true ->
       issues fb' !! k = Some i).
Proof.
  destruct (apply_all_fixes_run draft fb e)
    as (d' & store' & edited & fixed & e' & -> & Hv & Htr & Hst & _).
  destruct (sorted_groups_spec (issues fb)) as (_ & Hown & Hmem & _).
  simpl. eexists. split; [exact Htr|]. split_and!; try done; cycle 2.
  { intros k i Hk Hres. rewrite Hst, Hk.
    by rewrite (untouched_resolved draft (issues fb) k i Hk Hres). }
  - intros k i Hk Hres Hunknown.
    destruct (unresolved_has_group (issues fb) k i Hk Hres) as (refs & Hin & Hkin).
    split.
    + rewrite Hst, Hk.
      rewrite (untouched_outside_rewritten draft (issues fb) _ k i Hown Hk); [done|].
      unfold rewritten. by rewrite Hunknown.
    + apply list_elem_of_further. eapply in_group_events; [exact Hin|].
      unfold group_events. simpl. rewrite Hunknown. apply list_elem_of_here.
  - intros k i s Hk Hres Hsec.
    destruct (unresolved_has_group (issues fb) k i Hk Hres) as (refs & Hin & Hkin).
    rewrite Hsec in Hin. split_and!.
    + exists (length refs). apply list_elem_of_further.
      eapply in_group_events; [exact Hin|].
      unfold group_events. simpl. rewrite SectionType_of_value_value.
      apply list_elem_of_here.
    + intros Htext. rewrite Hst, Hk. simpl.
      assert (Ht : touched draft
                     (Editor.sort_groups (issues fb)
                        (Editor.group_by_section (issues fb))) k = true).
      { apply existsb_exists. exists (SectionType_value s, refs). split.
        - by apply list_elem_of_In.
        - simpl. unfold rewritten. rewrite SectionType_of_value_value.
          apply String.eqb_neq in Htext. rewrite Htext. simpl.
          by apply bool_decide_eq_true. }
      by rewrite Ht.
    + intros Hempty. rewrite Hst, Hk.
      rewrite (untouched_outside_rewritten draft (issues fb) _ k i Hown Hk); [done|].
      unfold rewritten. rewrite Hsec, SectionType_of_value_value, Hempty. done.
Qed.

(** C4. Every call of [_apply_all_fixes] succeeds and returns the draft
    with its version raised by exactly one, also reported as
    [data["draft_version"]], however many sections it rewrote; with no
    unresolved issue at all it rewrites nothing, asks the model nothing
    and still raises the version.  Every issue is left as it was or marked
    resolved, so no [resolved] flag goes from true to false and the number
    of resolved issues does not decrease. *)
Theorem apply_all_fixes_bumps_version_once
    (draft : PaperDraft) (fb : ReviewFeedback) (e : Env) :
  let r := Editor._apply_all_fixes draft fb e in
  let draft' := r.1.1.2 in
  let fb' := r.1.2 in
  success r.1.1.1 = true /\
  version draft' = version draft + 1 /\
  Editor.draft_version <$> data r.1.1.1 = Some (version draft + 1) /\
  fb' = with_issues fb (issues fb') /\
  length (issues fb') = length (issues fb) /\
  (forall k i, issues fb !! k = Some i ->
     exists i', issues fb' !! k = Some i' /\
                (i' = i \/ i' = mark_resolved i) /\
                (resolved i = true -> resolved i' = true)) /\
  (resolved_count (issues fb) <= resolved_count (issues fb'))%nat /\
  (get_unresolved_issues fb = [] ->
     Editor.sections_edited <$> data r.1.1.1 = Some [] /\
     fb' = fb /\
     sections draft' = sections draft /\
     trace r.2 = trace e ++ [LogInfo (ApplyingFixes (length (issues fb)))]).
Proof.
  destruct (apply_all_fixes_run draft fb e)
    as (d' & store' & edited & fixed & e' & -> & Hv & Htr & Hst & Hlen & Hnil).
  simpl.
  assert (Hpoint : forall k i, issues fb !! k = Some i ->
            exists i', store' !! k = Some i' /\
                       (i' = i \/ i' = mark_resolved i) /\
                       (resolved i = true -> resolved i' = true)).
  { intros k i Hk. rewrite Hst, Hk. simpl.
    destruct (touched _ _ k); eexists; split; try reflexivity; simpl; auto. }
  split_and!; try done.
  - apply resolved_count_mono. apply Forall2_same_length_lookup_2; [done|].
    intros k i i' Hk Hk'. destruct (Hpoint k i Hk) as (i'' & Hk'' & _ & Hres).
    assert (i' = i'') as -> by congruence. exact Hres.
  - intros Hnone. apply group_by_section_resolved in Hnone.
    rewrite Hnone in Htr, Hnil. simpl in Htr.
    destruct (Hnil eq_refl) as (-> & -> & ->).
    split_and!; try done. apply with_issues_same.
Qed.

End EditorFacts.

Section ReviewerFacts.
Context `{Collaborators}.

(** An invariant of the loop state holds after the loop. *)
Lemma for_each_inv {A S : Type} (I : S -> Prop) (l : list A)
    (body : S -> A -> M S) :
  (forall s x e, x ∈ l -> I s -> I (body s x e).1) ->
  forall s e, I s -> I (for_each l body s e).1.
Proof.
  induction l as [|x l IH]; intros Hbody s e Hs; [done|].
  simpl. unfold bind.
  pose proof (Hbody s x e (list_elem_of_here _ _) Hs) as Hs'.
  destruct (body s x e) as [s' e']. apply IH; [|done].
  intros s0 y e0 Hy. apply Hbody. by apply list_elem_of_further.
Qed.

(** A loop whose every iteration does nothing does nothing. *)
Lemma for_each_skip {A S : Type} (l : list A) (body : S -> A -> M S)
    (s : S) (e : Env) :
  (forall x e', x ∈ l -> body s x e' = (s, e')) ->
  for_each l body s e = (s, e).
Proof.
  revert e. induction l as [|x l IH]; intros e Hbody; [done|].
  simpl. unfold bind. rewrite Hbody by apply list_elem_of_here.
  apply IH. intros y e' Hy. apply Hbody. by apply list_elem_of_further.
Qed.

Lemma create_issue_spec (d : gmap string string) (s : SectionType) (e : Env) :
  filed_under s (Reviewer._create_issue d s e).1 /\
  built_from d (Reviewer._create_issue d s e).1.
Proof.
  unfold Reviewer._create_issue, bind, fresh_uuid, ret.
  destruct (uuid4 (world e)) as [u w]. simpl.
  split; [done|]. unfold built_from. simpl. split_and!; try done.
  - intros t (c & -> & Hc). simpl.
    by rewrite (proj2 (category_map_spec c t) Hc).
  - intros Hnone.
    destruct (Reviewer.category_map !! default "" (d !! "category"))
      as [t|] eqn:Hlook; [|done].
    exfalso. apply category_map_spec in Hlook.
    destruct (d !! "category") as [c|] eqn:Hd; simpl in Hlook.
    + apply (Hnone t). by rewrite Hlook.
    + by destruct t.
  - intros sev (c & -> & Hc). simpl.
    by rewrite (proj2 (severity_map_spec c sev) Hc).
  - intros Hnone.
    destruct (Reviewer.severity_map !! default "MINOR" (d !! "severity"))
      as [sev|] eqn:Hlook; [|done].
    apply severity_map_spec in Hlook.
    destruct (d !! "severity") as [c|] eqn:Hd; simpl in Hlook.
    + exfalso. apply (Hnone sev). by rewrite Hlook.
    + by destruct sev.
Qed.

Lemma for_each_cons {A S : Type} (x : A) (l : list A) (body : S -> A -> M S)
    (s : S) (e : Env) :
  for_each (x :: l) body s e
  = let (s', e') := body s x e in for_each l body s' e'.
Proof. reflexivity. Qed.

Lemma parse_line_skip (s : SectionType)
    (st : gmap string string * list ReviewIssue) (raw : string) (e : Env) :
  (forall m, m ∈ Reviewer.field_markers ->
             Str.startswith (Str.strip raw) m = false) ->
  Reviewer.parse_line s st raw e = (st, e).
Proof.
  intros Hnone. destruct st as [d l]. unfold Reviewer.parse_line.
  rewrite !Hnone; [done|..]; unfold Reviewer.field_markers;
    repeat (apply list_elem_of_here || apply list_elem_of_further).
Qed.

Lemma parse_line_no_entry (s : SectionType)
    (st : gmap string string * list ReviewIssue) (raw : string) (e : Env) :
  marker_entry raw = None -> Reviewer.parse_line s st raw e = (st, e).
Proof.
  unfold marker_entry. intros Hnone. apply fmap_None in Hnone.
  apply parse_line_skip. intros m Hm. apply list_elem_of_In in Hm.
  exact (find_none _ _ Hnone m Hm).
Qed.

Lemma parse_line_entry (s : SectionType) (cur : gmap string string)
    (l : list ReviewIssue) (raw : string) (e : Env) (m v : string) :
  marker_entry raw = Some (m, v) ->
  Reviewer.parse_line s (cur, l) raw e
  = if String.eqb m "ISSUE:"
    then let (l', e') := Reviewer.flush_issue s cur l e in
         (({["category" := v]}, l'), e')
    else ((<[field_key m := v]> cur, l), e).
Proof.
  unfold marker_entry, marker_of, Reviewer.field_markers, Reviewer.parse_line,
    Reviewer.field_value.
  cbn [find].
  destruct (Str.startswith (Str.strip raw) "ISSUE:").
  { intros [= <- <-]. unfold bind, ret. cbn [String.eqb Ascii.eqb Bool.eqb andb].
    by destruct (Reviewer.flush_issue s cur l e). }
  destruct (Str.startswith (Str.strip raw) "SEVERITY:"); [by intros [= <- <-]|].
  destruct (Str.startswith (Str.strip raw) "LOCATION:"); [by intros [= <- <-]|].
  destruct (Str.startswith (Str.strip raw) "DESCRIPTION:"); [by intros [= <- <-]|].
  destruct (Str.startswith (Str.strip raw) "SUGGESTION:"); [by intros [= <- <-]|].
  done.
Qed.

Lemma block_fields_nil : block_fields [] = ∅.
Proof. reflexivity. Qed.

Lemma block_fields_snoc (b : list (string * string)) (m v : string) :
  block_fields (b ++ [(m, v)]) = <[field_key m := v]> (block_fields b).
Proof.
  unfold block_fields. by rewrite fmap_app, reverse_app.
Qed.

Lemma block_fields_empty (b : list (string * string)) :
  block_fields b = ∅ <-> b = [].
Proof.
  split; [|by intros ->].
  destruct b as [|mv b _] using rev_ind; [done|].
  destruct mv as [m v]. rewrite block_fields_snoc. intros Hempty.
  by apply insert_non_empty in Hempty.
Qed.

Lemma last_value_spec (key : string) (b : list (string * string)) :
  block_fields b !! key = last_value key b.
Proof.
  unfold last_value.
  induction b as [|[m v] b IH] using rev_ind; [done|].
  rewrite block_fields_snoc, List.filter_app. cbn [List.filter fst].
  destruct (String.eqb_spec (field_key m) key) as [<-|Hne].
  - by rewrite lookup_insert_eq, last_snoc.
  - rewrite lookup_insert_ne by done. by rewrite app_nil_r.
Qed.

Lemma blocks_from_head (cb entries : list (string * string)) :
  cb <> [] ->
  exists b bs, blocks_from cb entries = b :: bs /\ head b = head cb.
Proof.
  revert cb. induction entries as [|mv rest IH]; intros cb Hcb.
  - exists cb, []. by destruct cb.
  - cbn [blocks_from]. destruct (String.eqb mv.1 "ISSUE:").
    + exists cb, (blocks_from [mv] rest). by destruct cb.
    + destruct (IH (cb ++ [mv])) as (b & bs & -> & Hhead);
        [by destruct cb|].
      exists b, bs. split; [done|]. rewrite Hhead. by destruct cb.
Qed.

(** The blocks are the marker lines in order, each block opened by its
    first line: no block is empty, an [ISSUE:] line is always the first of
    its block, and every block but the first starts with one. *)
Lemma blocks_from_spec (cb entries : list (string * string)) :
  Forall (fun mv => mv.1 <> "ISSUE:") (tail cb) ->
  concat (blocks_from cb entries) = cb ++ entries /\
  Forall (fun b => b <> []) (blocks_from cb entries) /\
  Forall (fun b => Forall (fun mv : string * string => mv.1 <> "ISSUE:") (tail b))
    (blocks_from cb entries) /\
  (forall k b, blocks_from cb entries !! S k = Some b ->
               exists v, head b = Some ("ISSUE:", v)).
Proof.
  revert cb. induction entries as [|[m v] rest IH]; intros cb Hcb.
  - cbn [blocks_from]. destruct cb as [|mv cb].
    + by split_and!.
    + split_and!.
      * simpl. by rewrite !app_nil_r.
      * by repeat constructor.
      * by repeat constructor.
      * intros k b Hk. by destruct k.
  - cbn [blocks_from fst]. destruct (String.eqb_spec m "ISSUE:") as [->|Hm].
    + destruct (IH [("ISSUE:", v)]) as (Hcat & Hne & Htail & Hhead);
        [by constructor|].
      destruct (blocks_from_head [("ISSUE:", v)] rest) as (b0 & bs & Heq & Hb0);
        [done|].
      destruct cb as [|mv cb]; cbn [app].
      * split_and!; try done.
      * split_and!.
        -- cbn [concat]. by rewrite Hcat.
        -- by constructor.
        -- by constructor.
        -- intros [|k] b Hk; cbn in Hk.
           ++ rewrite Heq in Hk. cbn in Hk. simplify_eq. by exists v.
           ++ by apply (Hhead k).
    + destruct (IH (cb ++ [(m, v)])) as (Hcat & Hne & Htail & Hhead).
      * destruct cb as [|mv cb]; [by constructor|]. cbn [app tail] in *.
        apply Forall_app. split; [done|]. by repeat constructor.
      * split_and!; try done. by rewrite Hcat, <- app_assoc.
Qed.

(** What [flush_issue] adds for the block read so far. *)
Lemma flush_issue_block (s : SectionType) (cb : list (string * string))
    (l : list ReviewIssue) (e : Env) :
  exists found,
    (Reviewer.flush_issue s (block_fields cb) l e).1 = l ++ found /\
    Forall2 (fun b i => filed_under s i /\ built_from (block_fields b) i)
      (match cb with [] => [] | _ => [cb] end) found.
Proof.
  unfold Reviewer.flush_issue. case_bool_decide as Hcb.
  - apply block_fields_empty in Hcb as ->. exists []. split; [|constructor].
    unfold ret. simpl. by rewrite app_nil_r.
  - unfold bind, ret.
    pose proof (create_issue_spec (block_fields cb) s e) as Hspec.
    destruct (Reviewer._create_issue (block_fields cb) s e) as [i e'].
    exists [i]. split; [done|].
    destruct cb as [|mv cb]; [done|]. constructor; [exact Hspec|constructor].
Qed.

(** The loop over the lines and the last [flush_issue]: one issue for
    each block, with the fields of the block. *)
Lemma parse_lines_blocks (s : SectionType) (lines : list string)
    (cb : list (string * string)) (l : list ReviewIssue) (e : Env) :
  let r := for_each lines (Reviewer.parse_line s) (block_fields cb, l) e in
  exists found,
    (Reviewer.flush_issue s r.1.1 r.1.2 r.2).1 = l ++ found /\
    Forall2 (fun b i => filed_under s i /\ built_from (block_fields b) i)
      (blocks_from cb (omap marker_entry lines)) found.
Proof.
  revert cb l e. induction lines as [|raw lines IH]; intros cb l e.
  - cbv zeta. cbn [for_each omap list_omap blocks_from]. unfold ret.
    cbn [fst snd]. apply flush_issue_block.
  - cbv zeta. rewrite for_each_cons.
    change (omap marker_entry (raw :: lines))
      with (match marker_entry raw with
            | Some mv => mv :: omap marker_entry lines
            | None => omap marker_entry lines
            end).
    destruct (marker_entry raw) as [[m v]|] eqn:Hentry.
    + rewrite (parse_line_entry s _ l raw e m v Hentry).
      cbn [blocks_from fst]. destruct (String.eqb m "ISSUE:") eqn:Hm.
      * destruct (flush_issue_block s cb l e) as (flushed & Hflush & Hblocks).
        destruct (Reviewer.flush_issue s (block_fields cb) l e) as [l' e'].
        cbn [fst] in Hflush. subst l'.
        apply String.eqb_eq in Hm as ->.
        destruct (IH [("ISSUE:", v)] (l ++ flushed) e') as (found & Hfound & Hrest).
        change (block_fields [("ISSUE:", v)]) with (<["category" := v]> (∅ : gmap string string))
          in Hfound.
        rewrite insert_empty in Hfound.
        exists (flushed ++ found). rewrite app_assoc. split; [exact Hfound|].
        by apply Forall2_app.
      * destruct (IH (cb ++ [(m, v)]) l e) as (found & Hfound & Hrest).
        rewrite block_fields_snoc in Hfound. by exists found.
    + rewrite (parse_line_no_entry s _ raw e Hentry). apply IH.
Qed.

(** The issues of a reply without [NO_ISSUES], block by block. *)
Lemma parse_issues_blocks (s : SectionType) (response : string) (e : Env) :
  Str.contains response "NO_ISSUES" = false ->
  Forall2 (fun b i => filed_under s i /\ built_from (block_fields b) i)
    (marker_blocks response) (Reviewer.parse_issues s response e).1.
Proof.
  intros Hno. unfold Reviewer.parse_issues, marker_blocks, marker_entries.
  rewrite Hno. cbn [negb]. unfold bind.
  destruct (parse_lines_blocks s (Str.splitlines response) [] [] e)
    as (found & Hfound & Hblocks).
  cbv zeta in Hfound. rewrite block_fields_nil in Hfound.
  destruct (for_each _ _ _ e) as [[cur l] e1]. cbn [fst snd] in *.
  by rewrite Hfound.
Qed.

(** C9. The parse of a reviewer response is a total function of the text:
    every operation it uses is defined on every input.  The marker lines
    of the response, cut in front of every [ISSUE:] line, are its marker
    blocks.  Unless the response contains [NO_ISSUES], the parse returns
    one issue for each marker block, in order: filed under the section
    under review, unresolved, with the category, severity, location,
    description and suggestion of the block, where the last line of a
    field counts, and with the defaults [VAGUE_CLAIM] and [MINOR] for a
    category or severity that is missing or not recognised.  A response
    that contains [NO_ISSUES], or none of the five field markers, gives
    the empty list. *)
Theorem parse_issues_total_with_defaults
    (s : SectionType) (response : string) (e : Env) :
  let l := (Reviewer.parse_issues s response e).1 in
  let blocks := marker_blocks response in
  (concat blocks = marker_entries response /\
   Forall (fun b => b <> []) blocks /\
   Forall (fun b => Forall (fun mv : string * string => mv.1 <> "ISSUE:") (tail b))
     blocks /\
   (forall k b, blocks !! S k = Some b -> exists v, head b = Some ("ISSUE:", v)) /\
   (forall key b, block_fields b !! key = last_value key b)) /\
  (~ found_verbatim "NO_ISSUES" response ->
   Forall2 (fun b i => filed_under s i /\ built_from (block_fields b) i)
     blocks l) /\
  (forall d e', filed_under s (Reviewer._create_issue d s e').1 /\
                built_from d (Reviewer._create_issue d s e').1) /\
  (found_verbatim "NO_ISSUES" response -> l = []) /\
  ((forall m, m ∈ Reviewer.field_markers -> ~ found_verbatim m response) ->
   l = []).
Proof.
  cbv zeta. split_and!.
  - by apply (blocks_from_spec [] (marker_entries response)).
  - by apply (blocks_from_spec [] (marker_entries response)).
  - by apply (blocks_from_spec [] (marker_entries response)).
  - by apply (blocks_from_spec [] (marker_entries response)).
  - intros key b. apply last_value_spec.
  - intros Hno. apply parse_issues_blocks.
    destruct (Str.contains response "NO_ISSUES") eqn:Hc; [|done].
    by apply contains_spec in Hc.
  - intros d e'. apply create_issue_spec.
  - intros Hno. unfold Reviewer.parse_issues.
    apply contains_spec in Hno. by rewrite Hno.
  - intros Hnone. unfold Reviewer.parse_issues.
    destruct (Str.contains response "NO_ISSUES"); [done|]. simpl.
    unfold bind. rewrite for_each_skip; [done|].
    intros raw e' Hraw. apply parse_line_skip. intros m Hm.
    destruct (Str.startswith (Str.strip raw) m) eqn:Hstart; [|done].
    exfalso. apply (Hnone m Hm). by apply (marker_line_found response raw).
Qed.

(** ** Silent computations *)

Lemma agent_calls_app (a b : list Event) :
  agent_calls (a ++ b) = agent_calls a ++ agent_calls b.
Proof. apply omap_app. Qed.

Lemma agent_calls_cons (ev : Event) (evs : list Event) :
  agent_calls (ev :: evs)
  = match agent_call ev with
    | Some call => call :: agent_calls evs
    | None => agent_calls evs
    end.
Proof. reflexivity. Qed.

Lemma warned_app (a b : list Event) : warned (a ++ b) = warned a || warned b.
Proof. apply existsb_app. Qed.

Lemma silent_ret {A} (a : A) : silent (ret a).
Proof. intros e. exists []. by rewrite app_nil_r. Qed.

Lemma silent_bind {A B} (m : M A) (k : A -> M B) :
  silent m -> (forall a, silent (k a)) -> silent (bind m k).
Proof.
  intros Hm Hk e. unfold bind.
  destruct (Hm e) as (evs1 & Ht1 & Hc1 & Hw1).
  destruct (m e) as [a e1]. simpl in *.
  destruct (Hk a e1) as (evs2 & Ht2 & Hc2 & Hw2).
  exists (evs1 ++ evs2). split_and!.
  - by rewrite Ht2, Ht1, app_assoc.
  - by rewrite agent_calls_app, Hc1, Hc2.
  - by rewrite warned_app, Hw1, Hw2.
Qed.

Lemma silent_generate (p : Prompt) (max_tokens : Z) :
  silent (generate p max_tokens).
Proof.
  intros e. unfold generate. destruct (llm_generate _ _ _) as [r w].
  by exists [Generate p max_tokens].
Qed.

Lemma silent_fresh_uuid : silent fresh_uuid.
Proof.
  intros e. unfold fresh_uuid. destruct (uuid4 _) as [u w].
  exists []. by rewrite app_nil_r.
Qed.

Lemma silent_now : silent now.
Proof.
  intros e. unfold now. destruct (datetime_now _) as [t w].
  exists []. by rewrite app_nil_r.
Qed.

Lemma silent_emit (ev : Event) :
  agent_call ev = None -> warned [ev] = false -> silent (emit ev).
Proof.
  intros Hc Hw e. exists [ev]. split_and!; try done.
  unfold agent_calls. simpl. by rewrite Hc.
Qed.

Lemma silent_for_each {A S} (l : list A) (body : S -> A -> M S) (s : S) :
  (forall s x, silent (body s x)) -> silent (for_each l body s).
Proof.
  intros Hbody. revert s. induction l as [|x l IH]; intros s; simpl.
  - apply silent_ret.
  - apply silent_bind; [apply Hbody|]. intros s'. apply IH.
Qed.

Lemma silent_create_issue (d : gmap string string) (s : SectionType) :
  silent (Reviewer._create_issue d s).
Proof.
  apply silent_bind; [apply silent_fresh_uuid|]. intros u. apply silent_ret.
Qed.

Lemma silent_flush_issue (s : SectionType) (d : gmap string string)
    (l : list ReviewIssue) :
  silent (Reviewer.flush_issue s d l).
Proof.
  unfold Reviewer.flush_issue. destruct (bool_decide _); [apply silent_ret|].
  apply silent_bind; [apply silent_create_issue|]. intros i. apply silent_ret.
Qed.

Lemma silent_parse_line (s : SectionType)
    (st : gmap string string * list ReviewIssue) (raw : string) :
  silent (Reviewer.parse_line s st raw).
Proof.
  destruct st as [d l]. unfold Reviewer.parse_line.
  repeat (destruct (Str.startswith _ _); [try apply silent_ret|]);
    [|apply silent_ret].
  apply silent_bind; [apply silent_flush_issue|]. intros l'. apply silent_ret.
Qed.

Lemma silent_parse_issues (s : SectionType) (response : string) :
  silent (Reviewer.parse_issues s response).
Proof.
  unfold Reviewer.parse_issues. destruct (negb _); [|apply silent_ret].
  apply silent_bind.
  - apply silent_for_each. intros st x. apply silent_parse_line.
  - intros st. apply silent_flush_issue.
Qed.

Lemma silent_review_section (s : SectionType) (content : string) (c : Z) :
  silent (Reviewer._review_section s content c).
Proof.
  apply silent_bind; [apply silent_generate|]. intros r. apply silent_parse_issues.
Qed.

Lemma silent_check_consistency (draft : PaperDraft) :
  silent (Reviewer._check_consistency draft).
Proof.
  unfold Reviewer._check_consistency.
  apply silent_bind; [apply silent_generate|]. intros r.
  destruct (Str.contains _ _); [|apply silent_ret].
  apply silent_for_each. intros l line. unfold Reviewer.consistency_line.
  cbv beta zeta.
  destruct (Str.startswith _ _); [|apply silent_ret].
  apply silent_bind; [apply silent_fresh_uuid|]. intros u. apply silent_ret.
Qed.

Lemma silent_review_sections (draft : PaperDraft) (c : Z) :
  silent (Reviewer.review_sections draft c).
Proof.
  apply silent_for_each. intros l s. cbv beta zeta.
  destruct (negb _); [|apply silent_ret].
  apply silent_bind; [apply silent_review_section|]. intros l'. apply silent_ret.
Qed.

(** [_review] announces its cycle and is silent afterwards. *)
Lemma review_trace (draft : PaperDraft) (c : Z) (e : Env) :
  exists evs,
    trace (Reviewer._review draft c e).2
    = trace e ++ LogInfo (StartingReviewCycle c) :: evs /\
    agent_calls evs = [] /\ warned evs = false.
Proof.
  pose (rest :=
          fid <- fresh_uuid ;;
          t <- now ;;
          l1 <- Reviewer.review_sections draft c ;;
          consistency_issues <- Reviewer._check_consistency draft ;;
          ok <- (if Z.ltb c 2
                 then log_info FirstCycleNoApproval ;;; ret false
                 else ret (Reviewer.no_critical_major (l1 ++ consistency_issues))) ;;
          ret (fid, t, l1, consistency_issues, ok)).
  assert (Hrest : silent rest).
  { apply silent_bind; [apply silent_fresh_uuid|]. intros fid.
    apply silent_bind; [apply silent_now|]. intros t.
    apply silent_bind; [apply silent_review_sections|]. intros l1.
    apply silent_bind; [apply silent_check_consistency|]. intros l2.
    apply silent_bind; [|intros ok; apply silent_ret].
    destruct (c <? 2); [|apply silent_ret].
    apply silent_bind; [by apply silent_emit|]. intros _. apply silent_ret. }
  pose (e1 := mkEnv (world e) (trace e ++ [LogInfo (StartingReviewCycle c)])).
  destruct (Hrest e1) as (evs & Htr & Hc & Hw).
  exists evs. split_and!; try done.
  assert (Heq : trace (Reviewer._review draft c e).2 = trace (rest e1).2).
  { unfold rest, e1, Reviewer._review, bind, log_info, emit, ret. simpl.
    repeat run_step. reflexivity. }
  rewrite Heq, Htr. simpl. by rewrite <- app_assoc.
Qed.

(** What [_review] returns, in one equation: the issues are whatever the
    section reviews and the consistency check produced, and every other
    field is computed from them and from the cycle number. *)
Lemma review_shape (draft : PaperDraft) (c : Z) (e : Env) :
  exists fid t l e',
    Reviewer._review draft c e =
      (mkAgentResult true
         (Some (Reviewer.mkReviewData
                  (mkReviewFeedback fid (Some (paper_id draft)) c l
                     (Reviewer._generate_assessment l c)
                     (if c <? 2 then false else Reviewer.no_critical_major l) t)
                  (length l)
                  (Reviewer.count_severity CRITICAL l)
                  (Reviewer.count_severity MAJOR l)
                  (Reviewer.count_severity MINOR l)
                  (if c <? 2 then false else Reviewer.no_critical_major l) c))
         None,
       mkPaperDraft (paper_id draft) (session_id draft) (version draft)
         (sections draft) (word_count draft) (status draft) c
         (created_at draft) (updated_at draft),
       e').
Proof.
  unfold Reviewer._review, bind, log_info, emit, fresh_uuid, now, ret. simpl.
  repeat run_step.
  destruct (c <? 2); simplify_eq/=; eauto 10.
Qed.

(** C1. For every draft, cycle number [c] and state of the collaborators,
    [_review draft c] succeeds with a feedback for cycle [c] whose
    [approved] flag (also reported as [data["approved"]]) is false whenever
    [c < 2], whatever the issues are, and for [c >= 2] is true exactly when
    no issue of the feedback is critical or major while unresolved. *)
Theorem review_approval_policy (draft : PaperDraft) (c : Z) (e : Env) :
  exists fb,
    feedback_in (Reviewer._review draft c e).1.1 = Some fb /\
    success (Reviewer._review draft c e).1.1 = true /\
    Reviewer.data_approved <$> data (Reviewer._review draft c e).1.1
      = Some (approved fb) /\
    cycle fb = c /\
    (c < 2 -> approved fb = false) /\
    (2 <= c ->
     (approved fb = true <-> forall i, i ∈ issues fb -> ~ blocks_approval i)).
Proof.
  destruct (review_shape draft c e) as (fid & t & l & e' & ->). simpl.
  eexists. split; [reflexivity|]. simpl.
  repeat split; try reflexivity.
  - intros Hc. apply Z.ltb_lt in Hc. by rewrite Hc.
  - assert (Hc : (c <? 2) = false) by (apply Z.ltb_ge; lia).
    rewrite Hc. apply no_critical_major_spec.
  - assert (Hc : (c <? 2) = false) by (apply Z.ltb_ge; lia).
    rewrite Hc. apply no_critical_major_spec.
Qed.

(** The env in which the final review runs its standard review. *)
Lemma final_review_shape (draft : PaperDraft) (c : Z) (e : Env) :
  exists fb_std fb n1 n2 n3 n4 ok d' e',
    Reviewer._review draft c (log_info (PerformingFinalReview c) e).2 =
      (mkAgentResult true
         (Some (Reviewer.mkReviewData fb_std n1 n2 n3 n4 ok c)) None, d', e') /\
    Reviewer._final_review draft c e =
      (mkAgentResult true
         (Some (Reviewer.mkReviewData fb n1 n2 n3 n4 (approved fb) c)) None, d', e') /\
    issues fb = issues fb_std /\
    approved fb_std = (if c <? 2 then false else Reviewer.no_critical_major (issues fb_std)) /\
    approved fb =
      (if negb (has_critical_issues fb_std) && (2 <=? c) then true
       else approved fb_std).
Proof.
  destruct (review_shape draft c (log_info (PerformingFinalReview c) e).2)
    as (fid & t & l & e' & Heq).
  unfold Reviewer._final_review, bind. simpl in *. rewrite Heq. simpl.
  unfold ret.
  do 9 eexists. split; [reflexivity|]. split; [reflexivity|]. simpl.
  destruct (negb _ && _); simpl; auto.
Qed.

(** C3. The final review at cycle [c] approves exactly when [c >= 2] and
    the feedback has no unresolved critical issue, whatever its major and
    minor issues are.  It runs the standard review on the same draft and
    reports the same issues; whenever that standard review approves, the
    final review approves too, and at [c >= 2] it also approves a feedback
    whose unresolved issues are all major or minor. *)
Theorem final_review_relaxes_approval (draft : PaperDraft) (c : Z) (e : Env) :
  let e1 := (log_info (PerformingFinalReview c) e).2 in
  exists fb fb_std,
    feedback_in (Reviewer._final_review draft c e).1.1 = Some fb /\
    feedback_in (Reviewer._review draft c e1).1.1 = Some fb_std /\
    issues fb = issues fb_std /\
    Reviewer.data_approved <$> data (Reviewer._final_review draft c e).1.1
      = Some (approved fb) /\
    (approved fb = true <->
     2 <= c /\ forall i, i ∈ issues fb -> ~ unresolved_critical i) /\
    (approved fb_std = true -> approved fb = true) /\
    (2 <= c ->
     (forall i, i ∈ issues fb -> resolved i = false ->
                severity i = MAJOR \/ severity i = MINOR) ->
     approved fb = true).
Proof.
  intros e1. subst e1.
  destruct (final_review_shape draft c e)
    as (fb_std & fb & n1 & n2 & n3 & n4 & ok & d' & e' & -> & -> & Hi & Hstd & Hfin).
  exists fb, fb_std. simpl.
  assert (Hcrit : has_critical_issues fb_std = false <->
                  forall i, i ∈ issues fb -> ~ unresolved_critical i).
  { rewrite Hi. apply has_critical_issues_spec. }
  assert (Himp : approved fb_std = true ->
                 2 <= c /\ has_critical_issues fb_std = false).
  { rewrite Hstd. destruct (c <? 2) eqn:Hc; [discriminate|].
    apply Z.ltb_ge in Hc. intros Hok. split; [lia|].
    apply has_critical_issues_spec. intros i Hin Hcr.
    apply (proj1 (no_critical_major_spec _) Hok i Hin).
    by apply blocks_of_unresolved_critical. }
  assert (Hiff : approved fb = true <->
                 2 <= c /\ has_critical_issues fb_std = false).
  { rewrite Hfin. destruct (has_critical_issues fb_std) eqn:Hh; simpl.
    - split; [intros Hok; apply Himp in Hok as [_ ?]; done | intros [_ ?]; done].
    - destruct (2 <=? c) eqn:Hc.
      + apply Z.leb_le in Hc. done.
      + apply Z.leb_gt in Hc. split; [|intros [? _]; lia].
        intros Hok. apply Himp in Hok as [? _]. lia. }
  split_and!; try reflexivity.
  - exact Hi.
  - rewrite Hiff, Hcrit. reflexivity.
  - intros Hok. apply Hiff. by apply Himp.
  - intros Hc Honly. apply Hiff. split; [done|]. apply Hcrit.
    intros i Hin [Hs Hr]. destruct (Honly i Hin Hr) as [Hs'|Hs']; congruence.
Qed.

(** What [_check_resolved_issues] does to the issue at position [k]. *)
Lemma check_resolved_lookup (draft : PaperDraft) (fb : ReviewFeedback) (e : Env)
    (k : nat) (i : ReviewIssue) :
  issues fb !! k = Some i ->
  issues (Reviewer._check_resolved_issues draft fb e).1.2 !! k
  = Some (if Reviewer.excerpt_gone draft i then mark_resolved i else i).
Proof.
  intros Hk. unfold Reviewer._check_resolved_issues, ret. simpl.
  by rewrite list_lookup_fmap, Hk.
Qed.

(** C7. [_check_resolved_issues] sets [resolved] on an issue exactly when
    the issue's excerpt does not occur verbatim in the current text of the
    issue's section (the text compared is [get_section] for a section kind);
    an issue whose excerpt still occurs is left as it was, so that it is
    resolved afterwards only if it was before.  No other field of an issue
    changes.  The call succeeds, has no effect on the collaborators, reads
    the draft without writing to it, and changes nothing else in the
    feedback. *)
Theorem check_resolved_issues_marks_missing_excerpts
    (draft : PaperDraft) (fb : ReviewFeedback) (e : Env) :
  let r := Reviewer._check_resolved_issues draft fb e in
  let fb' := r.1.2 in
  success r.1.1 = true /\ r.2 = e /\
  fb' = with_issues fb (issues fb') /\
  length (issues fb') = length (issues fb) /\
  (forall k i, issues fb !! k = Some i ->
     let content := Reviewer.section_content draft (section (location i)) in
     (~ found_verbatim (text_excerpt (location i)) content ->
      issues fb' !! k = Some (mark_resolved i)) /\
     (found_verbatim (text_excerpt (location i)) content ->
      issues fb' !! k = Some i) /\
     exists i',
       issues fb' !! k = Some i' /\
       (resolved i' = true <->
        resolved i = true \/ ~ found_verbatim (text_excerpt (location i)) content) /\
       issue_id i' = issue_id i /\ issue_type i' = issue_type i /\
       severity i' = severity i /\ location i' = location i /\
       description i' = description i /\ suggested_fix i' = suggested_fix i) /\
  (forall s, Reviewer.section_content draft (SectionType_value s)
             = get_section draft s).
Proof.
  intros r fb'. subst r fb'. split_and!.
  - reflexivity.
  - reflexivity.
  - reflexivity.
  - unfold Reviewer._check_resolved_issues, ret. simpl. by rewrite length_fmap.
  - intros k i Hk content. rewrite (check_resolved_lookup draft fb e k i Hk).
    split_and!.
    + intros Hno. apply excerpt_gone_true in Hno. by rewrite Hno.
    + intros Hyes. destruct (Reviewer.excerpt_gone draft i) eqn:Hg; [|done].
      apply excerpt_gone_true in Hg. contradiction.
    + eexists. split; [reflexivity|].
      destruct (Reviewer.excerpt_gone draft i) eqn:Hg.
      * apply excerpt_gone_true in Hg. simpl. split_and!; try done. tauto.
      * split_and!; try done. split; [tauto|]. intros [Hres|Hno]; [done|].
        apply excerpt_gone_true in Hno. congruence.
  - apply section_content_known.
Qed.

(** C10. In [_check_resolved_issues], an issue with an empty excerpt is
    left as it was whatever the draft holds, and an issue with a non-empty
    excerpt whose section name is no section kind is marked resolved: the
    text it is compared with is empty. *)
Theorem check_resolved_issues_edge_cases
    (draft : PaperDraft) (fb : ReviewFeedback) (e : Env)
    (k : nat) (i : ReviewIssue) :
  issues fb !! k = Some i ->
  let fb' := (Reviewer._check_resolved_issues draft fb e).1.2 in
  (text_excerpt (location i) = "" -> issues fb' !! k = Some i) /\
  (SectionType_of_value (section (location i)) = None ->
   text_excerpt (location i) <> "" ->
   Reviewer.section_content draft (section (location i)) = "" /\
   issues fb' !! k = Some (mark_resolved i)).
Proof.
  intros Hk fb'. subst fb'. rewrite (check_resolved_lookup draft fb e k i Hk).
  split.
  - intros Hnil. unfold Reviewer.excerpt_gone. by rewrite Hnil.
  - intros Hunknown Hne.
    pose proof (section_content_unknown draft _ Hunknown) as Hcontent.
    split; [exact Hcontent|].
    unfold Reviewer.excerpt_gone. rewrite Hcontent, contains_in_nil by done.
    apply String.eqb_neq in Hne. by rewrite Hne.
Qed.

End ReviewerFacts.

(** ** The loop *)

Section LoopFacts.
Context `{Collaborators}.

Lemma group_events_silent (draft : PaperDraft) (store : list ReviewIssue)
    (groups : list (string * list nat)) :
  agent_calls (flat_map (group_events draft store) groups) = [] /\
  warned (flat_map (group_events draft store) groups) = false.
Proof.
  induction groups as [|g groups [IHc IHw]]; [done|]. simpl.
  rewrite agent_calls_app, warned_app, IHc, IHw.
  unfold group_events. destruct (SectionType_of_value g.1); [|done].
  by destruct (String.eqb _ _).
Qed.

Lemma edit_group_review_cycle (st : Editor.EditState) (g : string * list nat)
    (e : Env) :
  review_cycle (Editor.cur_draft (Editor.edit_group st g e).1)
  = review_cycle (Editor.cur_draft st).
Proof.
  destruct g as [name refs]. unfold Editor.edit_group.
  destruct (SectionType_of_value name) as [s|]; [|done]. unfold bind.
  destruct (decide (get_section (Editor.cur_draft st) s = "")) as [Hempty|Htext].
  - by rewrite (edit_section_empty _ _ _ _ _ Hempty).
  - by destruct (edit_section_rewrites _ s refs (Editor.cur_store st) e Htext)
      as (edited & t & w & ->).
Qed.

Lemma apply_all_fixes_review_cycle (draft : PaperDraft) (fb : ReviewFeedback)
    (e : Env) :
  review_cycle (Editor._apply_all_fixes draft fb e).1.1.2 = review_cycle draft.
Proof.
  unfold Editor._apply_all_fixes, bind, log_info, emit, ret. simpl.
  match goal with
  | |- context [for_each ?l Editor.edit_group ?st ?e1] =>
      pose proof (for_each_inv
                    (fun st' => review_cycle (Editor.cur_draft st')
                                = review_cycle draft)
                    l Editor.edit_group) as Hinv;
      specialize (Hinv (fun st' g e' _ Hst' =>
                          eq_trans (edit_group_review_cycle st' g e') Hst')
                    st e1 eq_refl);
      destruct (for_each l Editor.edit_group st e1) as [st' e']
  end.
  exact Hinv.
Qed.

(** [_apply_all_fixes] announces itself and is silent afterwards; it
    leaves the approval and the cycle of the feedback and the review cycle
    of the draft as they are. *)
Lemma apply_all_fixes_step (draft : PaperDraft) (fb : ReviewFeedback) (e : Env) :
  exists ad d' fb' e' evs,
    Editor._apply_all_fixes draft fb e
    = (mkAgentResult true (Some ad) None, d', fb', e') /\
    Editor.data_draft ad = d' /\
    trace e' = trace e ++ evs /\
    agent_calls evs = [EditCall] /\ warned evs = false /\
    approved fb' = approved fb /\ cycle fb' = cycle fb /\
    version d' = version draft + 1 /\
    review_cycle d' = review_cycle draft.
Proof.
  pose proof (apply_all_fixes_review_cycle draft fb e) as Hrc.
  destruct (apply_all_fixes_run draft fb e)
    as (d' & store' & edited & fixed & e' & Heq & Hv & Htr & _).
  rewrite Heq in Hrc. simpl in Hrc.
  destruct (group_events_silent draft (issues fb)
              (Editor.sort_groups (issues fb) (Editor.group_by_section (issues fb))))
    as [Hc Hw].
  exists (Editor.mkApplyData d' edited fixed (version draft + 1) true), d',
    (with_issues fb store'), e',
    (LogInfo (ApplyingFixes (length (issues fb)))
     :: flat_map (group_events draft (issues fb))
          (Editor.sort_groups (issues fb) (Editor.group_by_section (issues fb)))).
  split_and!; try done.
  by rewrite agent_calls_cons, Hc.
Qed.

(** [_review] as a step of the loop. *)
Lemma review_step (d : PaperDraft) (c : Z) (e : Env) :
  exists rd d1 e1 evs,
    Reviewer._review d c e = (mkAgentResult true (Some rd) None, d1, e1) /\
    trace e1 = trace e ++ evs /\
    agent_calls evs = [ReviewCall c] /\ warned evs = false /\
    Reviewer.data_approved rd = approved (Reviewer.data_feedback rd) /\
    cycle (Reviewer.data_feedback rd) = c /\
    review_cycle d1 = c /\ version d1 = version d.
Proof.
  destruct (review_trace d c e) as (evs & Htr & Hc & Hw).
  destruct (review_shape d c e) as (fid & t & l & e1 & Heq).
  rewrite Heq in Htr. simpl in Htr.
  do 4 eexists. split; [exact Heq|]. split; [exact Htr|].
  split_and!; try done.
  by rewrite agent_calls_cons, Hc.
Qed.

(** One iteration of the loop: the review of cycle [c] runs; when it
    approves and [c >= min_cycles] the loop returns at once with the draft
    and the feedback of that review, and otherwise the editor runs on them
    and the loop goes on with the remaining cycles. *)
Lemma cycle_step (min_cycles : Z) (c : Z) (rest : list Z)
    (st : Orchestrator.WorkflowState) (e : Env) :
  let e0 := mkEnv (world e)
              (trace e ++ [LogInfo (Progress "review" (70 + c * 5)
                                      ("Review cycle " +:+ pretty c))]) in
  exists fb d1 e1 evs1 fb' d2 e2 evs2,
    feedback_in (Reviewer._review (Orchestrator.draft st) c e0).1.1 = Some fb /\
    (Reviewer._review (Orchestrator.draft st) c e0).1.2 = d1 /\
    trace e1 = trace e ++ evs1 /\
    agent_calls evs1 = [ReviewCall c] /\ warned evs1 = false /\
    cycle fb = c /\ review_cycle d1 = c /\
    version d1 = version (Orchestrator.draft st) /\
    trace e2 = trace e1 ++ evs2 /\
    agent_calls evs2 = [EditCall] /\ warned evs2 = false /\
    approved fb' = approved fb /\ cycle fb' = c /\ review_cycle d2 = c /\
    version d2 = version (Orchestrator.draft st) + 1 /\
    Orchestrator.review_edit_cycles min_cycles (c :: rest) st e
    = if approved fb && (min_cycles <=? c) then
        (Orchestrator.Returned
           (Orchestrator.mkWorkflowState Orchestrator.REVIEW d1 (Some fb) c),
         mkEnv (world e1)
           (trace e1 ++ [LogInfo (Progress "review" 90 "Paper approved")]))
      else
        Orchestrator.review_edit_cycles min_cycles rest
          (Orchestrator.mkWorkflowState Orchestrator.EDITING d2 (Some fb') c) e2.
Proof.
  intros e0.
  destruct (review_step (Orchestrator.draft st) c e0)
    as (rd & d1 & e1 & evsR & HeqR & HtrR & HcR & HwR & Hok & Hcyc & Hrc & HvR).
  set (found := LogInfo (Progress "review" (72 + c * 5)
                           ("Found " +:+ pretty (Reviewer.issue_count rd)
                            +:+ " issues"))).
  set (editing := LogInfo (Progress "editing" (75 + c * 5)
                             ("Editing cycle " +:+ pretty c))).
  destruct (apply_all_fixes_step d1 (Reviewer.data_feedback rd)
              (mkEnv (world e1) ((trace e1 ++ [found]) ++ [editing])))
    as (ad & d2 & fb' & e2 & evsE & HeqE & Hdd & HtrE & HcE & HwE
        & Hap & Hcy & HvE & Hrc2).
  set (fixed := LogInfo (Progress "editing" (78 + c * 5)
                           ("Fixed " +:+ pretty (Editor.total_issues_fixed ad)
                            +:+ " issues"))).
  exists (Reviewer.data_feedback rd), d1,
    (mkEnv (world e1) (trace e1 ++ [found])),
    (LogInfo (Progress "review" (70 + c * 5) ("Review cycle " +:+ pretty c))
     :: evsR ++ [found]),
    fb', d2, (mkEnv (world e2) (trace e2 ++ [fixed])),
    (editing :: evsE ++ [fixed]).
  rewrite HeqR. cbn [fst snd trace world] in *.
  split; [done|]. split; [done|].
  split.
  { rewrite HtrR. subst e0. cbn [trace]. by rewrite <- !app_assoc. }
  split.
  { rewrite agent_calls_cons. cbn [agent_call].
    by rewrite agent_calls_app, HcR. }
  split.
  { change (warned (?x :: ?l)) with (false || warned l).
    by rewrite warned_app, HwR. }
  split; [done|]. split; [done|]. split; [done|].
  split.
  { rewrite HtrE. by rewrite <- !app_assoc. }
  split.
  { rewrite agent_calls_cons. cbn [agent_call].
    by rewrite agent_calls_app, HcE. }
  split.
  { change (warned (?x :: ?l)) with (false || warned l).
    by rewrite warned_app, HwE. }
  split; [done|]. split; [congruence|]. split; [congruence|].
  split; [congruence|].
  cbn [Orchestrator.review_edit_cycles].
  unfold bind, Orchestrator._report_progress, log_info, emit, ret.
  cbn [world trace Orchestrator.draft]. fold e0. rewrite HeqR.
  cbn [success data world trace Orchestrator.draft]. rewrite Hok.
  destruct (approved (Reviewer.data_feedback rd) && (min_cycles <=? c));
    [reflexivity|].
  fold found editing. cbn [world trace]. rewrite HeqE.
  cbn [success data world trace]. rewrite Hdd. reflexivity.
Qed.

Lemma expected_calls_cons (c : Z) (l : list Z) (converged : bool) :
  expected_calls (c :: l) converged
  = match l with
    | [] => ReviewCall c :: (if converged then [] else [EditCall])
    | _ :: _ => ReviewCall c :: EditCall :: expected_calls l converged
    end.
Proof. reflexivity. Qed.

(** The loop over any list of cycles: it returns; its agent calls are a
    review and an edit per cycle run, ending with a review when it
    converged; it converges only on an approving review at a cycle that is
    at least [min_cycles], and otherwise runs every cycle. *)
Lemma review_edit_cycles_run (min_cycles : Z) (cycles : list Z) :
  forall (st : Orchestrator.WorkflowState) (e : Env),
  exists st' e' evs k converged,
    Orchestrator.review_edit_cycles min_cycles cycles st e
    = (Orchestrator.Returned st', e') /\
    trace e' = trace e ++ evs /\ warned evs = false /\
    (k <= length cycles)%nat /\
    agent_calls evs = expected_calls (take k cycles) converged /\
    (converged = true ->
     version (Orchestrator.draft st')
     = version (Orchestrator.draft st) + Z.of_nat k - 1 /\
     exists c fb,
       last (take k cycles) = Some c /\
       Orchestrator.feedback st' = Some fb /\
       approved fb = true /\ cycle fb = c /\ min_cycles <= c /\
       Orchestrator.state_review_cycle st' = c /\
       review_cycle (Orchestrator.draft st') = c) /\
    (converged = false ->
     k = length cycles /\
     version (Orchestrator.draft st')
     = version (Orchestrator.draft st) + Z.of_nat k /\
     (cycles = [] -> st' = st) /\
     forall c, last cycles = Some c ->
       exists fb,
         Orchestrator.feedback st' = Some fb /\
         cycle fb = c /\ approved fb && (min_cycles <=? c) = false /\
         Orchestrator.state_review_cycle st' = c /\
         review_cycle (Orchestrator.draft st') = c).
Proof.
  induction cycles as [|c rest IH]; intros st e.
  - exists st, e, [], 0%nat, false. simpl. rewrite app_nil_r.
    split_and!; try done. intros _. split_and!; try done; try lia.
  - destruct (cycle_step min_cycles c rest st e)
      as (fb & d1 & e1 & evs1 & fb' & d2 & e2 & evs2 & Hfb & Hd1 & Htr1 & Hc1
          & Hw1 & Hcy & Hrc1 & Hv1 & Htr2 & Hc2 & Hw2 & Hap & Hcy' & Hrc2 & Hv2
          & Heq).
    rewrite Heq. clear Heq.
    destruct (approved fb && (min_cycles <=? c)) eqn:Hconv.
    + apply andb_true_iff in Hconv as [Hok Hmin]. apply Z.leb_le in Hmin.
      eexists _, _, (evs1 ++ [LogInfo (Progress "review" 90 "Paper approved")]),
        1%nat, true.
      split; [reflexivity|]. cbn [trace Orchestrator.draft Orchestrator.feedback
                                   Orchestrator.state_review_cycle].
      split_and!.
      * by rewrite Htr1, <- app_assoc.
      * by rewrite warned_app, Hw1.
      * simpl. lia.
      * by rewrite agent_calls_app, Hc1.
      * intros _. split; [lia|]. exists c, fb. by split_and!.
      * discriminate.
    + destruct (IH (Orchestrator.mkWorkflowState Orchestrator.EDITING d2 (Some fb') c)
                  e2)
        as (st' & e' & evs & k & conv & Heq & Htr & Hw & Hk & Hcalls & Hyes & Hno).
      cbn [Orchestrator.draft Orchestrator.feedback
           Orchestrator.state_review_cycle] in *.
      exists st', e', (evs1 ++ evs2 ++ evs), (S k), conv.
      split; [exact Heq|]. split_and!.
      * by rewrite Htr, Htr2, Htr1, <- !app_assoc.
      * by rewrite !warned_app, Hw1, Hw2, Hw.
      * simpl. lia.
      * rewrite !agent_calls_app, Hc1, Hc2, Hcalls.
        change (take (S k) (c :: rest)) with (c :: take k rest).
        rewrite expected_calls_cons.
        destruct (take k rest) as [|c' l] eqn:Htake; [|done].
        destruct conv; [|done].
        destruct (Hyes eq_refl) as (_ & c' & fb0 & Hlast & _). discriminate.
      * intros Hc. destruct (Hyes Hc) as (Hv & c' & fb0 & Hlast & Hrest).
        split; [lia|]. exists c', fb0. split; [|exact Hrest].
        change (take (S k) (c :: rest)) with (c :: take k rest).
        destruct (take k rest) as [|c'' l]; [discriminate|].
        by rewrite last_cons_cons.
      * intros Hc. destruct (Hno Hc) as (-> & Hv & Hnil & Hlast).
        split_and!; try done; try (simpl; lia).
        intros c0 Hc0. destruct rest as [|c' rest'].
        -- injection Hc0 as <-. rewrite (Hnil eq_refl).
           exists fb'. cbn. split_and!; try done. by rewrite Hap.
        -- rewrite last_cons_cons in Hc0. by apply Hlast.
Qed.

Lemma review_cycles_of_expected (cycles : list Z) (converged : bool) :
  review_cycles_of (expected_calls cycles converged) = cycles.
Proof.
  induction cycles as [|c rest IH]; [done|].
  rewrite expected_calls_cons. destruct rest as [|c' rest'].
  - by destruct converged.
  - change (review_cycles_of (ReviewCall c :: EditCall :: ?l))
      with (c :: review_cycles_of l).
    by rewrite IH.
Qed.

Lemma cycle_range_length (max_cycles : Z) :
  length (Orchestrator.cycle_range max_cycles) = Z.to_nat max_cycles.
Proof. unfold Orchestrator.cycle_range. by rewrite length_map, length_seq. Qed.

Lemma cycle_range_take (k : nat) (max_cycles : Z) :
  (k <= Z.to_nat max_cycles)%nat ->
  take k (Orchestrator.cycle_range max_cycles)
  = Orchestrator.cycle_range (Z.of_nat k).
Proof.
  intros Hk. unfold Orchestrator.cycle_range.
  change (List.map Z.of_nat) with (fmap (M:=list) Z.of_nat).
  rewrite <- fmap_take, take_seq, Nat2Z.id. f_equal. f_equal. lia.
Qed.

Lemma cycle_range_last (k : nat) :
  last (Orchestrator.cycle_range (Z.of_nat k))
  = match k with
    | O => None
    | S _ => Some (Z.of_nat k)
    end.
Proof.
  unfold Orchestrator.cycle_range. rewrite Nat2Z.id.
  destruct k as [|k]; [done|].
  rewrite seq_S. change (List.map Z.of_nat) with (fmap (M:=list) Z.of_nat).
  rewrite fmap_app. simpl. by rewrite last_snoc.
Qed.

(** C2, as the code has it.  The loop never raises.  Its reviews are
    those of cycles [1..n], in this order, for some [n <= max_cycles], each
    followed by an edit except the last one of a run that converged.  At
    any iteration, a review of cycle [c >= min_cycles] that approves ends
    the loop at once, with the draft and the feedback of that review and
    neither an edit nor a further review.  A run that did not converge
    went through all [max_cycles] cycles and keeps the draft of the last
    edit and the feedback of the last review.  The warning is logged
    exactly when the feedback kept is missing or not approved; this is the
    case for every run that did not converge when
    [min_cycles <= max_cycles]. *)
Theorem review_edit_loop_policy
    (config : Orchestrator.PaperConfig) (st : Orchestrator.WorkflowState)
    (e : Env) :
  let min_cycles := Orchestrator.min_review_cycles config in
  let max_cycles := Orchestrator.max_review_cycles config in
  (forall c rest st0 e0 fb,
     feedback_in
       (Reviewer._review (Orchestrator.draft st0) c
          (mkEnv (world e0)
             (trace e0 ++ [LogInfo (Progress "review" (70 + c * 5)
                                      ("Review cycle " +:+ pretty c))]))).1.1
     = Some fb ->
     approved fb = true -> min_cycles <= c ->
     exists st1 e1 evs,
       Orchestrator.review_edit_cycles min_cycles (c :: rest) st0 e0
       = (Orchestrator.Returned st1, e1) /\
       trace e1 = trace e0 ++ evs /\
       agent_calls evs = [ReviewCall c] /\
       Orchestrator.feedback st1 = Some fb) /\
  exists st' e' evs n converged,
    Orchestrator._stage_review_edit_loop config st e
    = (Orchestrator.Returned st', e') /\
    trace e' = trace e ++ evs /\
    Z.of_nat n <= Z.max 0 max_cycles /\
    agent_calls evs
    = expected_calls (Orchestrator.cycle_range (Z.of_nat n)) converged /\
    review_cycles_of (agent_calls evs) = Orchestrator.cycle_range (Z.of_nat n) /\
    (warned evs = true <->
     match Orchestrator.feedback st' with
     | None => True
     | Some fb => approved fb = false
     end) /\
    (converged = true ->
     (1 <= n)%nat /\
     version (Orchestrator.draft st')
     = version (Orchestrator.draft st) + Z.of_nat n - 1 /\
     warned evs = false /\
     exists fb,
       Orchestrator.feedback st' = Some fb /\ approved fb = true /\
       cycle fb = Z.of_nat n /\ min_cycles <= Z.of_nat n /\
       Orchestrator.state_review_cycle st' = Z.of_nat n) /\
    (converged = false ->
     Z.of_nat n = Z.max 0 max_cycles /\
     version (Orchestrator.draft st')
     = version (Orchestrator.draft st) + Z.of_nat n /\
     (n = 0%nat -> st' = st) /\
     ((1 <= n)%nat ->
      exists fb,
        Orchestrator.feedback st' = Some fb /\ cycle fb = Z.of_nat n /\
        approved fb && (min_cycles <=? Z.of_nat n) = false /\
        Orchestrator.state_review_cycle st' = Z.of_nat n) /\
     (min_cycles <= max_cycles ->
      Orchestrator.feedback st = None \/ 1 <= max_cycles ->
      warned evs = true)).
Proof.
  intros min_cycles max_cycles. split.
  - intros c rest st0 e0 fb Hfb Hok Hmin.
    destruct (cycle_step min_cycles c rest st0 e0)
      as (fb0 & d1 & e1 & evs1 & fb' & d2 & e2 & evs2 & Hfb0 & _ & Htr1 & Hc1
          & _ & _ & _ & _ & _ & _ & _ & _ & _ & _ & _ & Heq).
    assert (fb0 = fb) as -> by congruence.
    rewrite Hok, (proj2 (Z.leb_le _ _) Hmin) in Heq. simpl in Heq.
    eexists _, _, (evs1 ++ [LogInfo (Progress "review" 90 "Paper approved")]).
    split; [exact Heq|]. cbn [trace Orchestrator.feedback]. split_and!.
    + by rewrite Htr1, <- app_assoc.
    + by rewrite agent_calls_app, Hc1.
    + done.
  - destruct (review_edit_cycles_run min_cycles
                (Orchestrator.cycle_range max_cycles) st e)
      as (st' & e1 & evs & k & conv & Heq & Htr & Hw & Hk & Hcalls & Hyes & Hno).
    rewrite cycle_range_length in Hk.
    rewrite cycle_range_take in Hcalls, Hyes by done.
    rewrite cycle_range_last in Hyes.
    pose (warn := match Orchestrator.feedback st' with
                  | None => true
                  | Some fb => negb (approved fb)
                  end).
    exists st', (if warn then mkEnv (world e1)
                                (trace e1 ++ [LogWarning MaximumReviewCyclesReached])
                 else e1),
      (evs ++ if warn then [LogWarning MaximumReviewCyclesReached] else []),
      k, conv.
    assert (Hwarned : warned (evs ++ if warn
                                     then [LogWarning MaximumReviewCyclesReached]
                                     else []) = warn).
    { rewrite warned_app, Hw. by destruct warn. }
    assert (Hcalls' : agent_calls (evs ++ if warn
                                          then [LogWarning MaximumReviewCyclesReached]
                                          else [])
                      = expected_calls (Orchestrator.cycle_range (Z.of_nat k)) conv).
    { rewrite agent_calls_app, Hcalls. destruct warn; simpl; by rewrite app_nil_r. }
    split.
    { unfold Orchestrator._stage_review_edit_loop, bind.
      fold min_cycles max_cycles. rewrite Heq. fold warn.
      by destruct warn. }
    split.
    { destruct warn; cbn [trace]; rewrite Htr, <- ?app_assoc; [done|].
      by rewrite app_nil_r. }
    split; [lia|]. split; [exact Hcalls'|].
    split; [by rewrite Hcalls', review_cycles_of_expected|].
    split.
    { rewrite Hwarned. unfold warn.
      destruct (Orchestrator.feedback st') as [fb|]; [|done].
      by destruct (approved fb). }
    rewrite Hwarned. split.
    + intros Hc. destruct (Hyes Hc) as (Hv & c & fb & Hlast & Hfb & Hok & Hcy & Hmin & Hsc & _).
      destruct k as [|k]; [discriminate|]. injection Hlast as <-.
      split; [lia|]. split; [exact Hv|]. split.
      { unfold warn. by rewrite Hfb, Hok. }
      exists fb. by split_and!.
    + intros Hc. destruct (Hno Hc) as (Hlen & Hv & Hnil & Hlast).
      rewrite cycle_range_length in Hlen.
      assert (Hkmax : Z.of_nat k = Z.max 0 max_cycles) by lia.
      assert (Hrange : Orchestrator.cycle_range max_cycles
                       = Orchestrator.cycle_range (Z.of_nat k)).
      { unfold Orchestrator.cycle_range. by rewrite Nat2Z.id, Hlen. }
      rewrite Hrange in Hnil, Hlast. rewrite cycle_range_last in Hlast.
      split; [exact Hkmax|]. split; [exact Hv|]. split_and!.
      * intros ->. by apply Hnil.
      * intros Hpos. destruct k as [|k]; [lia|].
        destruct (Hlast _ eq_refl) as (fb & Hfb & Hcy & Hnot & Hsc & _).
        exists fb. by split_and!.
      * intros Hminmax Hstart. unfold warn.
        destruct k as [|k].
        -- rewrite (Hnil eq_refl).
           destruct Hstart as [->|Hmax]; [done|lia].
        -- destruct (Hlast _ eq_refl) as (fb & Hfb & Hcy & Hnot & _).
           rewrite Hfb.
           assert (Hle : (min_cycles <=? Z.of_nat (S k)) = true)
             by (apply Z.leb_le; lia).
           rewrite Hle, andb_true_r in Hnot. by rewrite Hnot.
Qed.

End LoopFacts.

(** ** Concrete runs against the scripted collaborator *)

(** The draft of the scenarios: an introduction and a conclusion. *)
Example scenario_draft_words :
  word_count (draft_of [("introduction", "X"); ("conclusion", "Y")]) = 2.
Proof. reflexivity. Qed.

(** C2 fails as stated: with [min_cycles = 3] and [max_cycles = 2], on a
    draft in which the reviewer finds nothing, both cycles run to their
    edit (the approval of cycle 2 comes before [min_cycles] and does not
    stop the loop), the loop returns, and no warning is logged, because
    the feedback kept is approved. *)
Lemma exhausted_without_warning :
  let r := @Orchestrator._stage_review_edit_loop scripted
             (Orchestrator.mkPaperConfig 3 2)
             (Orchestrator.mkWorkflowState Orchestrator.INIT (draft_of []) None 0)
             (start []) in
  agent_calls (trace r.2) = expected_calls (Orchestrator.cycle_range 2) false /\
  agent_calls (trace r.2) = [ReviewCall 1; EditCall; ReviewCall 2; EditCall] /\
  (exists st', r.1 = Orchestrator.Returned st' /\
               approved <$> Orchestrator.feedback st' = Some true) /\
  warned (trace r.2) = false.
Proof.
  split_and!.
  - vm_compute. reflexivity.
  - vm_compute. reflexivity.
  - eexists. split; vm_compute; reflexivity.
  - vm_compute. reflexivity.
Qed.

(** C10 on a feedback with an issue without excerpt and an issue of the
    consistency check: the first is left as it was, the second is marked
    resolved. *)
Lemma check_resolved_issues_edge_cases_witness :
  let d := draft_of [("introduction", "X")] in
  let i0 := issue_at "introduction" MAJOR "" "unclear" in
  let i1 := issue_at "cross-section" MAJOR "the claim" "contradiction" in
  let fb' := (@Reviewer._check_resolved_issues scripted d
                (feedback_of 1 [i0; i1] false) (start [])).1.2 in
  issues fb' !! 0%nat = Some i0 /\
  issues fb' !! 1%nat = Some (mark_resolved i1).
Proof.
  intros d i0 i1 fb'. split.
  - apply (proj1 (@check_resolved_issues_edge_cases scripted d
                    (feedback_of 1 [i0; i1] false) (start []) 0%nat i0 eq_refl)).
    reflexivity.
  - apply (proj2 (@check_resolved_issues_edge_cases scripted d
                    (feedback_of 1 [i0; i1] false) (start []) 1%nat i1 eq_refl));
      [reflexivity|discriminate].
Defined.

(** The first scenario: cycle 1 finds two major issues and does not
    approve; the edit rewrites the introduction, resolves both and makes
    the version 2; cycle 2 approves and the loop stops without an edit. *)
Example scenario_converges_at_cycle_two :
  loop_summary 2 5 converging_script
  = (Some (2, "X revised", Some true, []),
     [ReviewCall 1; EditCall; ReviewCall 2], false).
Proof. vm_compute. reflexivity. Qed.

(** The second scenario: a critical issue at every cycle; the loop runs
    cycles 1, 2 and 3, returns with the draft of the last edit and a
    feedback that is not approved, and logs the warning. *)
Example scenario_exhausts_three_cycles :
  loop_summary 2 3 stubborn_script
  = (Some (4, "X3", Some false, [true]),
     [ReviewCall 1; EditCall; ReviewCall 2; EditCall; ReviewCall 3; EditCall],
     true).
Proof. vm_compute. reflexivity. Qed.

(** Severities minor, critical, major, minor in one section are listed as
    critical, major, first minor, second minor; the issue of the
    consistency check is skipped with an error and stays unresolved; the
    version goes from 1 to 2. *)
Example scenario_mixed_severities :
  let r := @Editor._apply_all_fixes scripted
             (draft_of [("introduction", "X"); ("conclusion", "Y")])
             mixed_feedback (start ["X revised"]) in
  listed_in (trace r.2) = [["critical"; "major"; "first minor"; "second minor"]] /\
  LogError (UnknownSectionType "cross-section") ∈ trace r.2 /\
  resolved <$> issues r.1.2 = [true; true; false; true; true] /\
  version r.1.1.2 = 2 /\
  success r.1.1.1 = true.
Proof.
  split_and!; try (vm_compute; reflexivity).
  vm_compute. repeat constructor.
Qed.

(** An edit pass over a feedback without unresolved issues rewrites
    nothing and still raises the version. *)
Example scenario_nothing_to_fix :
  let r := @Editor._apply_all_fixes scripted
             (draft_of [("introduction", "X")])
             (feedback_of 2 [mark_resolved (issue_at "introduction" MAJOR "X" "done")]
                false)
             (start []) in
  version r.1.1.2 = 2 /\
  get_section r.1.1.2 INTRODUCTION = "X" /\
  trace r.2 = [LogInfo (ApplyingFixes 1)].
Proof. split_and!; vm_compute; reflexivity. Qed.

(** The first review never approves, also when nothing is found. *)
Example scenario_first_review_without_issues :
  let r := @Reviewer._review scripted
             (draft_of [("introduction", "X")]) 1
             (start ["NO_ISSUES: fine"; "CONSISTENT: aligned"]) in
  (fun fb => (issues fb, approved fb)) <$> feedback_in r.1.1 = Some ([], false).
Proof. vm_compute. reflexivity. Qed.

(** The final review approves a feedback with an unresolved major issue
    at cycle 2, which the standard review does not. *)
Example scenario_final_review_ignores_major :
  let d := draft_of [("introduction", "X")] in
  let script := [two_major_issues; "CONSISTENT: aligned"] in
  approved <$> feedback_in (@Reviewer._final_review scripted d 2 (start script)).1.1
  = Some true /\
  approved <$> feedback_in (@Reviewer._review scripted d 2 (start script)).1.1
  = Some false.
Proof. split; vm_compute; reflexivity. Qed.

(** A response whose blocks lack a category or a severity, or name unknown
    ones, parses to issues with the defaults. *)
Example scenario_parse_defaults :
  (fun i => (issue_type i, severity i, text_excerpt (location i)))
    <$> (@Reviewer.parse_issues scripted METHODOLOGY
           "SEVERITY: SEVERE
LOCATION: para 2
ISSUE: typo
DESCRIPTION: misspelt" (start [])).1
  = [(VAGUE_CLAIM, MINOR, "para 2"); (VAGUE_CLAIM, MINOR, "")].
Proof. vm_compute. reflexivity. Qed.

(** * Further properties of the code *)

(** ** The loop at its bounds *)

Section LoopBounds.
Context `{Collaborators}.

Lemma cycle_range_first (max_cycles : Z) :
  1 <= max_cycles ->
  Orchestrator.cycle_range max_cycles
  = 1 :: List.map Z.of_nat (seq 2 (Z.to_nat max_cycles - 1)).
Proof.
  intros Hmax. unfold Orchestrator.cycle_range.
  destruct (Z.to_nat max_cycles) as [|m] eqn:Hm; [lia|].
  simpl. by rewrite Nat.sub_0_r.
Qed.

Lemma cycle_range_none (max_cycles : Z) :
  max_cycles <= 0 -> Orchestrator.cycle_range max_cycles = [].
Proof.
  intros Hmax. unfold Orchestrator.cycle_range.
  assert (Z.to_nat max_cycles = 0%nat) as -> by lia. done.
Qed.

(** The review of cycle 1 never approves. *)
Lemma first_review_rejects (d : PaperDraft) (e : Env) (fb : ReviewFeedback) :
  feedback_in (Reviewer._review d 1 e).1.1 = Some fb -> approved fb = false.
Proof.
  destruct (review_shape d 1 e) as (fid & t & l & e' & ->). simpl.
  by intros [= <-].
Qed.

(** X1. Whatever [min_cycles] is, also 0 or 1, a run with [max_cycles >= 1]
    does not stop at cycle 1: the first review is followed by an edit, so
    the draft that leaves the loop has been edited at least once. *)
Theorem loop_edits_after_first_review
    (config : Orchestrator.PaperConfig) (st : Orchestrator.WorkflowState)
    (e : Env) :
  1 <= Orchestrator.max_review_cycles config ->
  exists st' e' evs calls,
    Orchestrator._stage_review_edit_loop config st e
    = (Orchestrator.Returned st', e') /\
    trace e' = trace e ++ evs /\
    agent_calls evs = ReviewCall 1 :: EditCall :: calls /\
    version (Orchestrator.draft st) + 1 <= version (Orchestrator.draft st').
Proof.
  intros Hmax. unfold Orchestrator._stage_review_edit_loop, bind.
  rewrite (cycle_range_first _ Hmax).
  set (rest := List.map Z.of_nat (seq 2 (Z.to_nat _ - 1))).
  set (min_cycles := Orchestrator.min_review_cycles config).
  destruct (cycle_step min_cycles 1 rest st e)
    as (fb & d1 & e1 & evs1 & fb' & d2 & e2 & evs2 & Hfb & _ & Htr1 & Hc1
        & _ & _ & _ & _ & Htr2 & Hc2 & _ & _ & _ & _ & Hv2 & Heq).
  rewrite Heq, (first_review_rejects _ _ _ Hfb). cbn [andb]. clear Heq.
  destruct (review_edit_cycles_run min_cycles rest
              (Orchestrator.mkWorkflowState Orchestrator.EDITING d2 (Some fb') 1) e2)
    as (st' & e3 & evs & k & conv & -> & Htr & _ & _ & Hcalls & Hyes & Hno).
  cbn [Orchestrator.draft] in *.
  pose (warn := match Orchestrator.feedback st' with
                | None => true
                | Some fb0 => negb (approved fb0)
                end).
  fold warn.
  exists st', (if warn then mkEnv (world e3)
                              (trace e3 ++ [LogWarning MaximumReviewCyclesReached])
               else e3),
    (evs1 ++ evs2 ++ evs
     ++ if warn then [LogWarning MaximumReviewCyclesReached] else []),
    (expected_calls (take k rest) conv).
  split_and!.
  - by destruct warn.
  - destruct warn; cbn [trace]; rewrite Htr, Htr2, Htr1, <- ?app_assoc; [done|].
    by rewrite app_nil_r.
  - rewrite !agent_calls_app, Hc1, Hc2, Hcalls. simpl.
    destruct warn; simpl; by rewrite app_nil_r.
  - destruct conv.
    + destruct (Hyes eq_refl) as (Hv & c & fb0 & Hlast & _).
      destruct k as [|k]; [discriminate|]. lia.
    + destruct (Hno eq_refl) as (_ & Hv & _). lia.
Qed.

(** X2. With [max_cycles <= 0] the loop calls no agent and returns the state
    as it was: the draft goes on unreviewed.  Nothing is logged but the
    warning, and that unless the state already held an approved
    feedback. *)
Theorem loop_without_cycles
    (config : Orchestrator.PaperConfig) (st : Orchestrator.WorkflowState)
    (e : Env) :
  Orchestrator.max_review_cycles config <= 0 ->
  Orchestrator._stage_review_edit_loop config st e
  = (Orchestrator.Returned st,
     if match Orchestrator.feedback st with
        | None => true
        | Some fb => negb (approved fb)
        end
     then mkEnv (world e) (trace e ++ [LogWarning MaximumReviewCyclesReached])
     else e).
Proof.
  intros Hmax. unfold Orchestrator._stage_review_edit_loop, bind.
  rewrite (cycle_range_none _ Hmax). simpl. unfold ret.
  destruct (Orchestrator.feedback st) as [fb|]; [|done].
  by destruct (approved fb).
Qed.

End LoopBounds.

(** ** What a review files *)

Section ReviewFindings.
Context `{Collaborators}.

Lemma startswith_found (line marker : string) :
  Str.startswith line marker = true -> found_verbatim marker line.
Proof.
  intros Hs. apply startswith_spec in Hs as [post ->].
  exists "", post. by rewrite append_nil_l.
Qed.

Lemma filter_none {A} (p : A -> bool) (l : list A) :
  (forall x, x ∈ l -> p x = false) -> List.filter p l = [].
Proof.
  induction l as [|a l IH]; intros Hall; [done|]. simpl.
  rewrite (Hall a) by constructor. apply IH. intros x Hx. apply Hall. by constructor.
Qed.

Lemma inconsistency_lines_nil (response : string) :
  Str.contains response "INCONSISTENCY:" = false ->
  inconsistency_lines response = [].
Proof.
  intros Hno. apply filter_none. intros line Hline.
  destruct (Str.startswith line "INCONSISTENCY:") eqn:Hs; [|done].
  assert (Str.contains response "INCONSISTENCY:" = true); [|congruence].
  apply contains_spec.
  eapply found_verbatim_trans; [by apply startswith_found|by apply splitlines_found].
Qed.

Lemma consistency_lines_run (lines : list string) (acc : list ReviewIssue) (e : Env) :
  exists found,
    (for_each lines Reviewer.consistency_line acc e).1 = acc ++ found /\
    Forall2 (fun line i =>
               consistency_finding i /\
               description i = Reviewer.field_value line "INCONSISTENCY:")
      (List.filter (fun line => Str.startswith line "INCONSISTENCY:") lines)
      found.
Proof.
  revert acc e. induction lines as [|line lines IH]; intros acc e.
  - exists []. simpl. by rewrite app_nil_r.
  - rewrite for_each_cons.
    destruct (Reviewer.consistency_line acc line e) as [acc' e'] eqn:Hstep.
    unfold Reviewer.consistency_line in Hstep.
    cbn [List.filter].
    destruct (Str.startswith line "INCONSISTENCY:") eqn:Hs.
    + unfold bind, fresh_uuid, ret in Hstep.
      destruct (uuid4 (world e)) as [u w]. simplify_eq/=.
      destruct (IH (acc ++ [mkReviewIssue u INCONSISTENCY MAJOR
                              (mkIssueLocation "cross-section" 0 "")
                              (Reviewer.field_value line "INCONSISTENCY:") "" false])
                  (mkEnv w (trace e))) as (found & Heq & Hfound).
      eexists (_ :: found). rewrite Heq, <- app_assoc. split; [done|].
      constructor; [|done]. by unfold consistency_finding.
    + unfold ret in Hstep. simplify_eq. apply IH.
Qed.

(** X3. The consistency check files one finding per line of the model's reply
    that starts with [INCONSISTENCY:] (the line is not stripped first, so
    an indented marker is not seen), in the order of the lines.  Every
    finding is an unresolved major inconsistency located at
    [cross-section], with no excerpt and no suggested fix; its description
    is the rest of the line. *)
Theorem check_consistency_findings (draft : PaperDraft) (e : Env) :
  Forall2 (fun line i =>
             consistency_finding i /\
             description i = Reviewer.field_value line "INCONSISTENCY:")
    (inconsistency_lines (consistency_reply draft e))
    (Reviewer._check_consistency draft e).1.
Proof.
  unfold Reviewer._check_consistency, consistency_reply, bind, generate.
  destruct (llm_generate _ _ _) as [response w]. simpl.
  destruct (Str.contains response "INCONSISTENCY:") eqn:Hc.
  - destruct (consistency_lines_run (Str.splitlines response) []
                (mkEnv w (trace e ++ [Generate
                   (ConsistencyPrompt (get_section draft ABSTRACT)
                      (Str.slice_to 1000 (get_section draft INTRODUCTION))
                      (Str.slice_to 1000 (get_section draft CONCLUSION))) 1000])))
      as (found & -> & Hfound).
    exact Hfound.
  - rewrite (inconsistency_lines_nil _ Hc). constructor.
Qed.

Lemma check_consistency_located (draft : PaperDraft) (e : Env) :
  Forall consistency_finding (Reviewer._check_consistency draft e).1.
Proof.
  unfold Reviewer._check_consistency, bind, generate.
  destruct (llm_generate _ _ _) as [response w]. simpl.
  destruct (Str.contains response "INCONSISTENCY:"); [|constructor].
  match goal with |- context [for_each ?l _ _ ?e0] =>
    destruct (consistency_lines_run l [] e0) as (found & -> & Hfound) end.
  simpl. clear -Hfound.
  induction Hfound as [|line i lines found [Hi _] _ IH]; by constructor.
Qed.

Lemma Forall2_blocks {A B : Type} (P : A -> B -> Prop) (l : list A) (k : list B) :
  Forall2 P l k -> Forall (fun y => exists x, x ∈ l /\ P x y) k.
Proof.
  induction 1 as [|x y l k Hxy _ IH]; constructor.
  - exists x. split; [constructor|done].
  - eapply Forall_impl; [exact IH|]. intros y' (x' & Hx' & HP).
    exists x'. split; [by constructor|done].
Qed.

Lemma parse_issues_filed (s : SectionType) (response : string) (e : Env) :
  Forall (fun i => filed_under s i /\
                   exists b, b ∈ marker_blocks response
                             /\ built_from (block_fields b) i)
    (Reviewer.parse_issues s response e).1.
Proof.
  destruct (Str.contains response "NO_ISSUES") eqn:Hno.
  - unfold Reviewer.parse_issues. rewrite Hno. constructor.
  - eapply Forall_impl; [exact (Forall2_blocks _ _ _ (parse_issues_blocks s response e Hno))|].
    intros i (b & Hb & Hfiled & Hbuilt). eauto.
Qed.

Lemma review_sections_located (draft : PaperDraft) (c : Z) (e : Env) :
  Forall (located_by_review draft c) (Reviewer.review_sections draft c e).1.
Proof.
  unfold Reviewer.review_sections.
  apply (for_each_inv (Forall (located_by_review draft c))); [|constructor].
  intros l s e0 _ Hl. cbv beta zeta.
  destruct (String.eqb (get_section draft s) "") eqn:Hempty; cbn [negb]; [done|].
  apply String.eqb_neq in Hempty.
  unfold Reviewer._review_section, generate, bind, ret. cbv beta.
  pose proof (eq_refl (section_reply draft c s e0)) as Hreply.
  unfold section_reply at 2 in Hreply.
  destruct (llm_generate _ _ (world e0)) as [response w].
  cbn [fst] in Hreply.
  match goal with |- context [Reviewer.parse_issues s response ?e1] =>
    pose proof (parse_issues_filed s response e1) as Hfiled;
    destruct (Reviewer.parse_issues s response e1) as [found e2] end.
  simpl in *. apply Forall_app. split; [done|].
  eapply Forall_impl; [exact Hfiled|].
  intros i (Hi & b & Hb & Hbuilt). left. exists s. split_and!; try done.
  exists e0, b. by rewrite Hreply.
Qed.

(** The issues of a review, with where they are filed. *)
Lemma review_located (draft : PaperDraft) (c : Z) (e : Env) :
  exists fid t l e',
    Reviewer._review draft c e =
      (mkAgentResult true
         (Some (Reviewer.mkReviewData
                  (mkReviewFeedback fid (Some (paper_id draft)) c l
                     (Reviewer._generate_assessment l c)
                     (if c <? 2 then false else Reviewer.no_critical_major l) t)
                  (length l)
                  (Reviewer.count_severity CRITICAL l)
                  (Reviewer.count_severity MAJOR l)
                  (Reviewer.count_severity MINOR l)
                  (if c <? 2 then false else Reviewer.no_critical_major l) c))
         None,
       mkPaperDraft (paper_id draft) (session_id draft) (version draft)
         (sections draft) (word_count draft) (status draft) c
         (created_at draft) (updated_at draft),
       e') /\
    Forall (located_by_review draft c) l.
Proof.
  unfold Reviewer._review, bind, log_info, emit, fresh_uuid, now, ret. simpl.
  repeat run_step.
  assert (Forall (located_by_review draft c) (x1 ++ x2)) as Hall.
  { apply Forall_app. split.
    - match goal with Hr : Reviewer.review_sections draft c ?e0 = _ |- _ =>
        pose proof (review_sections_located draft c e0) as Hl; by rewrite Hr in Hl end.
    - match goal with Hr : Reviewer._check_consistency draft ?e0 = _ |- _ =>
        pose proof (check_consistency_located draft e0) as Hl; rewrite Hr in Hl end.
      eapply Forall_impl; [exact Hl|]. intros i Hi. by right. }
  destruct (c <? 2); simplify_eq/=; eauto 10.
Qed.

Lemma not_cross_section (s : SectionType) :
  SectionType_value s <> "cross-section".
Proof. by destruct s. Qed.

Lemma cross_section_unknown : SectionType_of_value "cross-section" = None.
Proof. reflexivity. Qed.


(** X5. One finding of the consistency check is enough to refuse approval:
    at whatever cycle, a review whose feedback holds an issue located at
    [cross-section] is not approved. *)
Theorem consistency_finding_blocks_approval (draft : PaperDraft) (c : Z) (e : Env) :
  exists fb,
    feedback_in (Reviewer._review draft c e).1.1 = Some fb /\
    ((exists i, i ∈ issues fb /\ section (location i) = "cross-section") ->
     approved fb = false).
Proof.
  destruct (review_located draft c e) as (fid & t & l & e' & -> & Hall).
  eexists. split; [reflexivity|]. simpl.
  intros (i & Hi & Hcross).
  destruct (c <? 2); [done|].
  destruct (Reviewer.no_critical_major l) eqn:Hok; [|done].
  exfalso. apply (proj1 (no_critical_major_spec l) Hok i Hi).
  destruct (proj1 (Forall_forall _ _) Hall i Hi) as [(s & (Hs & _) & _)|(_ & Hsev & _ & _ & Hr)].
  - rewrite Hs in Hcross. by apply not_cross_section in Hcross.
  - split; [by right|done].
Qed.

Lemma severity_partition (l : list ReviewIssue) :
  length l
  = (Reviewer.count_severity CRITICAL l + Reviewer.count_severity MAJOR l
     + Reviewer.count_severity MINOR l)%nat.
Proof.
  unfold Reviewer.count_severity.
  induction l as [|i l IH]; [done|]. simpl.
  destruct (severity i); simpl; lia.
Qed.

(** X6. The numbers a review reports agree with its feedback: the issue count
    is the number of issues and the sum of the three severity counts, the
    critical and major counts are those of [get_critical_issues] and
    [get_major_issues] (resolved or not), the approval and the cycle are
    the feedback's, and the feedback names the draft reviewed. *)
Theorem review_data_agrees_with_feedback (draft : PaperDraft) (c : Z) (e : Env) :
  exists rd,
    (Reviewer._review draft c e).1.1 = mkAgentResult true (Some rd) None /\
    let fb := Reviewer.data_feedback rd in
    Reviewer.issue_count rd = length (issues fb) /\
    Reviewer.issue_count rd
    = (Reviewer.critical_count rd + Reviewer.major_count rd
       + Reviewer.minor_count rd)%nat /\
    Reviewer.critical_count rd = length (get_critical_issues fb) /\
    Reviewer.major_count rd = length (get_major_issues fb) /\
    Reviewer.data_approved rd = approved fb /\
    Reviewer.data_cycle rd = c /\ cycle fb = c /\
    draft_id fb = Some (paper_id draft).
Proof.
  destruct (review_shape draft c e) as (fid & t & l & e' & ->).
  eexists. split; [reflexivity|]. simpl.
  split_and!; try done. apply severity_partition.
Qed.

End ReviewFindings.

(** ** The counts of the resolution check *)

Section ResolutionCheck.
Context `{Collaborators}.

Lemma excerpt_gone_mark (draft : PaperDraft) (i : ReviewIssue) :
  Reviewer.excerpt_gone draft
    (if Reviewer.excerpt_gone draft i then mark_resolved i else i)
  = Reviewer.excerpt_gone draft i.
Proof. by destruct (Reviewer.excerpt_gone draft i) eqn:Hg. Qed.

Lemma check_unresolved_bound (draft : PaperDraft) (l : list ReviewIssue) :
  (length (List.filter (fun i => negb (resolved i))
             ((fun i => if Reviewer.excerpt_gone draft i
                        then mark_resolved i else i) <$> l))
   + length (List.filter (Reviewer.excerpt_gone draft) l) <= length l)%nat /\
  (Forall (fun i => resolved i = false) l ->
   (length (List.filter (fun i => negb (resolved i))
              ((fun i => if Reviewer.excerpt_gone draft i
                         then mark_resolved i else i) <$> l))
    + length (List.filter (Reviewer.excerpt_gone draft) l) = length l)%nat).
Proof.
  induction l as [|i l [IH1 IH2]]; [done|]. split.
  - cbn [fmap list_fmap List.filter length].
    destruct (Reviewer.excerpt_gone draft i); cbn [mark_resolved resolved negb length].
    + simpl in *. lia.
    + destruct (resolved i); simpl in *; lia.
  - intros Hall. apply Forall_cons in Hall as [Hi Hall]. specialize (IH2 Hall).
    cbn [fmap list_fmap List.filter length].
    destruct (Reviewer.excerpt_gone draft i); cbn [mark_resolved resolved negb length].
    + simpl in *. lia.
    + rewrite Hi. simpl in *. lia.
Qed.

(** X7. The resolution check asks the model nothing and logs nothing, and its
    counts add up: [resolved + remaining = total_issues], with [remaining]
    never negative.  [resolved] counts every issue whose excerpt is gone,
    also one that was resolved before the call; so [remaining] is an upper
    bound on the number of issues still unresolved afterwards, and is that
    number when no issue was resolved before. *)
Theorem check_resolved_issues_counts
    (draft : PaperDraft) (fb : ReviewFeedback) (e : Env) :
  exists cd fb',
    Reviewer._check_resolved_issues draft fb e
    = (mkAgentResult true (Some cd) None, fb', e) /\
    Reviewer.total_issues cd = length (issues fb) /\
    length (issues fb') = length (issues fb) /\
    Z.of_nat (Reviewer.resolved_count cd) + Reviewer.remaining cd
    = Z.of_nat (Reviewer.total_issues cd) /\
    0 <= Reviewer.remaining cd /\
    Z.of_nat (length (get_unresolved_issues fb')) <= Reviewer.remaining cd /\
    (Forall (fun i => resolved i = false) (issues fb) ->
     Z.of_nat (length (get_unresolved_issues fb')) = Reviewer.remaining cd).
Proof.
  unfold Reviewer._check_resolved_issues, ret. do 2 eexists.
  split; [reflexivity|]. cbn [Reviewer.total_issues Reviewer.resolved_count
                              Reviewer.remaining].
  unfold get_unresolved_issues, with_issues. cbn [issues].
  destruct (check_unresolved_bound draft (issues fb)) as [Hle Heq].
  split_and!.
  - done.
  - by rewrite length_fmap.
  - lia.
  - lia.
  - lia.
  - intros Hall. specialize (Heq Hall). lia.
Qed.

(** X8. Checking twice is the same as checking once: a second check of the
    same draft returns the same counts and changes no issue. *)
Theorem check_resolved_issues_idempotent
    (draft : PaperDraft) (fb : ReviewFeedback) (e : Env) :
  Reviewer._check_resolved_issues draft
    (Reviewer._check_resolved_issues draft fb e).1.2
    (Reviewer._check_resolved_issues draft fb e).2
  = Reviewer._check_resolved_issues draft fb e.
Proof.
  unfold Reviewer._check_resolved_issues, ret, with_issues. cbn [fst snd issues
    feedback_id draft_id cycle overall_assessment approved feedback_created_at].
  assert (Hmap : forall l : list ReviewIssue,
    (fun i => if Reviewer.excerpt_gone draft i then mark_resolved i else i)
      <$> ((fun i => if Reviewer.excerpt_gone draft i then mark_resolved i else i)
             <$> l)
    = (fun i => if Reviewer.excerpt_gone draft i then mark_resolved i else i)
        <$> l).
  { intros l. rewrite <- list_fmap_compose. apply list_fmap_ext.
    intros _ i _. simpl. rewrite excerpt_gone_mark.
    by destruct (Reviewer.excerpt_gone draft i). }
  assert (Hgone : forall l : list ReviewIssue,
    length (List.filter (Reviewer.excerpt_gone draft)
              ((fun i => if Reviewer.excerpt_gone draft i
                         then mark_resolved i else i) <$> l))
    = length (List.filter (Reviewer.excerpt_gone draft) l)).
  { induction l as [|i l IH]; [done|].
    rewrite fmap_cons. cbn [List.filter]. rewrite excerpt_gone_mark.
    destruct (Reviewer.excerpt_gone draft i); cbn [length]; by rewrite IH. }
  by rewrite Hmap, Hgone, length_fmap.
Qed.

End ResolutionCheck.

(** ** How many issues a section review gives *)

Section ParseCount.
Context `{Collaborators}.

Lemma flush_issue_length (s : SectionType) (cur : gmap string string)
    (l : list ReviewIssue) (e : Env) :
  length (Reviewer.flush_issue s cur l e).1 = (length l + pending cur)%nat.
Proof.
  unfold Reviewer.flush_issue, pending. case_bool_decide.
  - unfold ret. simpl. lia.
  - unfold bind, Reviewer._create_issue, bind, fresh_uuid, ret.
    destruct (uuid4 (world e)) as [u w]. simpl. by rewrite length_app.
Qed.

Lemma parse_line_unmarked (s : SectionType) (cur : gmap string string)
    (l : list ReviewIssue) (raw : string) (e : Env) :
  marker_of raw = None ->
  Reviewer.parse_line s (cur, l) raw e = ((cur, l), e).
Proof.
  intros Hnone. apply parse_line_skip. intros m Hm.
  apply list_elem_of_In in Hm.
  exact (find_none _ _ Hnone m Hm).
Qed.

Lemma parse_line_marked (s : SectionType) (cur : gmap string string)
    (l : list ReviewIssue) (raw : string) (e : Env) (m : string) :
  marker_of raw = Some m ->
  (Reviewer.parse_line s (cur, l) raw e).1.1 <> ∅ /\
  length (Reviewer.parse_line s (cur, l) raw e).1.2
  = (length l + pending cur * issue_markers [m])%nat.
Proof.
  unfold marker_of, Reviewer.field_markers, Reviewer.parse_line. cbn [find].
  destruct (Str.startswith (Str.strip raw) "ISSUE:").
  { intros [= <-]. unfold bind.
    pose proof (flush_issue_length s cur l e) as Hlen.
    destruct (Reviewer.flush_issue s cur l e) as [l' e']. simpl in *.
    split; [apply insert_non_empty|]. rewrite Hlen.
    change (issue_markers ["ISSUE:"]) with 1%nat. lia. }
  destruct (Str.startswith (Str.strip raw) "SEVERITY:").
  { intros [= <-]. unfold ret. simpl. split; [apply insert_non_empty|].
    change (issue_markers ["SEVERITY:"]) with 0%nat. lia. }
  destruct (Str.startswith (Str.strip raw) "LOCATION:").
  { intros [= <-]. unfold ret. simpl. split; [apply insert_non_empty|].
    change (issue_markers ["LOCATION:"]) with 0%nat. lia. }
  destruct (Str.startswith (Str.strip raw) "DESCRIPTION:").
  { intros [= <-]. unfold ret. simpl. split; [apply insert_non_empty|].
    change (issue_markers ["DESCRIPTION:"]) with 0%nat. lia. }
  destruct (Str.startswith (Str.strip raw) "SUGGESTION:"); [|done].
  intros [= <-]. unfold ret. simpl. split; [apply insert_non_empty|].
  change (issue_markers ["SUGGESTION:"]) with 0%nat. lia.
Qed.

Lemma issue_markers_cons (m : string) (ms : list string) :
  issue_markers (m :: ms) = (issue_markers [m] + issue_markers ms)%nat.
Proof.
  unfold issue_markers. cbn [List.filter].
  by destruct (String.eqb "ISSUE:" m).
Qed.

Lemma parse_lines_count (s : SectionType) (lines : list string)
    (cur : gmap string string) (l : list ReviewIssue) (e : Env) :
  let r := (for_each lines (Reviewer.parse_line s) (cur, l) e).1 in
  (length r.2 + pending r.1)%nat
  = if bool_decide (cur = ∅) then
      match omap marker_of lines with
      | [] => length l
      | _ :: rest => (length l + 1 + issue_markers rest)%nat
      end
    else (length l + 1 + issue_markers (omap marker_of lines))%nat.
Proof.
  revert cur l e. induction lines as [|raw lines IH]; intros cur l e.
  - cbn. unfold pending. case_bool_decide; cbn; lia.
  - cbv zeta. rewrite for_each_cons.
    change (omap marker_of (raw :: lines))
      with (match marker_of raw with
            | Some m => m :: omap marker_of lines
            | None => omap marker_of lines
            end).
    destruct (marker_of raw) as [m|] eqn:Hm.
    + destruct (parse_line_marked s cur l raw e m Hm) as [Hne Hlen].
      destruct (Reviewer.parse_line s (cur, l) raw e) as [[cur' l'] e'].
      cbn [fst snd] in Hne, Hlen.
      specialize (IH cur' l' e'). cbv zeta in IH. rewrite IH.
      rewrite (bool_decide_eq_false_2 (cur' = ∅)) by done.
      rewrite (issue_markers_cons m (omap marker_of lines)), Hlen.
      unfold pending.
      destruct (bool_decide (cur = ∅)); lia.
    + rewrite (parse_line_unmarked s cur l raw e Hm). apply IH.
Qed.

(** X9. The number of issues of a section review.  A reply that contains
    [NO_ISSUES] anywhere gives none.  Otherwise, with the lines that start
    with a field marker read in order, the first of them opens an issue
    whichever marker it is, and each later [ISSUE:] line opens one more:
    fields that come before the first [ISSUE:] line make an issue of their
    own, and a repeated field adds none. *)
Theorem parse_issues_count (s : SectionType) (response : string) (e : Env) :
  length (Reviewer.parse_issues s response e).1
  = if Str.contains response "NO_ISSUES" then 0%nat
    else match marker_lines response with
         | [] => 0%nat
         | _ :: rest => S (issue_markers rest)
         end.
Proof.
  unfold Reviewer.parse_issues, marker_lines.
  destruct (Str.contains response "NO_ISSUES"); [done|]. cbn [negb].
  unfold bind.
  pose proof (parse_lines_count s (Str.splitlines response) ∅ [] e) as Hcount.
  cbv zeta in Hcount.
  destruct (for_each _ _ _ e) as [[cur l] e1]. cbn [fst snd] in *.
  rewrite flush_issue_length, Hcount.
  rewrite bool_decide_eq_true_2 by done.
  destruct (omap marker_of (Str.splitlines response)); cbn [length]; lia.
Qed.

End ParseCount.

(** ** A pass of fixes, and what follows it *)

Section FixPasses.
Context `{Collaborators}.

Lemma mark_resolved_resolved (i : ReviewIssue) :
  resolved i = true -> mark_resolved i = i.
Proof. destruct i. simpl. by intros ->. Qed.

Lemma touched_spec (d : PaperDraft) (store : list ReviewIssue) (k : nat)
    (i : ReviewIssue) :
  store !! k = Some i ->
  touched d (Editor.sort_groups store (Editor.group_by_section store)) k
  = negb (resolved i) && rewritten d (section (location i)).
Proof.
  intros Hk. destruct (resolved i) eqn:Hr; simpl.
  - by apply (untouched_resolved d store k i).
  - destruct (rewritten d (section (location i))) eqn:Hrw.
    + destruct (unresolved_has_group store k i Hk Hr) as (refs & Hin & Hkin).
      unfold touched. apply existsb_exists.
      exists (section (location i), refs). split; [by apply list_elem_of_In|].
      simpl. rewrite Hrw. by apply bool_decide_eq_true_2.
    + apply (untouched_outside_rewritten d store _ k i); [|done|done].
      apply sorted_groups_spec.
Qed.

Lemma apply_all_fixes_unfold (draft : PaperDraft) (fb : ReviewFeedback) (e : Env) :
  let groups := Editor.sort_groups (issues fb) (Editor.group_by_section (issues fb)) in
  let r := for_each groups Editor.edit_group
             (Editor.mkEditState draft (issues fb) [] 0)
             (mkEnv (world e)
                (trace e ++ [LogInfo (ApplyingFixes (length (issues fb)))])) in
  Editor._apply_all_fixes draft fb e
  = (mkAgentResult true
       (Some (Editor.mkApplyData (bump_version (Editor.cur_draft r.1))
                (Editor.cur_sections_edited r.1) (Editor.cur_issues_fixed r.1)
                (version (Editor.cur_draft r.1) + 1) true))
       None,
     bump_version (Editor.cur_draft r.1),
     with_issues fb (Editor.cur_store r.1), r.2).
Proof.
  intros groups r. subst r.
  unfold Editor._apply_all_fixes, bind, log_info, emit, ret. simpl. fold groups.
  by destruct (for_each groups Editor.edit_group _ _) as [st' e'].
Qed.

(** The issues after a pass of fixes. *)
Lemma apply_all_fixes_issues (draft : PaperDraft) (fb : ReviewFeedback) (e : Env) :
  issues (Editor._apply_all_fixes draft fb e).1.2
  = resolve_where_rewritten draft <$> issues fb.
Proof.
  destruct (apply_all_fixes_run draft fb e)
    as (d' & store' & edited & fixed & e' & -> & _ & _ & Hst & _ & _).
  simpl. apply list_eq. intros k. rewrite Hst, list_lookup_fmap.
  destruct (issues fb !! k) as [i|] eqn:Hk; [|done]. simpl.
  rewrite (touched_spec _ _ _ _ Hk). unfold resolve_where_rewritten.
  destruct (resolved i) eqn:Hr, (rewritten draft _); simpl; try done.
  by rewrite mark_resolved_resolved.
Qed.

Lemma rewritten_known (draft : PaperDraft) (s : SectionType) :
  rewritten draft (SectionType_value s)
  = negb (String.eqb (get_section draft s) "").
Proof. unfold rewritten. by rewrite SectionType_of_value_value. Qed.

(** X10. A review followed by a pass of fixes leaves unresolved exactly the
    findings of the consistency check: every issue filed under a section
    is marked resolved, whatever the model made of the section, and no
    finding located at [cross-section] ever is. *)
Theorem fixes_after_review_leave_consistency_findings
    (draft : PaperDraft) (c : Z) (e : Env) :
  exists fb,
    feedback_in (Reviewer._review draft c e).1.1 = Some fb /\
    let fb' := (Editor._apply_all_fixes (Reviewer._review draft c e).1.2 fb
                  (Reviewer._review draft c e).2).1.2 in
    get_unresolved_issues fb' = List.filter at_cross_section (issues fb) /\
    Forall consistency_finding (get_unresolved_issues fb').
Proof.
  destruct (review_located draft c e) as (fid & t & l & e' & -> & Hall).
  eexists. split; [reflexivity|]. cbn [fst snd]. cbv zeta.
  unfold get_unresolved_issues. rewrite apply_all_fixes_issues.
  cbn [issues Reviewer.data_feedback].
  set (d1 := mkPaperDraft _ _ _ _ _ _ _ _ _).
  assert (Heq : List.filter (fun i => negb (resolved i))
                  (resolve_where_rewritten d1 <$> l)
                = List.filter at_cross_section l
                /\ Forall consistency_finding (List.filter at_cross_section l)).
  { clear -Hall. induction Hall as [|i l Hi _ [IH1 IH2]]; [by split|].
    rewrite fmap_cons. cbn [List.filter].
    destruct Hi as [(s & (Hs & _ & Hr) & Htext & _)|Hi].
    - assert (Hcross : at_cross_section i = false).
      { unfold at_cross_section. rewrite Hs.
        apply String.eqb_neq, not_cross_section. }
      assert (Hres : resolve_where_rewritten d1 i = mark_resolved i).
      { unfold resolve_where_rewritten. rewrite Hs, rewritten_known.
        change (get_section d1 s) with (get_section draft s).
        apply String.eqb_neq in Htext. by rewrite Htext. }
      rewrite Hcross, Hres. by split.
    - pose proof Hi as (_ & _ & Hloc & _ & Hr).
      assert (Hcross : at_cross_section i = true).
      { unfold at_cross_section. by rewrite Hloc. }
      assert (Hres : resolve_where_rewritten d1 i = i).
      { unfold resolve_where_rewritten. by rewrite Hloc. }
      rewrite Hcross, Hres, Hr. cbn [negb].
      split; [by f_equal|by constructor]. }
  destruct Heq as [-> Hc]. by split.
Qed.


Lemma edit_group_report (st : Editor.EditState) (name : string) (refs : list nat)
    (e : Env) :
  let r := Editor.edit_group st (name, refs) e in
  Editor.cur_sections_edited r.1
  = Editor.cur_sections_edited st
    ++ (if rewritten (Editor.cur_draft st) name then [name] else []) /\
  Editor.cur_issues_fixed r.1
  = (Editor.cur_issues_fixed st
     + if rewritten (Editor.cur_draft st) name then length refs else 0)%nat /\
  (rewritten (Editor.cur_draft st) name = false ->
   r = (st, mkEnv (world e)
              (trace e ++ group_events (Editor.cur_draft st) (Editor.cur_store st)
                            (name, refs)))).
Proof.
  unfold Editor.edit_group, group_events, rewritten. simpl.
  destruct (SectionType_of_value name) as [s|] eqn:Hname.
  - unfold bind.
    destruct (decide (get_section (Editor.cur_draft st) s = "")) as [Hempty|Htext].
    + rewrite (edit_section_empty _ _ _ _ _ Hempty). simpl.
      rewrite Hempty. simpl. rewrite app_nil_r, Nat.add_0_r.
      split_and!; try done. intros _. unfold ret. by destruct st.
    + destruct (edit_section_rewrites _ s refs (Editor.cur_store st) e Htext)
        as (edited & t & w & ->). simpl.
      apply String.eqb_neq in Htext. rewrite Htext. simpl. by split_and!.
  - unfold bind, log_error, emit, ret. simpl. rewrite app_nil_r, Nat.add_0_r.
    by split_and!.
Qed.

Lemma edit_groups_idle (groups : list (string * list nat)) (st : Editor.EditState)
    (e : Env) :
  (forall g, g ∈ groups -> rewritten (Editor.cur_draft st) g.1 = false) ->
  for_each groups Editor.edit_group st e
  = (st, mkEnv (world e)
           (trace e ++ flat_map (group_events (Editor.cur_draft st)
                                   (Editor.cur_store st)) groups)).
Proof.
  revert e. induction groups as [|[name refs] rest IH]; intros e Hidle.
  - simpl. unfold ret. rewrite app_nil_r. by destruct e.
  - rewrite for_each_cons.
    destruct (edit_group_report st name refs e) as (_ & _ & Hstep).
    rewrite Hstep by apply (Hidle (name, refs)), list_elem_of_here.
    rewrite IH by (intros g Hg; by apply Hidle, list_elem_of_further).
    cbn [world trace flat_map]. by rewrite <- app_assoc.
Qed.

Lemma edit_groups_report (groups : list (string * list nat)) (st : Editor.EditState)
    (e : Env) :
  NoDup groups.*1 ->
  let r := for_each groups Editor.edit_group st e in
  Editor.cur_sections_edited r.1
  = Editor.cur_sections_edited st
    ++ List.filter (rewritten (Editor.cur_draft st)) groups.*1 /\
  Editor.cur_issues_fixed r.1
  = (Editor.cur_issues_fixed st
     + sum_list ((fun g : string * list nat =>
                    if rewritten (Editor.cur_draft st) g.1 then length g.2 else 0%nat)
                 <$> groups))%nat /\
  (forall name, rewritten (Editor.cur_draft st) name = false ->
                rewritten (Editor.cur_draft r.1) name = false).
Proof.
  revert st e. induction groups as [|[name refs] rest IH]; intros st e Hnd.
  - simpl. rewrite app_nil_r, Nat.add_0_r. by split_and!.
  - apply NoDup_cons in Hnd as [Hname Hrest].
    cbv zeta. rewrite for_each_cons.
    pose proof (edit_group_run st name refs e) as Hrun.
    pose proof (edit_group_report st name refs e) as Hrep.
    destruct (Editor.edit_group st (name, refs) e) as [st1 e1].
    cbv zeta in Hrun, Hrep. cbn [fst snd] in Hrun, Hrep.
    destruct Hrun as (_ & _ & Hsec1 & _ & _).
    destruct Hrep as (Hed1 & Hfix1 & Hidle1).
    assert (Hsame : forall name', name' <> name ->
              rewritten (Editor.cur_draft st1) name'
              = rewritten (Editor.cur_draft st) name').
    { intros name' Hne. apply rewritten_ext. intros s Hs. apply Hsec1. congruence. }
    specialize (IH st1 e1 Hrest). cbv zeta in IH.
    destruct IH as (Hed2 & Hfix2 & Hkeep2).
    split_and!.
    + rewrite Hed2, Hed1, <- app_assoc. f_equal.
      rewrite fmap_cons. cbn [List.filter fst].
      assert (List.filter (rewritten (Editor.cur_draft st1)) rest.*1
              = List.filter (rewritten (Editor.cur_draft st)) rest.*1) as ->.
      { apply filter_ext_in. intros name' Hin. apply Hsame. intros ->.
        by apply Hname, list_elem_of_In. }
      by destruct (rewritten (Editor.cur_draft st) name).
    + rewrite Hfix2, Hfix1, fmap_cons. cbn [sum_list_with id fst snd].
      assert ((fun g : string * list nat =>
                 if rewritten (Editor.cur_draft st1) g.1 then length g.2 else 0%nat)
                <$> rest
              = (fun g : string * list nat =>
                   if rewritten (Editor.cur_draft st) g.1 then length g.2 else 0%nat)
                  <$> rest) as ->; [|lia].
      apply list_fmap_ext. intros k [name' refs'] Hk. cbn [fst snd].
      rewrite Hsame; [done|]. intros ->. apply Hname.
      apply list_elem_of_fmap. exists (name, refs'). split; [done|].
      by apply list_elem_of_lookup_2 in Hk.
    + intros name' Hnot. apply Hkeep2.
      destruct (decide (name' = name)) as [->|Hne]; [|by rewrite Hsame].
      specialize (Hidle1 Hnot). injection Hidle1 as -> _. done.
Qed.

Lemma sum_list_zero {A} (l : list A) : sum_list ((fun _ => 0%nat) <$> l) = 0%nat.
Proof. induction l as [|a l IH]; [done|]. by rewrite fmap_cons. Qed.

Lemma sum_list_plus {A} (f g : A -> nat) (l : list A) :
  sum_list ((fun a => f a + g a)%nat <$> l)
  = (sum_list (f <$> l) + sum_list (g <$> l))%nat.
Proof.
  induction l as [|a l IH]; [done|]. rewrite !fmap_cons. simpl in *. lia.
Qed.

Lemma sum_list_delta (p : string -> bool) (k : string) (names : list string) :
  NoDup names ->
  sum_list ((fun n => if p n && String.eqb k n then 1 else 0)%nat <$> names)
  = if p k && bool_decide (k ∈ names) then 1%nat else 0%nat.
Proof.
  induction 1 as [|n names Hn Hnd IH]; [by rewrite andb_false_r|].
  rewrite fmap_cons. cbn [sum_list_with id]. rewrite IH.
  destruct (String.eqb_spec k n) as [->|Hne].
  - rewrite (bool_decide_eq_true_2 (n ∈ n :: names)) by constructor.
    rewrite (bool_decide_eq_false_2 (n ∈ names)) by done.
    rewrite andb_false_r, andb_true_r. by destruct (p n).
  - rewrite andb_false_r. simpl.
    destruct (decide (k ∈ names)) as [Hin|Hout].
    + rewrite (bool_decide_eq_true_2 (k ∈ n :: names))
        by (by apply list_elem_of_further).
      by rewrite (bool_decide_eq_true_2 (k ∈ names)).
    + rewrite (bool_decide_eq_false_2 (k ∈ n :: names))
        by (rewrite not_elem_of_cons; by split).
      by rewrite (bool_decide_eq_false_2 (k ∈ names)).
Qed.

(** Counting the unresolved issues by section name. *)
Lemma count_by_section (p : string -> bool) (names : list string)
    (l : list ReviewIssue) :
  NoDup names ->
  (forall i, i ∈ l -> resolved i = false -> section (location i) ∈ names) ->
  sum_list ((fun n => if p n then length (unresolved_in n l) else 0)%nat <$> names)
  = length (List.filter
              (fun i => negb (resolved i) && p (section (location i))) l).
Proof.
  intros Hnd. induction l as [|i l IH]; intros Hin.
  - cbn [unresolved_in List.filter length].
    transitivity (sum_list ((fun _ : string => 0%nat) <$> names));
      [|apply sum_list_zero].
    f_equal. apply list_fmap_ext. intros _ n _. by destruct (p n).
  - specialize (IH (fun i' Hi' => Hin i' (list_elem_of_further _ _ _ Hi'))).
    cbn [List.filter]. destruct (resolved i) eqn:Hr; cbn [negb andb].
    + rewrite <- IH. f_equal. apply list_fmap_ext. intros _ n _.
      unfold unresolved_in. cbn [List.filter]. by rewrite Hr.
    + assert ((fun n => if p n then length (unresolved_in n (i :: l)) else 0)%nat
                <$> names
              = (fun n => (if p n && String.eqb (section (location i)) n
                           then 1 else 0)
                          + (if p n then length (unresolved_in n l) else 0))%nat
                  <$> names) as ->.
      { apply list_fmap_ext. intros _ n _.
        unfold unresolved_in. cbn [List.filter]. rewrite Hr. cbn [negb andb].
        destruct (p n), (String.eqb (section (location i)) n); simpl; lia. }
      rewrite sum_list_plus, IH, (sum_list_delta p _ names Hnd).
      rewrite (bool_decide_eq_true_2 (section (location i) ∈ names))
        by (apply Hin; [constructor|done]).
      rewrite andb_true_r. by destruct (p (section (location i))).
Qed.

Lemma group_fold_keys (name : string) (l : list (nat * ReviewIssue))
    (groups : list (string * list nat)) :
  name ∈ (fold_left
            (fun (groups : list (string * list nat)) (ri : nat * ReviewIssue) =>
               if negb (resolved ri.2)
               then Editor.group_add (section (location ri.2)) ri.1 groups
               else groups)
            l groups).*1
  <-> name ∈ groups.*1
      \/ exists ri, ri ∈ l /\ resolved ri.2 = false
                    /\ section (location ri.2) = name.
Proof.
  revert groups. induction l as [|ri l IH]; intros groups.
  - simpl. split; [by left|]. intros [Hin|(ri & Hri & _)]; [done|].
    by apply elem_of_nil in Hri.
  - cbn [fold_left]. rewrite IH. clear IH.
    destruct (resolved ri.2) eqn:Hr; cbn [negb].
    + split.
      * intros [Hin|(ri' & Hri' & Hr' & Hs')]; [by left|].
        right. exists ri'. split_and!; try done. by apply list_elem_of_further.
      * intros [Hin|(ri' & Hri' & Hr' & Hs')]; [by left|].
        apply elem_of_cons in Hri' as [->|Hri']; [congruence|].
        right. by exists ri'.
    + rewrite group_add_keys. split.
      * intros [[->|Hin]|(ri' & Hri' & Hr' & Hs')].
        -- right. exists ri. split_and!; try done. constructor.
        -- by left.
        -- right. exists ri'. split_and!; try done. by apply list_elem_of_further.
      * intros [Hin|(ri' & Hri' & Hr' & Hs')]; [left; by right|].
        apply elem_of_cons in Hri' as [->|Hri']; [left; by left|].
        right. by exists ri'.
Qed.

(** The groups of a pass are the sections of the unresolved issues. *)
Lemma group_by_section_keys (store : list ReviewIssue) (name : string) :
  name ∈ (Editor.group_by_section store).*1
  <-> exists i, i ∈ store /\ resolved i = false /\ section (location i) = name.
Proof.
  unfold Editor.group_by_section. rewrite group_fold_keys. split.
  - intros [Hin|([r i] & Hri & Hr & Hs)]; [by apply elem_of_nil in Hin|].
    apply (elem_of_indexed [] store) in Hri as [_ Hri].
    exists i. split_and!; try done. by apply list_elem_of_lookup_2 in Hri.
  - intros (i & Hi & Hr & Hs). right.
    apply list_elem_of_lookup_1 in Hi as [r Hri].
    exists (r, i). split_and!; try done.
    apply (elem_of_indexed [] store). split; [simpl; lia|done].
Qed.

Lemma by_severity_length (l : list ReviewIssue) :
  length (by_severity l) = length l.
Proof.
  unfold by_severity, of_severity. rewrite !length_app.
  rewrite (severity_partition l). unfold Reviewer.count_severity. lia.
Qed.

Lemma deref_length (store : list ReviewIssue) (refs : list nat) :
  (forall k, k ∈ refs -> is_Some (store !! k)) ->
  length (Editor.deref store refs) = length refs.
Proof.
  unfold Editor.deref. induction refs as [|r refs IH]; intros Hall; [done|].
  destruct (Hall r) as [i Hi]; [constructor|].
  cbn [omap list_omap]. rewrite Hi. cbn [length]. f_equal.
  apply IH. intros k Hk. by apply Hall, list_elem_of_further.
Qed.

Lemma group_size (store : list ReviewIssue) (name : string) (refs : list nat) :
  (name, refs) ∈ Editor.sort_groups store (Editor.group_by_section store) ->
  length refs = length (unresolved_in name store).
Proof.
  intros Hin. destruct (sorted_groups_spec store) as (_ & Hown & Hsorted & _).
  destruct (Hsorted name refs Hin) as [Hderef _].
  rewrite <- (by_severity_length (unresolved_in name store)), <- Hderef.
  symmetry. apply deref_length. intros k Hk.
  destruct (Hown name refs Hin k Hk) as (i & Hi & _). by exists i.
Qed.

Lemma resolved_count_addressed (draft : PaperDraft) (l : list ReviewIssue) :
  resolved_count (resolve_where_rewritten draft <$> l)
  = (resolved_count l + length (addressed draft l))%nat.
Proof.
  unfold resolved_count, addressed.
  induction l as [|i l IH]; [done|].
  rewrite fmap_cons. cbn [List.filter]. unfold resolve_where_rewritten at 1.
  destruct (rewritten draft (section (location i))), (resolved i) eqn:Hr;
    cbn [mark_resolved resolved negb andb length]; rewrite ?Hr; cbn [length]; lia.
Qed.

(** X11. What a pass of fixes reports is what it did.  [issues_fixed] is the
    number of issues the pass marked resolved: the issues that were
    unresolved and located in a section kind that has text.
    [sections_edited] names each section kind that has text and holds such
    an issue, once.  The version reported is the version of the draft
    returned, one more than before. *)
Theorem apply_all_fixes_reports_what_it_resolved
    (draft : PaperDraft) (fb : ReviewFeedback) (e : Env) :
  exists ad draft' fb' e',
    Editor._apply_all_fixes draft fb e
    = (mkAgentResult true (Some ad) None, draft', fb', e') /\
    Editor.total_issues_fixed ad = length (addressed draft (issues fb)) /\
    resolved_count (issues fb')
    = (resolved_count (issues fb) + Editor.total_issues_fixed ad)%nat /\
    NoDup (Editor.sections_edited ad) /\
    (forall name, name ∈ Editor.sections_edited ad <->
                  exists i, i ∈ addressed draft (issues fb)
                            /\ section (location i) = name) /\
    Editor.data_draft ad = draft' /\
    Editor.draft_version ad = version draft' /\
    version draft' = version draft + 1.
Proof.
  pose proof (apply_all_fixes_issues draft fb e) as Hissues.
  pose proof (apply_all_fixes_run draft fb e) as Hrun.
  rewrite (apply_all_fixes_unfold draft fb e) in Hissues, Hrun |- *.
  cbv zeta in Hissues, Hrun |- *.
  set (groups := Editor.sort_groups (issues fb) (Editor.group_by_section (issues fb)))
    in *.
  destruct (sorted_groups_spec (issues fb)) as (Hnd & _). fold groups in Hnd.
  match goal with
  | |- context [for_each groups Editor.edit_group ?st ?e1] =>
      pose proof (edit_groups_report groups st e1 Hnd) as Hrep;
      destruct (for_each groups Editor.edit_group st e1) as [st' e'] eqn:Hloop
  end.
  cbv zeta in Hrep. cbn [fst snd Editor.cur_draft Editor.cur_sections_edited
                          Editor.cur_issues_fixed] in Hrep, Hissues, Hrun |- *.
  destruct Hrep as (Hed & Hfix & _).
  destruct Hrun as (d' & store' & edited & fixed & e'' & Heq & Hv & _).
  injection Heq as Hd' _ _ _ _. cbn [issues with_issues] in Hissues.
  assert (Hfixed : Editor.cur_issues_fixed st' = length (addressed draft (issues fb))).
  { rewrite Hfix. cbn [Nat.add].
    assert ((fun g : string * list nat =>
               if rewritten draft g.1 then length g.2 else 0%nat) <$> groups
            = (fun n => if rewritten draft n
                        then length (unresolved_in n (issues fb)) else 0%nat)
                <$> groups.*1) as ->.
    { rewrite <- list_fmap_compose. apply list_fmap_ext.
      intros k [name refs] Hk. cbn [fst snd compose].
      destruct (rewritten draft name); [|done].
      apply group_size. by apply list_elem_of_lookup_2 in Hk. }
    apply count_by_section; [done|].
    intros i Hi Hr. unfold groups. rewrite sort_groups_keys.
    apply group_by_section_keys. by exists i. }
  do 4 eexists. split; [reflexivity|].
  cbn [Editor.total_issues_fixed Editor.sections_edited Editor.data_draft
       Editor.draft_version issues with_issues].
  split_and!.
  - done.
  - by rewrite Hissues, resolved_count_addressed, Hfixed.
  - rewrite Hed. cbn [app]. by apply NoDup_ListNoDup, List.NoDup_filter, NoDup_ListNoDup.
  - intros name. rewrite Hed. cbn [app].
    rewrite list_elem_of_In, filter_In, <- list_elem_of_In.
    unfold groups. rewrite sort_groups_keys, group_by_section_keys.
    unfold addressed. split.
    + intros [(i & Hi & Hr & Hs) Hrw]. exists i. split; [|done].
      apply list_elem_of_In, filter_In. split; [by apply list_elem_of_In|].
      by rewrite Hr, Hs.
    + intros (i & Hi & Hs). apply list_elem_of_In, filter_In in Hi as [Hi Hcond].
      apply andb_true_iff in Hcond as [Hr Hrw]. apply negb_true_iff in Hr.
      rewrite Hs in Hrw. split; [|done]. exists i. split_and!; try done.
      by apply list_elem_of_In.
  - done.
  - done.
  - rewrite Hd'. exact Hv.
Qed.

Lemma rewritten_bump (d : PaperDraft) (name : string) :
  rewritten (bump_version d) name = rewritten d name.
Proof. reflexivity. Qed.

Lemma apply_all_fixes_keeps_unwritten (draft : PaperDraft) (fb : ReviewFeedback)
    (e : Env) (name : string) :
  rewritten draft name = false ->
  rewritten (Editor._apply_all_fixes draft fb e).1.1.2 name = false.
Proof.
  intros Hnot. rewrite apply_all_fixes_unfold. cbv zeta. cbn [fst snd].
  rewrite rewritten_bump.
  destruct (sorted_groups_spec (issues fb)) as (Hnd & _).
  match goal with
  | |- context [for_each ?groups Editor.edit_group ?st ?e1] =>
      destruct (edit_groups_report groups st e1 Hnd) as (_ & _ & Hkeep)
  end.
  by apply Hkeep.
Qed.

Lemma idle_group_events (d : PaperDraft) (store : list ReviewIssue)
    (groups : list (string * list nat)) :
  (forall g, g ∈ groups -> rewritten d g.1 = false) ->
  existsb is_generate (flat_map (group_events d store) groups) = false.
Proof.
  induction groups as [|g groups IH]; intros Hidle; [done|].
  cbn [flat_map]. rewrite existsb_app, IH.
  - rewrite orb_false_r.
    pose proof (Hidle g (list_elem_of_here _ _)) as Hg.
    unfold group_events, rewritten in *.
    destruct (SectionType_of_value g.1) as [s|]; [|done].
    apply negb_false_iff in Hg. by rewrite Hg.
  - intros g' Hg'. by apply Hidle, list_elem_of_further.
Qed.

(** X12. A pass of fixes run again on what the first pass returned finds
    nothing to do: it asks the model nothing, edits no section, reports no
    issue fixed and leaves the feedback as it is.  It still bumps the
    version, and still logs the sections it skips. *)
Theorem second_pass_of_fixes_is_idle
    (draft : PaperDraft) (fb : ReviewFeedback) (e : Env) :
  exists r1 d1 fb1 e1 evs,
    Editor._apply_all_fixes draft fb e = (r1, d1, fb1, e1) /\
    Editor._apply_all_fixes d1 fb1 e1
    = (mkAgentResult true
         (Some (Editor.mkApplyData (bump_version d1) [] 0 (version d1 + 1) true))
         None,
       bump_version d1, fb1, mkEnv (world e1) (trace e1 ++ evs)) /\
    existsb is_generate evs = false.
Proof.
  pose proof (apply_all_fixes_issues draft fb e) as Hissues.
  pose proof (apply_all_fixes_keeps_unwritten draft fb e) as Hkeep.
  destruct (Editor._apply_all_fixes draft fb e) as [[[r1 d1] fb1] e1].
  cbn [fst snd] in Hissues, Hkeep.
  set (groups := Editor.sort_groups (issues fb1) (Editor.group_by_section (issues fb1))).
  assert (Hidle : forall g, g ∈ groups -> rewritten d1 g.1 = false).
  { intros g Hg.
    assert (Hname : g.1 ∈ (Editor.group_by_section (issues fb1)).*1).
    { rewrite <- (sort_groups_keys (issues fb1)).
      apply list_elem_of_fmap. by exists g. }
    apply group_by_section_keys in Hname as (i' & Hi' & Hr & Hs).
    rewrite Hissues in Hi'. apply list_elem_of_fmap in Hi' as (i & -> & Hi).
    unfold resolve_where_rewritten in Hr, Hs.
    destruct (rewritten draft (section (location i))) eqn:Hrw; [done|].
    rewrite <- Hs. by apply Hkeep. }
  exists r1, d1, fb1, e1,
    (LogInfo (ApplyingFixes (length (issues fb1)))
     :: flat_map (group_events d1 (issues fb1)) groups).
  split; [done|]. split.
  - rewrite apply_all_fixes_unfold. cbv zeta. fold groups.
    rewrite edit_groups_idle by done.
    cbn [fst snd Editor.cur_draft Editor.cur_store Editor.cur_sections_edited
         Editor.cur_issues_fixed world trace].
    by rewrite with_issues_same, <- app_assoc.
  - cbn [existsb is_generate orb]. by apply idle_group_events.
Qed.

End FixPasses.

(** ** The single edits *)

Section SingleEdits.
Context `{SingleEditModel}.

Lemma SectionType_value_inj (s s' : SectionType) :
  SectionType_value s = SectionType_value s' -> s = s'.
Proof.
  intros Heq.
  pose proof (SectionType_of_value_value s) as H1.
  pose proof (SectionType_of_value_value s') as H2. congruence.
Qed.

Lemma get_section_insert_eq (m : gmap string string) (d : PaperDraft)
    (s : SectionType) (content : string) :
  sections d = <[SectionType_value s := content]> m ->
  get_section d s = content.
Proof. intros Hd. unfold get_section. by rewrite Hd, lookup_insert_eq. Qed.

Lemma get_section_insert_ne (m : gmap string string) (d : PaperDraft)
    (s s' : SectionType) (content : string) :
  sections d = <[SectionType_value s := content]> m ->
  s' <> s ->
  get_section d s' = default "" (m !! SectionType_value s').
Proof.
  intros Hd Hs. unfold get_section. rewrite Hd, lookup_insert_ne; [done|].
  intros Heq. by apply Hs, SectionType_value_inj.
Qed.

(** X13. The outcomes of a single-issue edit.  It fails, with the draft, the
    issue and the world left exactly as they were and the model not asked,
    when the issue names no section, names a section that is no section
    kind, or names a section kind without text; each case has its own
    error.  Otherwise it succeeds: the section becomes the model's reply,
    whatever it is, the word count is recomputed, the issue is marked
    resolved, and neither the version nor any other section changes. *)
Theorem edit_issue_outcomes (draft : PaperDraft) (issue : ReviewIssue) (e : Env) :
  let name := section (location issue) in
  let r := EditorActions._edit_issue draft issue e in
  (name = "" ->
   r = (mkAgentResult false None (Some "Issue has no section specified"),
        draft, issue, e)) /\
  (name <> "" -> SectionType_of_value name = None ->
   r = (mkAgentResult false None (Some ("Invalid section: " +:+ name)),
        draft, issue, e)) /\
  (forall s, SectionType_of_value name = Some s -> get_section draft s = "" ->
   r = (mkAgentResult false None
          (Some ("Section " +:+ SectionType_value s +:+ " is empty")),
        draft, issue, e)) /\
  (forall s, SectionType_of_value name = Some s -> get_section draft s <> "" ->
   let reply := (llm_edit (EditIssuePrompt issue (get_section draft s))
                   (count_words (get_section draft s) * 2) (world e)).1 in
   success r.1.1.1 = true /\
   r.1.2 = mark_resolved issue /\
   get_section r.1.1.2 s = reply /\
   (forall s', s' <> s -> get_section r.1.1.2 s' = get_section draft s') /\
   word_count r.1.1.2 = total_words (sections r.1.1.2) /\
   version r.1.1.2 = version draft).
Proof.
  intros name r. subst r. unfold EditorActions._edit_issue. fold name.
  split_and!.
  - intros ->. done.
  - intros Hname Hnone. apply String.eqb_neq in Hname. by rewrite Hname, Hnone.
  - intros s Hs Hempty.
    destruct (String.eqb_spec name "") as [Hname|_];
      [by rewrite Hname in Hs|].
    by rewrite Hs, Hempty.
  - intros s Hs Htext.
    destruct (String.eqb_spec name "") as [Hname|_];
      [by rewrite Hname in Hs|].
    rewrite Hs. apply String.eqb_neq in Htext. rewrite Htext.
    unfold bind, EditorActions.generate_edit, ret. cbv zeta.
    destruct (llm_edit _ _ (world e)) as [reply w].
    match goal with
    | |- context [set_section ?d ?s ?c ?e1] =>
        destruct (set_section_result d s c e1) as (t & w2 & ->)
    end.
    cbn [fst snd success sections word_count version].
    split_and!; try done.
    + by apply (get_section_insert_eq (sections draft)).
    + intros s' Hs'.
      by rewrite (get_section_insert_ne (sections draft) _ s s' reply).
Qed.

(** X14. Adding citations and improving clarity have no guard: whatever the
    section holds, also nothing, the model is asked, with a budget of two
    tokens per word of the section and so of zero for an empty one, and
    its reply becomes the section.  Both always succeed, recompute the
    word count and leave the version and the other sections alone. *)
Theorem unguarded_edits_replace_the_section
    (draft : PaperDraft) (s : SectionType)
    (citations_to_add : list (gmap string string)) (e : Env) :
  let content := get_section draft s in
  let budget := count_words content * 2 in
  let after (d : PaperDraft) (reply : string) :=
    get_section d s = reply /\
    (forall s', s' <> s -> get_section d s' = get_section draft s') /\
    word_count d = total_words (sections d) /\
    version d = version draft in
  (content = "" -> budget = 0) /\
  (exists cites,
     length cites = length citations_to_add /\
     let r := EditorActions.add_citations draft s citations_to_add e in
     success r.1.1 = true /\
     after r.1.2 (llm_edit (AddCitationsPrompt cites content) budget (world e)).1) /\
  (let r := EditorActions.improve_clarity draft s e in
   success r.1.1 = true /\
   after r.1.2 (llm_edit (ImproveClarityPrompt content) budget (world e)).1).
Proof.
  intros content budget after. subst after budget content. cbv beta.
  split_and!.
  - by intros ->.
  - exists ((fun c : gmap string string =>
               (default "" (c !! "location"), default "" (c !! "claim"),
                default "" (c !! "citation"))) <$> citations_to_add).
    split; [by rewrite length_fmap|].
    unfold EditorActions.add_citations, bind, EditorActions.generate_edit, ret.
    cbv zeta. destruct (llm_edit _ _ (world e)) as [reply w].
    match goal with
    | |- context [set_section ?d ?s ?c ?e1] =>
        destruct (set_section_result d s c e1) as (t & w2 & ->)
    end.
    cbn [fst snd success sections word_count version].
    split_and!; try done.
    + by apply (get_section_insert_eq (sections draft)).
    + intros s' Hs'.
      by rewrite (get_section_insert_ne (sections draft) _ s s' reply).
  - unfold EditorActions.improve_clarity, bind, EditorActions.generate_edit, ret.
    cbv zeta. destruct (llm_edit _ _ (world e)) as [reply w].
    match goal with
    | |- context [set_section ?d ?s ?c ?e1] =>
        destruct (set_section_result d s c e1) as (t & w2 & ->)
    end.
    cbn [fst snd success sections word_count version].
    split_and!; try done.
    + by apply (get_section_insert_eq (sections draft)).
    + intros s' Hs'.
      by rewrite (get_section_insert_ne (sections draft) _ s s' reply).
Qed.

End SingleEdits.

(** ** The full text of a draft *)

Section FullText.

Lemma full_text_parts (d : PaperDraft) (order : list SectionType)
    (parts : list string) :
  fold_left
    (fun parts section_type =>
       let content := get_section d section_type in
       if negb (String.eqb content "")
       then parts ++ [section_block section_type content]
       else parts)
    order parts
  = parts
    ++ ((fun s => section_block s (get_section d s))
        <$> List.filter (fun s => negb (String.eqb (get_section d s) "")) order).
Proof.
  revert parts. induction order as [|s order IH]; intros parts.
  - simpl. by rewrite app_nil_r.
  - cbn [fold_left List.filter]. rewrite IH.
    destruct (String.eqb (get_section d s) ""); cbn [negb]; [done|].
    by rewrite fmap_cons, <- app_assoc.
Qed.

Lemma join_found (sep x : string) (parts : list string) :
  x ∈ parts -> found_verbatim x (Str.join sep parts).
Proof.
  induction parts as [|p parts IH]; intros Hx; [by apply elem_of_nil in Hx|].
  apply elem_of_cons in Hx as [->|Hx].
  - destruct parts as [|q parts].
    + exists "", "". by rewrite append_nil_l, append_nil_r.
    + exists "", (sep +:+ Str.join sep (q :: parts)). by rewrite append_nil_l.
  - destruct parts as [|q parts]; [by apply elem_of_nil in Hx|].
    destruct (IH Hx) as (pre & post & Heq).
    exists (p +:+ sep +:+ pre), post.
    change (Str.join sep (p :: q :: parts))
      with (p +:+ sep +:+ Str.join sep (q :: parts)).
    by rewrite Heq, !append_assoc.
Qed.

Lemma join_empty (sep : string) (parts : list string) :
  Forall (fun p => p <> "") parts ->
  Str.join sep parts = "" -> parts = [].
Proof.
  intros Hall. destruct parts as [|p parts]; [done|].
  apply Forall_cons in Hall as [Hp _].
  destruct parts as [|q parts]; [done|].
  change (Str.join sep (p :: q :: parts))
    with (p +:+ sep +:+ Str.join sep (q :: parts)).
  intros Heq. by apply append_eq_nil in Heq as [? _].
Qed.

Lemma SectionType_members_all (s : SectionType) : s ∈ SectionType_members.
Proof. apply list_elem_of_In. destruct s; simpl; tauto. Qed.

Lemma section_block_nonempty (s : SectionType) (content : string) :
  section_block s content <> "".
Proof. done. Qed.

(** X15. The full text of a draft is made of the section kinds that have text,
    in the fixed order, each under its heading, with a blank line between
    them; a section kind without text gets no heading.  So the full text
    is empty exactly when no section kind has text, and every section kind
    that has text appears in it verbatim.  It reads the nine section kinds
    only: text stored under any other key of the draft, which the word
    count includes, never gets into it.  The headings are the section
    names in title case. *)
Theorem full_text_shows_populated_sections (d : PaperDraft) :
  get_full_text d
  = Str.join blank_line
      ((fun s => section_block s (get_section d s))
       <$> List.filter (fun s => negb (String.eqb (get_section d s) ""))
             SectionType_members) /\
  (get_full_text d = "" <-> forall s, get_section d s = "") /\
  (forall s, get_section d s <> "" ->
             found_verbatim (section_block s (get_section d s)) (get_full_text d)) /\
  (forall d', (forall s, get_section d' s = get_section d s) ->
              get_full_text d' = get_full_text d) /\
  section_heading <$> SectionType_members
  = ["Abstract"; "Introduction"; "Literature Review"; "Theoretical Framework";
     "Methodology"; "Analysis"; "Discussion"; "Conclusion"; "References"].
Proof.
  assert (Hparts : forall d0, get_full_text d0
    = Str.join blank_line
        ((fun s => section_block s (get_section d0 s))
         <$> List.filter (fun s => negb (String.eqb (get_section d0 s) ""))
               SectionType_members)).
  { intros d0. unfold get_full_text. cbv zeta. by rewrite full_text_parts. }
  split_and!.
  - apply Hparts.
  - rewrite Hparts. split.
    + intros Hempty s.
      apply join_empty in Hempty.
      * apply fmap_nil_inv in Hempty.
        destruct (String.eqb_spec (get_section d s) "") as [Hs|Hs]; [done|].
        exfalso. apply String.eqb_neq in Hs.
        assert (Hin : In s (List.filter
                              (fun s => negb (String.eqb (get_section d s) ""))
                              SectionType_members)).
        { apply filter_In. split; [|by rewrite Hs].
          apply list_elem_of_In, SectionType_members_all. }
        by rewrite Hempty in Hin.
      * apply Forall_fmap, Forall_forall. intros s' _. apply section_block_nonempty.
    + intros Hall.
      rewrite (filter_none _ SectionType_members); [done|].
      intros s _. by rewrite Hall.
  - intros s Hs. rewrite Hparts. apply join_found.
    apply list_elem_of_fmap. exists s. split; [done|].
    apply list_elem_of_In, filter_In. split.
    + apply list_elem_of_In, SectionType_members_all.
    + apply String.eqb_neq in Hs. by rewrite Hs.
  - intros d' Hsame. rewrite !Hparts. f_equal.
    assert (List.filter (fun s => negb (String.eqb (get_section d' s) ""))
              SectionType_members
            = List.filter (fun s => negb (String.eqb (get_section d s) ""))
                SectionType_members) as ->.
    { apply filter_ext. intros s. by rewrite Hsame. }
    apply list_fmap_ext. intros _ s _. by rewrite Hsame.
  - reflexivity.
Qed.

End FullText.

(** ** Deduplicated sources and search queries *)

Section SourceFacts.
Context {Score : Type}.

Lemma dedup_fold (sources unique : list (Sources.Source Score)) (su st : gset string) :
  (forall x, x ∈ su <-> x ∈ Sources.url_key <$> unique) ->
  (forall x, x ∈ st <-> x ∈ Sources.title_key <$> unique) ->
  NoDup (Sources.url_key <$> unique) ->
  NoDup (Sources.title_key <$> unique) ->
  exists kept,
    (fold_left Sources.dedup_step sources (su, st, unique)).2 = unique ++ kept /\
    sublist kept sources /\
    NoDup (Sources.url_key <$> unique ++ kept) /\
    NoDup (Sources.title_key <$> unique ++ kept) /\
    (forall s, s ∈ sources ->
       exists k, k ∈ unique ++ kept /\
                 (Sources.url_key k = Sources.url_key s
                  \/ Sources.title_key k = Sources.title_key s)) /\
    (unique = [] -> head kept = head sources).
Proof.
  revert unique su st.
  induction sources as [|s sources IH]; intros unique su st Hsu Hst Hnu Hnt.
  - exists []. rewrite app_nil_r. split_and!; try done.
    intros s Hs. by apply elem_of_nil in Hs.
  - cbn [fold_left]. unfold Sources.dedup_step at 2.
    destruct (bool_decide (Sources.url_key s ∉ su)
              && bool_decide (Sources.title_key s ∉ st)) eqn:Hfresh.
    + apply andb_true_iff in Hfresh as [Hu Ht].
      apply bool_decide_eq_true in Hu, Ht.
      rewrite Hsu in Hu. rewrite Hst in Ht.
      destruct (IH (unique ++ [s]) ({[Sources.url_key s]} ∪ su)
                  ({[Sources.title_key s]} ∪ st))
        as (kept & Heq & Hsub & Hnu' & Hnt' & Hrep & _).
      * intros x. rewrite fmap_app, elem_of_app, elem_of_union, Hsu.
        rewrite elem_of_singleton. simpl. rewrite list_elem_of_singleton. tauto.
      * intros x. rewrite fmap_app, elem_of_app, elem_of_union, Hst.
        rewrite elem_of_singleton. simpl. rewrite list_elem_of_singleton. tauto.
      * rewrite fmap_app. apply NoDup_app. split_and!; [done| |apply NoDup_singleton].
        intros x Hx Hx'. simpl in Hx'. apply list_elem_of_singleton in Hx'. by subst.
      * rewrite fmap_app. apply NoDup_app. split_and!; [done| |apply NoDup_singleton].
        intros x Hx Hx'. simpl in Hx'. apply list_elem_of_singleton in Hx'. by subst.
      * exists (s :: kept). rewrite <- !app_assoc in *. simpl in *.
        split_and!; try done.
        -- by apply sublist_skip.
        -- intros s' Hs'. apply elem_of_cons in Hs' as [->|Hs']; [|by apply Hrep].
           exists s. split; [|by left]. apply elem_of_app. right. constructor.
    + destruct (IH unique su st Hsu Hst Hnu Hnt)
        as (kept & Heq & Hsub & Hnu' & Hnt' & Hrep & Hhead).
      exists kept. split_and!; try done.
      * by apply sublist_cons.
      * intros s' Hs'. apply elem_of_cons in Hs' as [->|Hs']; [|by apply Hrep].
        apply andb_false_iff in Hfresh as [Hu|Ht].
        -- apply bool_decide_eq_false in Hu. apply dec_stable in Hu.
           apply Hsu, list_elem_of_fmap in Hu as (k & Hk & Hin).
           exists k. split; [apply elem_of_app; by left|by left].
        -- apply bool_decide_eq_false in Ht. apply dec_stable in Ht.
           apply Hst, list_elem_of_fmap in Ht as (k & Hk & Hin).
           exists k. split; [apply elem_of_app; by left|by right].
      * intros ->. exfalso.
        apply andb_false_iff in Hfresh as [Hu|Ht].
        -- apply bool_decide_eq_false in Hu. apply dec_stable in Hu.
           apply Hsu in Hu. by apply elem_of_nil in Hu.
        -- apply bool_decide_eq_false in Ht. apply dec_stable in Ht.
           apply Hst in Ht. by apply elem_of_nil in Ht.
Qed.

Lemma dedup_kept (sources : list (Sources.Source Score)) :
  let kept := Sources._deduplicate_sources sources in
  sublist kept sources /\
  head kept = head sources /\
  NoDup (Sources.url_key <$> kept) /\
  NoDup (Sources.title_key <$> kept) /\
  (forall s, s ∈ sources ->
     exists k, k ∈ kept /\
               (Sources.url_key k = Sources.url_key s
                \/ Sources.title_key k = Sources.title_key s)).
Proof.
  unfold Sources._deduplicate_sources.
  assert (Hnone : forall x : string, x ∈ (∅ : gset string) <-> x ∈ @nil string).
  { intros x. rewrite elem_of_empty. split; [done|]. apply not_elem_of_nil. }
  destruct (dedup_fold sources [] ∅ ∅ Hnone Hnone NoDup_nil_2 NoDup_nil_2)
    as (kept & -> & Hsub & Hnu & Hnt & Hrep & Hhead).
  cbn [app] in *. split_and!; try done. by apply Hhead.
Qed.

(** X16. Deduplication keeps a subsequence of the sources, in their order and
    starting with the first one.  No two sources it keeps have the same
    URL (compared in lower case, stripped) or the same title (lower case,
    stripped, first 50 characters); sources without a URL all have the
    same, empty, URL, so at most one of them is kept.  Every source it
    drops has the URL or the title of a source it keeps. *)
Theorem deduplicate_sources_keeps_first_of_each (sources : list (Sources.Source Score)) :
  let kept := Sources._deduplicate_sources sources in
  sublist kept sources /\
  head kept = head sources /\
  NoDup (Sources.url_key <$> kept) /\
  NoDup (Sources.title_key <$> kept) /\
  (forall s, s ∈ sources ->
     exists k, k ∈ kept /\
               (Sources.url_key k = Sources.url_key s
                \/ Sources.title_key k = Sources.title_key s)).
Proof. apply dedup_kept. Qed.

Lemma dedup_fold_fresh (sources unique : list (Sources.Source Score)) (su st : gset string) :
  (forall x, x ∈ su <-> x ∈ Sources.url_key <$> unique) ->
  (forall x, x ∈ st <-> x ∈ Sources.title_key <$> unique) ->
  NoDup (Sources.url_key <$> unique ++ sources) ->
  NoDup (Sources.title_key <$> unique ++ sources) ->
  (fold_left Sources.dedup_step sources (su, st, unique)).2 = unique ++ sources.
Proof.
  revert unique su st.
  induction sources as [|s sources IH]; intros unique su st Hsu Hst Hnu Hnt.
  - simpl. by rewrite app_nil_r.
  - cbn [fold_left]. unfold Sources.dedup_step at 2.
    rewrite fmap_app, fmap_cons in Hnu, Hnt.
    pose proof Hnu as Hnu0. pose proof Hnt as Hnt0.
    apply NoDup_app in Hnu0 as (_ & Hu & _).
    apply NoDup_app in Hnt0 as (_ & Ht & _).
    rewrite !bool_decide_eq_true_2.
    + cbn [andb]. rewrite (IH (unique ++ [s])); [by rewrite <- app_assoc|..].
      * intros x. rewrite fmap_app, elem_of_app, elem_of_union, Hsu.
        rewrite elem_of_singleton. simpl. rewrite list_elem_of_singleton. tauto.
      * intros x. rewrite fmap_app, elem_of_app, elem_of_union, Hst.
        rewrite elem_of_singleton. simpl. rewrite list_elem_of_singleton. tauto.
      * rewrite <- app_assoc. cbn [app]. by rewrite fmap_app, fmap_cons.
      * rewrite <- app_assoc. cbn [app]. by rewrite fmap_app, fmap_cons.
    + rewrite Hst. intros Hin. apply (Ht _ Hin). constructor.
    + rewrite Hsu. intros Hin. apply (Hu _ Hin). constructor.
Qed.

(** X17. Deduplicating twice is deduplicating once. *)
Theorem deduplicate_sources_idempotent (sources : list (Sources.Source Score)) :
  Sources._deduplicate_sources (Sources._deduplicate_sources sources)
  = Sources._deduplicate_sources sources.
Proof.
  destruct (dedup_kept sources)
    as (_ & _ & Hnu & Hnt & _).
  unfold Sources._deduplicate_sources at 1.
  assert (Hnone : forall x : string, x ∈ (∅ : gset string) <-> x ∈ @nil string).
  { intros x. rewrite elem_of_empty. split; [done|]. apply not_elem_of_nil. }
  by rewrite (dedup_fold_fresh _ [] ∅ ∅ Hnone Hnone Hnu Hnt).
Qed.

Lemma stripped_lines_nonempty (response q : string) :
  q ∈ Sources.stripped_lines response -> q <> "".
Proof.
  unfold Sources.stripped_lines. intros Hq.
  apply list_elem_of_omap in Hq as (raw & _ & Hraw).
  destruct (String.eqb_spec (Str.strip raw) "") as [|Hne]; simplify_eq/=. done.
Qed.

(** X18. The search queries made from the model's reply.  There are between
    one and five of them, and each is the topic or a line of the reply,
    stripped and not empty.  When the topic is not among those lines it is
    put first.  When it is among them it stays where it is, so the topic
    is among the queries exactly when it is not a line of the reply at
    all or is one of the first five lines. *)
Theorem search_queries_bounds (topic response : string) :
  let lines := Sources.stripped_lines response in
  let queries := Sources.search_queries topic response in
  (1 <= length queries <= 5)%nat /\
  (forall q, q ∈ queries -> q = topic \/ (q ∈ lines /\ q <> "")) /\
  (topic ∉ lines -> queries = take 5 (topic :: lines)) /\
  (topic ∈ queries <-> topic ∉ lines \/ topic ∈ take 5 lines).
Proof.
  intros lines queries. subst queries. unfold Sources.search_queries.
  fold lines. cbv zeta.
  case_bool_decide as Hin.
  - split; [|split; [|split]].
    + rewrite length_take.
      assert (0 < length lines)%nat; [|lia].
      destruct lines; [by apply elem_of_nil in Hin|]. cbn [length]. lia.
    + intros q Hq. right.
      assert (q ∈ lines) by (by eapply subseteq_take).
      split; [done|]. by eapply stripped_lines_nonempty.
    + done.
    + split; [by right|]. by intros [?|?].
  - split; [|split; [|split]].
    + rewrite length_take. cbn [length]. lia.
    + intros q Hq.
      assert (Hq' : q ∈ topic :: lines) by (by eapply subseteq_take).
      apply elem_of_cons in Hq' as [->|Hq']; [by left|right].
      split; [done|]. by eapply stripped_lines_nonempty.
    + done.
    + split; [by left|]. intros _. constructor.
Qed.

End SourceFacts.

(** ** Dictionaries *)

Section DictFacts.
Context `{Collaborators} `{Renderings}.

Lemma truthy_uuid_str (u : UUID) : truthy (PyStr (uuid_str u)) = true.
Proof.
  simpl. apply negb_true_iff, String.eqb_neq, uuid_str_nonempty.
Qed.

Lemma truthy_isoformat (t : datetime) : truthy (PyStr (isoformat t)) = true.
Proof.
  simpl. apply negb_true_iff, String.eqb_neq, isoformat_nonempty.
Qed.

Lemma load_uuid_str (u : UUID) : Dicts.load_uuid (PyStr (uuid_str u)) = Built u.
Proof. unfold Dicts.load_uuid. by rewrite uuid_of_str_str. Qed.

Lemma load_datetime_isoformat (t : datetime) :
  Dicts.load_datetime (PyStr (isoformat t)) = Built t.
Proof. unfold Dicts.load_datetime. by rewrite fromisoformat_isoformat. Qed.

Lemma IssueType_of_value_value (t : IssueType) :
  IssueType_of_value (IssueType_value t) = Some t.
Proof. by destruct t. Qed.

Lemma IssueSeverity_of_value_value (s : IssueSeverity) :
  IssueSeverity_of_value (IssueSeverity_value s) = Some s.
Proof. by destruct s. Qed.

Lemma DraftStatus_of_value_value (s : DraftStatus) :
  DraftStatus_of_value (DraftStatus_value s) = Some s.
Proof. by destruct s. Qed.

Lemma IssueLocation_round_trip (loc : IssueLocation) (e : Env) :
  match Dicts.IssueLocation_to_dict loc with
  | PyDict d => Dicts.IssueLocation_from_dict d e
  | _ => (Untyped, e)
  end = (Built loc, e).
Proof. by destruct loc. Qed.

Lemma load_enum_value {E : Type} (of_value : string -> option E)
    (value : E -> string) (x : E) :
  of_value (value x) = Some x ->
  Dicts.load_enum of_value (PyStr (value x)) = Built x.
Proof. unfold Dicts.load_enum. by intros ->. Qed.

Ltac read_back :=
  unfold py_get;
  cbn [find fst snd String.eqb Ascii.eqb Bool.eqb andb fmap option_fmap option_map
       default from_option id];
  repeat (progress (
    cbv beta iota;
    cbn [Dicts.typed_int Dicts.typed_str Dicts.typed_bool];
    rewrite ?truthy_uuid_str, ?truthy_isoformat, ?load_uuid_str,
      ?load_datetime_isoformat,
      ?(load_enum_value _ _ _ (IssueType_of_value_value _)),
      ?(load_enum_value _ _ _ (IssueSeverity_of_value_value _)),
      ?(load_enum_value _ _ _ (DraftStatus_of_value_value _)))).

Lemma ReviewIssue_round_trip (i : ReviewIssue) (e : Env) :
  Dicts.issue_of_element (Dicts.ReviewIssue_to_dict i) e = (Built i, e).
Proof.
  destruct i as [u t s loc d f r], loc as [sec par exc].
  unfold Dicts.issue_of_element, Dicts.ReviewIssue_to_dict,
    Dicts.ReviewIssue_from_dict, Dicts.uuid_or_fresh, Dicts.lap, bind, ret.
  by read_back.
Qed.

Lemma load_issues_round_trip (l : list ReviewIssue) (e : Env) :
  Dicts.load_list Dicts.issue_of_element (Dicts.ReviewIssue_to_dict <$> l) e
  = (Built l, e).
Proof.
  induction l as [|i l IH]; [done|].
  rewrite fmap_cons. cbn [Dicts.load_list]. unfold Dicts.lap, bind, ret in *.
  by rewrite ReviewIssue_round_trip, IH.
Qed.

Lemma sections_round_trip (m : gmap string string) :
  Dicts.typed_sections
    (PyDict ((fun kv : string * string => (fst kv, PyStr (snd kv)))
             <$> map_to_list m))
  = Built m.
Proof.
  unfold Dicts.typed_sections.
  assert (Hread : forall l : list (string * string),
            mapM (fun kv : string * PyVal =>
                    match snd kv with
                    | PyStr s => Some (fst kv, s)
                    | _ => None
                    end)
              ((fun kv : string * string => (fst kv, PyStr (snd kv))) <$> l)
            = Some l).
  { induction l as [|[k v] l IH]; [done|].
    rewrite fmap_cons. cbn [mapM]. cbn [fst snd]. rewrite IH. done. }
  by rewrite Hread, list_to_map_to_list.
Qed.

(** X19. A feedback written with [to_dict] and read back with [from_dict] is
    the feedback written, issues and locations included; reading it asks
    for no fresh identifier and no time. *)
Theorem review_feedback_round_trip (f : ReviewFeedback) (e : Env) :
  match Dicts.ReviewFeedback_to_dict f with
  | PyDict data => Dicts.ReviewFeedback_from_dict data e
  | _ => (Untyped, e)
  end = (Built f, e).
Proof.
  destruct f as [u did c l a ok t].
  unfold Dicts.ReviewFeedback_to_dict, Dicts.ReviewFeedback_from_dict,
    Dicts.uuid_or_fresh, Dicts.uuid_or_none, Dicts.datetime_or_now,
    Dicts.issues_of, Dicts.lap, bind, ret.
  cbn [feedback_id draft_id cycle issues overall_assessment approved
       feedback_created_at].
  destruct did as [u0|]; read_back; cbn [truthy]; cbv beta iota;
    rewrite load_issues_round_trip; by read_back.
Qed.

Lemma lap_built {A B : Type} (mf : M (Loaded (A -> B))) (ma : M (Loaded A))
    (e e' : Env) (b : B) :
  Dicts.lap mf ma e = (Built b, e') ->
  exists f a e1, mf e = (Built f, e1) /\ ma e1 = (Built a, e') /\ b = f a.
Proof.
  unfold Dicts.lap, bind, ret.
  destruct (mf e) as [[f|exn|] e1]; [|done|].
  - destruct (ma e1) as [[a|exn|] e2] eqn:Ha; intros Heq; simplify_eq.
    by exists f, a, e1.
  - destruct (ma e1) as [[a|exn|] e2]; intros Heq; simplify_eq.
Qed.

(** X20. A draft written with [to_dict] and read back with [from_dict] is the
    draft written.  The word count is read back as it was stored:
    [from_dict] takes it from the dictionary, or 0 when the key is
    missing, and never counts the words of the sections it reads. *)
Theorem paper_draft_round_trip (d : PaperDraft) (e : Env) :
  match Dicts.PaperDraft_to_dict d with
  | PyDict data => Dicts.PaperDraft_from_dict data e
  | _ => (Untyped, e)
  end = (Built d, e) /\
  (forall data d' e',
     Dicts.PaperDraft_from_dict data e = (Built d', e') ->
     default (PyInt 0) (py_get data "word_count") = PyInt (word_count d')).
Proof.
  split.
  - destruct d as [u sid v m wc st rc ca ua].
    unfold Dicts.PaperDraft_to_dict, Dicts.PaperDraft_from_dict,
      Dicts.uuid_or_none, Dicts.datetime_or_now, Dicts.lap, bind, ret.
    cbn [paper_id session_id version sections word_count status review_cycle
         created_at updated_at].
    destruct sid as [u0|]; read_back; cbn [truthy]; cbv beta iota;
      rewrite ?load_uuid_str, sections_round_trip; by read_back.
  - intros data d' e'. unfold Dicts.PaperDraft_from_dict. intros Hload.
    apply lap_built in Hload as (f9 & a9 & e9 & Hload & _ & ->).
    apply lap_built in Hload as (f8 & a8 & e8 & Hload & _ & ->).
    apply lap_built in Hload as (f7 & a7 & e7 & Hload & _ & ->).
    apply lap_built in Hload as (f6 & a6 & e6 & Hload & _ & ->).
    apply lap_built in Hload as (f5 & a5 & e5 & Hload & Hwc & ->).
    apply lap_built in Hload as (f4 & a4 & e4 & Hload & _ & ->).
    apply lap_built in Hload as (f3 & a3 & e3 & Hload & _ & ->).
    apply lap_built in Hload as (f2 & a2 & e2 & Hload & _ & ->).
    apply lap_built in Hload as (f1 & a1 & e1 & Hload & _ & ->).
    unfold ret in Hload, Hwc. injection Hload as <- _. injection Hwc as Hwc _.
    cbn [word_count].
    by destruct (default (PyInt 0) (py_get data "word_count")); simplify_eq/=.
Qed.

(** X21. What a missing key does.  A location needs its [section]: without it
    [from_dict] raises [KeyError], and that is the only way it raises.  A
    draft needs its [id], and raises before it asks for the time.  An
    issue and a feedback need nothing: from the empty dictionary they are
    built with a fresh identifier (and the current time) and the defaults
    of the dataclass. *)
Theorem from_dict_missing_keys (data : list (string * PyVal)) (e : Env) :
  ((exists exn, (Dicts.IssueLocation_from_dict data e).1 = Raised exn)
   <-> py_get data "section" = None) /\
  (py_get data "section" = None ->
   Dicts.IssueLocation_from_dict data e = (Raised (KeyError "section"), e)) /\
  (py_get data "id" = None ->
   Dicts.PaperDraft_from_dict data e = (Raised (KeyError "id"), e)) /\
  Dicts.ReviewIssue_from_dict [] e
  = (Built (mkReviewIssue (uuid4 (world e)).1 VAGUE_CLAIM MINOR
              (mkIssueLocation "" 0 "") "" "" false),
     mkEnv (uuid4 (world e)).2 (trace e)) /\
  Dicts.ReviewFeedback_from_dict [] e
  = (Built (mkReviewFeedback (uuid4 (world e)).1 None 1 [] "" false
              (datetime_now (uuid4 (world e)).2).1),
     mkEnv (datetime_now (uuid4 (world e)).2).2 (trace e)).
Proof.
  split_and!.
  - unfold Dicts.IssueLocation_from_dict, Dicts.lap, bind, ret. cbn [fst snd].
    destruct (py_get data "section") as [v|].
    + split; [|done]. intros [exn Hexn]. exfalso.
      destruct v, (default (PyInt 0) (py_get data "paragraph")),
        (default (PyStr "") (py_get data "text_excerpt")); simpl in Hexn; done.
    + split; [done|]. intros _. by eexists.
  - intros Hnone. unfold Dicts.IssueLocation_from_dict, Dicts.lap, bind, ret.
    by rewrite Hnone.
  - intros Hnone. unfold Dicts.PaperDraft_from_dict, Dicts.lap, bind, ret.
    by rewrite Hnone.
  - unfold Dicts.ReviewIssue_from_dict, Dicts.IssueLocation_from_dict,
      Dicts.uuid_or_fresh, Dicts.lap, bind, ret, fresh_uuid. cbn.
    by destruct (uuid4 (world e)).
  - unfold Dicts.ReviewFeedback_from_dict, Dicts.uuid_or_fresh, Dicts.uuid_or_none,
      Dicts.datetime_or_now, Dicts.lap, bind, ret, fresh_uuid, now. cbn.
    destruct (uuid4 (world e)) as [u w]. cbn. by destruct (datetime_now w).
Qed.

End DictFacts.

(** ** What the loop keeps of a draft *)

Section LoopInvariants.
Context `{Collaborators}.

Lemma edit_group_draft_inv (P : PaperDraft -> Prop) (st : Editor.EditState)
    (g : string * list nat) (e : Env) :
  loop_invariant P ->
  P (Editor.cur_draft st) -> P (Editor.cur_draft (Editor.edit_group st g e).1).
Proof.
  intros (Hset & _ & _) Hd. destruct g as [name refs]. unfold Editor.edit_group.
  destruct (SectionType_of_value name) as [s|].
  - unfold bind.
    destruct (decide (get_section (Editor.cur_draft st) s = "")) as [Hempty|Htext].
    + by rewrite (edit_section_empty _ _ _ _ _ Hempty).
    + destruct (edit_section_rewrites _ s refs (Editor.cur_store st) e Htext)
        as (edited & t & w & ->). simpl.
      by apply (Hset _ s edited t).
  - done.
Qed.

Lemma apply_all_fixes_draft_inv (P : PaperDraft -> Prop) (d : PaperDraft)
    (fb : ReviewFeedback) (e : Env) :
  loop_invariant P ->
  P d -> P (Editor._apply_all_fixes d fb e).1.1.2.
Proof.
  intros HP Hd. rewrite apply_all_fixes_unfold. cbv zeta. cbn [fst snd].
  apply HP.
  apply (for_each_inv (fun st => P (Editor.cur_draft st))); [|done].
  intros st g e0 _ Hst. by apply edit_group_draft_inv.
Qed.

Lemma review_draft (d : PaperDraft) (c : Z) (e : Env) :
  (Reviewer._review d c e).1.2 = set_review_cycle d c.
Proof. by destruct (review_shape d c e) as (fid & t & l & e' & ->). Qed.

Lemma cycle_unfold (min_cycles : Z) (c : Z) (rest : list Z)
    (st : Orchestrator.WorkflowState) (e : Env) :
  exists fb eR eE e2,
    Orchestrator.review_edit_cycles min_cycles (c :: rest) st e
    = if approved fb && (min_cycles <=? c) then
        (Orchestrator.Returned
           (Orchestrator.mkWorkflowState Orchestrator.REVIEW
              (set_review_cycle (Orchestrator.draft st) c) (Some fb) c), eR)
      else
        Orchestrator.review_edit_cycles min_cycles rest
          (Orchestrator.mkWorkflowState Orchestrator.EDITING
             (Editor._apply_all_fixes
                (set_review_cycle (Orchestrator.draft st) c) fb eE).1.1.2
             (Some (Editor._apply_all_fixes
                      (set_review_cycle (Orchestrator.draft st) c) fb eE).1.2)
             c)
          e2.
Proof.
  set (e0 := mkEnv (world e)
               (trace e ++ [LogInfo (Progress "review" (70 + c * 5)
                                       ("Review cycle " +:+ pretty c))])).
  destruct (review_step (Orchestrator.draft st) c e0)
    as (rd & d1 & e1 & evsR & HeqR & _ & _ & _ & Hok & _).
  pose proof (review_draft (Orchestrator.draft st) c e0) as Hd1.
  rewrite HeqR in Hd1. cbn [fst snd] in Hd1. subst d1.
  set (found := LogInfo (Progress "review" (72 + c * 5)
                           ("Found " +:+ pretty (Reviewer.issue_count rd)
                            +:+ " issues"))).
  set (editing := LogInfo (Progress "editing" (75 + c * 5)
                             ("Editing cycle " +:+ pretty c))).
  set (eE := mkEnv (world e1) ((trace e1 ++ [found]) ++ [editing])).
  destruct (apply_all_fixes_step (set_review_cycle (Orchestrator.draft st) c)
              (Reviewer.data_feedback rd) eE)
    as (ad & d2 & fb' & e2 & evsE & HeqE & Hdd & _).
  exists (Reviewer.data_feedback rd),
    (mkEnv (world e1)
       ((trace e1 ++ [found]) ++ [LogInfo (Progress "review" 90 "Paper approved")])),
    eE,
    (mkEnv (world e2)
       (trace e2 ++ [LogInfo (Progress "editing" (78 + c * 5)
                                ("Fixed " +:+ pretty (Editor.total_issues_fixed ad)
                                 +:+ " issues"))])).
  cbn [Orchestrator.review_edit_cycles].
  unfold bind, Orchestrator._report_progress, log_info, emit, ret.
  cbn [world trace Orchestrator.draft]. fold e0. rewrite HeqR.
  cbn [success data world trace Orchestrator.draft]. rewrite Hok.
  destruct (approved (Reviewer.data_feedback rd) && (min_cycles <=? c));
    [reflexivity|].
  fold found editing. cbn [world trace]. fold eE. rewrite HeqE.
  cbn [success data world trace fst snd]. by rewrite Hdd.
Qed.

Lemma loop_draft_inv (P : PaperDraft -> Prop) (min_cycles : Z) (cycles : list Z) :
  loop_invariant P ->
  forall (st st' : Orchestrator.WorkflowState) (e e' : Env),
    P (Orchestrator.draft st) ->
    Orchestrator.review_edit_cycles min_cycles cycles st e
    = (Orchestrator.Returned st', e') ->
    P (Orchestrator.draft st').
Proof.
  intros HP. induction cycles as [|c rest IH]; intros st st' e e' Hd Hrun.
  - cbn in Hrun. unfold ret in Hrun. by simplify_eq.
  - destruct (cycle_unfold min_cycles c rest st e) as (fb & eR & eE & e2 & Heq).
    rewrite Heq in Hrun. clear Heq.
    assert (Hd1 : P (set_review_cycle (Orchestrator.draft st) c)) by by apply HP.
    destruct (approved fb && (min_cycles <=? c)).
    + by simplify_eq.
    + eapply IH; [|exact Hrun]. cbn [Orchestrator.draft].
      by apply apply_all_fixes_draft_inv.
Qed.

Lemma stage_loop_draft_inv (P : PaperDraft -> Prop)
    (config : Orchestrator.PaperConfig) (st : Orchestrator.WorkflowState)
    (e : Env) :
  loop_invariant P ->
  P (Orchestrator.draft st) ->
  exists st' e',
    Orchestrator._stage_review_edit_loop config st e
    = (Orchestrator.Returned st', e') /\
    P (Orchestrator.draft st').
Proof.
  intros HP Hd. unfold Orchestrator._stage_review_edit_loop, bind.
  destruct (review_edit_cycles_run (Orchestrator.min_review_cycles config)
              (Orchestrator.cycle_range (Orchestrator.max_review_cycles config))
              st e)
    as (st' & e' & evs & k & conv & Hrun & _).
  rewrite Hrun.
  pose proof (loop_draft_inv P _ _ HP st st' e e' Hd Hrun) as Hd'.
  destruct (match Orchestrator.feedback st' with
            | Some fb => negb (approved fb)
            | None => true
            end); unfold bind, log_warning, emit, ret; eauto.
Qed.

Lemma counted_invariant : loop_invariant counted.
Proof. by split_and!. Qed.

Lemma same_paper_invariant (d0 : PaperDraft) : loop_invariant (same_paper d0).
Proof.
  split_and!.
  - intros d s content t Htext (Hid & Hsid & Hst & Hca & Hdom & Hempty).
    unfold same_paper, section_set. cbn [paper_id session_id status created_at
                                          sections].
    split_and!; try done.
    + rewrite <- Hdom. apply dom_insert_lookup_L.
      unfold get_section in Htext.
      destruct (sections d !! SectionType_value s); [done|]. by simpl in Htext.
    + intros s0 Hs0. specialize (Hempty s0 Hs0).
      unfold get_section in *. cbn [sections].
      rewrite lookup_insert_ne; [done|].
      intros Heq. apply SectionType_value_inj in Heq. subst s0. done.
  - by intros d (? & ? & ? & ? & ? & ?).
  - by intros d c (? & ? & ? & ? & ? & ?).
Qed.

(** X22. What the loop never does to the draft.  Whatever the model replies,
    the draft that leaves the review-edit loop has the identifier, the
    session, the creation time and the status of the draft that entered
    it (the status is not set even when the paper is approved), the same
    section keys, and no text in a section that had none. *)
Theorem loop_returns_the_same_paper
    (config : Orchestrator.PaperConfig) (st : Orchestrator.WorkflowState)
    (e : Env) :
  exists st' e',
    Orchestrator._stage_review_edit_loop config st e
    = (Orchestrator.Returned st', e') /\
    same_paper (Orchestrator.draft st) (Orchestrator.draft st').
Proof.
  apply stage_loop_draft_inv; [apply same_paper_invariant|].
  by split_and!.
Qed.

(** X23. The loop keeps the word count right: when the word count of the
    draft that enters the loop is the number of words of its sections, so
    is the word count of the draft that leaves it. *)
Theorem loop_keeps_word_count
    (config : Orchestrator.PaperConfig) (st : Orchestrator.WorkflowState)
    (e : Env) :
  counted (Orchestrator.draft st) ->
  exists st' e',
    Orchestrator._stage_review_edit_loop config st e
    = (Orchestrator.Returned st', e') /\
    counted (Orchestrator.draft st').
Proof.
  intros Hd. by apply stage_loop_draft_inv; [apply counted_invariant|].
Qed.

End LoopInvariants.

(** ** The assessment and the approval of a review *)

Section Assessment.
Context `{Collaborators}.

Lemma string_length_append (a x : string) :
  String.length (a +:+ x) = (String.length a + String.length x)%nat.
Proof. induction a as [|c a IH]; [done|]. simpl. by rewrite IH. Qed.

Lemma append_suffix_eq (a b x y : string) :
  a +:+ x = b +:+ y -> String.length x = String.length y -> x = y.
Proof.
  intros Heq Hlen.
  assert (Hab : String.length a = String.length b).
  { apply (f_equal String.length) in Heq.
    rewrite !string_length_append in Heq. lia. }
  clear Hlen. revert b Heq Hab.
  induction a as [|c a IH]; intros [|c' b] Heq Hab; simpl in *; try done.
  injection Heq as _ Heq. apply (IH b Heq). lia.
Qed.

Lemma different_endings (a b x y tx ty : string) :
  String.length tx = String.length ty -> tx <> ty ->
  a +:+ (x +:+ tx) <> b +:+ (y +:+ ty).
Proof.
  intros Hlen Hne Heq. rewrite <- !append_assoc in Heq.
  by apply append_suffix_eq in Heq.
Qed.

Lemma unresolved_no_critical_major (l : list ReviewIssue) :
  Forall (fun i => resolved i = false) l ->
  Reviewer.no_critical_major l
  = Nat.eqb (Reviewer.count_severity CRITICAL l) 0
    && Nat.eqb (Reviewer.count_severity MAJOR l) 0.
Proof.
  unfold Reviewer.no_critical_major, Reviewer.count_severity.
  induction 1 as [|i l Hi _ IH]; [done|].
  cbn [List.filter]. rewrite Hi. cbn [negb]. rewrite andb_true_r.
  destruct (severity i); cbn [IssueSeverity_eqb orb length Nat.eqb andb];
    try done. by rewrite andb_false_r.
Qed.

(** X24. From cycle 1 on, the approval of a review and the closing sentence of
    its assessment agree: the review is approved exactly when the
    assessment ends with the sentence that the paper is nearing
    publication readiness.  (At a cycle number below 1 they can differ:
    the review is not approved, the sentence is chosen as for cycle 2.) *)
Theorem review_assessment_agrees_with_approval
    (draft : PaperDraft) (c : Z) (e : Env) :
  1 <= c ->
  exists fb,
    feedback_in (Reviewer._review draft c e).1.1 = Some fb /\
    (approved fb = true <->
     ends_with (overall_assessment fb)
       "The paper is nearing publication readiness with only minor issues remaining. ").
Proof.
  intros Hc.
  destruct (review_located draft c e) as (fid & t & l & e' & -> & Hall).
  eexists. split; [reflexivity|]. cbn [approved overall_assessment].
  assert (Hunres : Forall (fun i => resolved i = false) l).
  { eapply Forall_impl; [exact Hall|].
    intros i [(s & (_ & _ & Hr) & _)|(_ & _ & _ & _ & Hr)]; done. }
  rewrite (unresolved_no_critical_major l Hunres).
  unfold Reviewer._generate_assessment. cbv zeta.
  set (header := "Review Cycle " +:+ _).
  assert (Hother : forall x tx pre,
            String.length tx = 3%nat -> tx <> "g. " ->
            header +:+ (x +:+ tx)
            <> pre +:+ ("The paper is nearing publication readiness with only minor issues remainin"
                        +:+ "g. ")).
  { intros x tx pre Hlen Hne. by apply different_endings. }
  destruct (Z.eqb_spec c 1) as [->|Hc1].
  - simpl. split; [done|]. intros [pre Hpre]. exfalso.
    by apply (Hother "This is the first review cycle. The paper requires revisions before it can be approve"
                "d. " pre).
  - assert ((c <? 2) = false) as -> by lia.
    destruct (Reviewer.count_severity CRITICAL l) as [|n]; cbn [Nat.eqb Nat.ltb Nat.leb andb].
    + destruct (Reviewer.count_severity MAJOR l) as [|m]; cbn [Nat.eqb Nat.ltb Nat.leb].
      * split; [|done]. intros _. by exists header.
      * split; [done|]. intros [pre Hpre]. exfalso.
        by apply (Hother "The paper has major issues that should be addresse" "d. " pre).
    + split; [done|]. intros [pre Hpre]. exfalso.
      by apply (Hother "The paper has critical issues that must be addressed before approva"
                  "l. " pre).
Qed.

End Assessment.

(** ** What a review asks the model *)

Section ReviewRequests.
Context `{Collaborators}.

Lemma for_each_traceless {A S : Type} (l : list A) (body : S -> A -> M S) :
  (forall s x e, trace (body s x e).2 = trace e) ->
  forall s e, trace (for_each l body s e).2 = trace e.
Proof.
  intros Hbody. induction l as [|x l IH]; intros s e; [done|].
  rewrite for_each_cons. specialize (Hbody s x e).
  destruct (body s x e) as [s' e1]. cbn [snd] in Hbody.
  by rewrite IH.
Qed.

Lemma flush_issue_traceless (s : SectionType) (cur : gmap string string)
    (l : list ReviewIssue) (e : Env) :
  trace (Reviewer.flush_issue s cur l e).2 = trace e.
Proof.
  unfold Reviewer.flush_issue. case_bool_decide; [done|].
  unfold bind, Reviewer._create_issue, bind, fresh_uuid, ret.
  by destruct (uuid4 (world e)).
Qed.

Lemma parse_line_traceless (s : SectionType)
    (st : gmap string string * list ReviewIssue) (raw : string) (e : Env) :
  trace (Reviewer.parse_line s st raw e).2 = trace e.
Proof.
  destruct st as [cur l]. unfold Reviewer.parse_line.
  repeat (match goal with
          | |- context [if ?b then _ else _] => destruct b
          end; try done).
  unfold bind. pose proof (flush_issue_traceless s cur l e) as Hflush.
  by destruct (Reviewer.flush_issue s cur l e).
Qed.

Lemma parse_issues_traceless (s : SectionType) (response : string) (e : Env) :
  trace (Reviewer.parse_issues s response e).2 = trace e.
Proof.
  unfold Reviewer.parse_issues.
  destruct (Str.contains response "NO_ISSUES"); [done|]. cbn [negb].
  unfold bind.
  pose proof (for_each_traceless (Str.splitlines response)
                (Reviewer.parse_line s) (parse_line_traceless s) (∅, []) e)
    as Hloop.
  destruct (for_each _ _ _ e) as [[cur l] e1]. cbn [fst snd] in *.
  by rewrite flush_issue_traceless.
Qed.

Lemma review_section_trace (s : SectionType) (content : string) (c : Z) (e : Env) :
  trace (Reviewer._review_section s content c e).2
  = trace e ++ [Generate (ReviewSectionPrompt s (Str.slice_to 5000 content) c) 2000].
Proof.
  unfold Reviewer._review_section, bind, generate.
  destruct (llm_generate _ _ (world e)) as [response w].
  by rewrite parse_issues_traceless.
Qed.

Lemma review_sections_trace (draft : PaperDraft) (c : Z) (e : Env) :
  trace (Reviewer.review_sections draft c e).2
  = trace e ++ (section_request draft c <$> populated draft).
Proof.
  unfold Reviewer.review_sections, populated.
  generalize (@nil ReviewIssue) as acc. revert e.
  induction SectionType_members as [|s ss IH]; intros e acc.
  - simpl. by rewrite app_nil_r.
  - rewrite for_each_cons. cbn [List.filter]. cbv beta zeta.
    destruct (String.eqb (get_section draft s) ""); cbn [negb].
    + unfold ret. apply IH.
    + unfold bind, ret.
      pose proof (review_section_trace s (get_section draft s) c e) as Hsec.
      destruct (Reviewer._review_section s (get_section draft s) c e) as [found e1].
      cbn [snd] in Hsec. rewrite IH, Hsec, fmap_cons, <- app_assoc. done.
Qed.

Lemma consistency_line_traceless (l : list ReviewIssue) (line : string) (e : Env) :
  trace (Reviewer.consistency_line l line e).2 = trace e.
Proof.
  unfold Reviewer.consistency_line.
  destruct (Str.startswith line "INCONSISTENCY:"); [|done].
  unfold bind, fresh_uuid, ret. by destruct (uuid4 (world e)).
Qed.

Lemma check_consistency_trace (draft : PaperDraft) (e : Env) :
  trace (Reviewer._check_consistency draft e).2
  = trace e ++ [consistency_request draft].
Proof.
  unfold Reviewer._check_consistency, bind, generate, consistency_request.
  destruct (llm_generate _ _ (world e)) as [response w].
  destruct (Str.contains response "INCONSISTENCY:"); [|done].
  by rewrite (for_each_traceless _ _ consistency_line_traceless).
Qed.

(** X25. What a review asks the model, and in which order: one request for
    each section kind that has text, in the order of the kinds, with the
    first 5000 characters of the section and a budget of 2000 tokens, then
    one request for the consistency of the abstract with the first 1000
    characters of the introduction and of the conclusion.  A section
    without text is never sent, nor is what lies beyond the 5000th
    character of a section.  Besides the requests the review logs its
    start and, below cycle 2, that it cannot approve. *)
Theorem review_requests (draft : PaperDraft) (c : Z) (e : Env) :
  trace (Reviewer._review draft c e).2
  = trace e
    ++ LogInfo (StartingReviewCycle c)
       :: (section_request draft c <$> populated draft)
    ++ consistency_request draft
       :: (if c <? 2 then [LogInfo FirstCycleNoApproval] else []).
Proof.
  unfold Reviewer._review, bind, log_info, emit, fresh_uuid, now, ret. simpl.
  repeat run_step.
  match goal with
  | Hr : Reviewer.review_sections draft c ?e0 = _ |- _ =>
      pose proof (review_sections_trace draft c e0) as Hsec; rewrite Hr in Hsec
  end.
  match goal with
  | Hr : Reviewer._check_consistency draft ?e0 = _ |- _ =>
      pose proof (check_consistency_trace draft e0) as Hcons; rewrite Hr in Hcons
  end.
  cbn [snd trace] in Hsec, Hcons.
  repeat match goal with
         | Hq : (let (_, _) := ?m in _) = _ |- _ => destruct m; simplify_eq/=
         end.
  destruct (c <? 2); simplify_eq/=; rewrite Hcons, Hsec, <- ?app_assoc;
    cbn [app]; by rewrite <- ?app_assoc.
Qed.

End ReviewRequests.

(** ** Concrete runs of the further code *)

(** The loop with one cycle allowed and a model that finds nothing: the
    first review is still followed by an edit. *)
Lemma loop_edits_after_first_review_witness :
  let config := Orchestrator.mkPaperConfig 1 1 in
  let st := Orchestrator.mkWorkflowState Orchestrator.INIT
              (draft_of [("introduction", "X")]) None 0 in
  let e := start ["NO_ISSUES: fine"; "CONSISTENT: aligned"] in
  exists st' e' evs calls,
    @Orchestrator._stage_review_edit_loop scripted config st e
    = (Orchestrator.Returned st', e') /\
    trace e' = trace e ++ evs /\
    agent_calls evs = ReviewCall 1 :: EditCall :: calls /\
    version (Orchestrator.draft st) + 1 <= version (Orchestrator.draft st').
Proof.
  intros config st e.
  apply (@loop_edits_after_first_review scripted config st e).
  simpl. lia.
Defined.

(** The loop with no cycle allowed, from a state without feedback. *)
Lemma loop_without_cycles_witness :
  let config := Orchestrator.mkPaperConfig 2 0 in
  let st := Orchestrator.mkWorkflowState Orchestrator.INIT
              (draft_of [("introduction", "X")]) None 0 in
  let e := start [] in
  @Orchestrator._stage_review_edit_loop scripted config st e
  = (Orchestrator.Returned st,
     @mkEnv scripted (world e) (trace e ++ [LogWarning MaximumReviewCyclesReached])).
Proof.
  intros config st e.
  apply (@loop_without_cycles scripted config st e).
  simpl. lia.
Defined.

(** The full text leaves out the text stored under a key that is no
    section kind; the word count includes it. *)
Example scenario_full_text :
  let d := draft_of [("conclusion", "Done."); ("abstract", "Two words");
                     ("notes", "not shown at all")] in
  get_full_text d
  = "## Abstract

Two words

## Conclusion

Done."
  /\ word_count d = 7.
Proof. vm_compute. by split. Qed.

(** Of four sources, the second has the address of the first in another
    case and the third its title with other spacing: both are dropped. *)
Example scenario_deduplicate :
  Sources.url <$>
    Sources._deduplicate_sources
      [source_at "https://a.org/P" "Graph Kernels";
       source_at " https://A.org/p" "Another title";
       source_at "https://b.org/q" "  graph kernels ";
       source_at "https://c.org/r" "Third"]
  = ["https://a.org/P"; "https://c.org/r"].
Proof. vm_compute. reflexivity. Qed.

(** A topic that the model repeats as its sixth line is not among the
    queries. *)
Example scenario_topic_cut_off :
  Sources.search_queries "graphs" six_queries
  = ["graph kernels"; "kernel methods for graphs"; "learning on graphs";
     "graph similarity"; "structured data"].
Proof. vm_compute. reflexivity. Qed.

(** Reading an issue whose severity is no severity raises [ValueError],
    after a fresh identifier was drawn for the missing [id]. *)
Example scenario_unknown_severity :
  let r := @Dicts.ReviewIssue_from_dict scripted tally_renderings
             [("severity", PyStr "blocker")] (start []) in
  r.1 = Raised ValueError /\ next_uuid (world r.2) = 1%N.
Proof. vm_compute. by split. Qed.

(** Reading back a feedback with one issue, on the tally renderings. *)
Example scenario_feedback_read_back :
  let f := feedback_of 2 [issue_at "introduction" MAJOR "the claim" "unclear"] true in
  match @Dicts.ReviewFeedback_to_dict tally_renderings f with
  | PyDict data =>
      (@Dicts.ReviewFeedback_from_dict scripted tally_renderings data (start [])).1
  | _ => Untyped
  end = Built f.
Proof. vm_compute. reflexivity. Qed.

(** A single-issue edit against a script: the section becomes the reply
    and the issue is marked; an issue of the consistency check is
    refused. *)
Example scenario_edit_issue :
  let d := draft_of [("introduction", "X")] in
  let r := @EditorActions._edit_issue scripted scripted_edits d
             (issue_at "introduction" MAJOR "X" "unclear") (start ["X revised"]) in
  let r' := @EditorActions._edit_issue scripted scripted_edits d
              (issue_at "cross-section" MAJOR "" "contradiction") (start []) in
  (success r.1.1.1, get_section r.1.1.2 INTRODUCTION, resolved r.1.2)
  = (true, "X revised", true)
  /\ error r'.1.1.1 = Some "Invalid section: cross-section".
Proof. vm_compute. by split. Qed.

(** The loop on a draft whose word count is right, against the script
    that converges at cycle 2. *)
Lemma loop_keeps_word_count_witness :
  let config := Orchestrator.mkPaperConfig 2 5 in
  let st := Orchestrator.mkWorkflowState Orchestrator.INIT
              (draft_of [("introduction", "X"); ("conclusion", "Y")]) None 0 in
  exists st' e',
    @Orchestrator._stage_review_edit_loop scripted config st (start converging_script)
    = (Orchestrator.Returned st', e') /\
    counted (Orchestrator.draft st').
Proof.
  intros config st.
  apply (@loop_keeps_word_count scripted config st (start converging_script)).
  reflexivity.
Defined.

(** A review at cycle 2 of a draft in which the model finds nothing. *)
Lemma review_assessment_agrees_with_approval_witness :
  let d := draft_of [("introduction", "X")] in
  let e := start ["NO_ISSUES: fine"; "CONSISTENT: aligned"] in
  exists fb,
    feedback_in (@Reviewer._review scripted d 2 e).1.1 = Some fb /\
    (approved fb = true <->
     ends_with (overall_assessment fb)
       "The paper is nearing publication readiness with only minor issues remaining. ").
Proof.
  intros d e.
  apply (@review_assessment_agrees_with_approval scripted d 2 e).
  lia.
Defined.

(** A review of a draft with two sections that have text and one without:
    two section requests and the consistency request. *)
Example scenario_review_requests :
  let d := draft_of [("conclusion", "Y"); ("methodology", ""); ("introduction", "X")] in
  omap request_of
    (trace (@Reviewer._review scripted d 2
              (start ["NO_ISSUES: fine"; "NO_ISSUES: fine"; "CONSISTENT: aligned"])).2)
  = [(ReviewSectionPrompt INTRODUCTION "X" 2, 2000);
     (ReviewSectionPrompt CONCLUSION "Y" 2, 2000);
     (ConsistencyPrompt "" "X" "Y", 1000)].
Proof. vm_compute. reflexivity. Qed.

(** The marker blocks of a reply whose first marker line is no [ISSUE:]
    line: the lines before the first [ISSUE:] line make a block of their
    own. *)
Example scenario_marker_blocks :
  marker_blocks "SEVERITY: SEVERE
LOCATION: para 2
  ISSUE: typo
not a marker line
DESCRIPTION: misspelt
DESCRIPTION: misspelt twice"
  = [[("SEVERITY:", "SEVERE"); ("LOCATION:", "para 2")];
     [("ISSUE:", "typo"); ("DESCRIPTION:", "misspelt");
      ("DESCRIPTION:", "misspelt twice")]]
  /\ last_value "description"
       [("ISSUE:", "typo"); ("DESCRIPTION:", "misspelt");
        ("DESCRIPTION:", "misspelt twice")]
     = Some "misspelt twice".
Proof. vm_compute. by split. Qed.
